(** * FractalChain consensus core: a shallow embedding and its properties

    The development follows the Python sources of the repository:
    - [core/crypto.py]      canonical hashing (SHA-256 of sorted-key JSON),
    - [core/merkle.py]      the Merkle tree over transaction hashes,
    - [core/transaction.py] and [core/block.py]  the record types and their
      structural validation,
    - [core/blockchain.py]  mempool admission, balances and the reward law,
    - [consensus/fractal_math.py]  seed handling, the header pre-filter and
      the decision taken by the proof verifier.

    Python values are modelled as follows.  A [str] is a [string] whose
    characters are the code points 0..255; an [int] is a [Z]; a [float] is
    an IEEE-754 binary64 value, [spec_float] with precision 53 and
    [emax = 1024]; a raised exception is [None].  Functions of the external
    libraries whose results the repository does not fix (ECDSA, the JSON
    rendering of floats, numpy and scipy kernels) are fields of an
    interface; SHA-256 is implemented and checked against its test
    vectors. *)

From stdpp Require Import gmap strings.
From Stdlib Require Import ZArith List String Ascii Bool Lia QArith.
From Stdlib Require Import SpecFloat PrimFloat FloatOps DecimalString.
From Bignums Require Import BigZ.
Import ListNotations.

Local Open Scope string_scope.
Local Open Scope Z_scope.

(** ** Python strings and integers *)

Module Py.

(** [str(n)] for an integer. *)
Definition str_of_int (n : Z) : string := NilZero.string_of_int (Z.to_int n).

(** [c * n] for a one-character string; empty when [n <= 0]. *)
Definition repeat_char (c : ascii) (n : Z) : string :=
  string_of_list_ascii (List.repeat c (Z.to_nat n)).

Definition len (s : string) : Z := Z.of_nat (String.length s).

(** A slice bound as Python normalises it: negative bounds count from the
    end, and the result is clipped to [0, len]. *)
Definition clip (n : Z) (i : Z) : Z :=
  let j := if i <? 0 then i + n else i in
  Z.max 0 (Z.min n j).

(** [s[a:b]]. *)
Definition slice (s : string) (a b : Z) : string :=
  let n := len s in
  let lo := clip n a in
  let hi := clip n b in
  String.substring (Z.to_nat lo) (Z.to_nat (hi - lo)) s.

(** [s[:b]]. *)
Definition slice_to (s : string) (b : Z) : string := slice s 0 b.

(** [s.ljust(width, fill)]: the text stays on the left, the fill characters
    are appended on the right. *)
Definition ljust (s : string) (width : Z) (fill : ascii) : string :=
  if width <=? len s then s else s ++ repeat_char fill (width - len s).

(** *** [int(s, 16)] *)

Definition hex_digit_val (c : ascii) : option Z :=
  let n := Z.of_N (N_of_ascii c) in
  if (48 <=? n) && (n <=? 57) then Some (n - 48)
  else if (97 <=? n) && (n <=? 102) then Some (n - 87)
  else if (65 <=? n) && (n <=? 70) then Some (n - 55)
  else None.

Definition is_hex_digit (c : ascii) : bool :=
  match hex_digit_val c with Some _ => true | None => false end.

(** Characters that [int] skips around the digits, among the code points
    0..255: the ASCII whitespace (tab to carriage return, and the space)
    and the two Unicode spaces U+0085 and U+00A0.  The separators 0x1c to
    0x1f are not skipped: [int] raises on them. *)
Definition is_space (c : ascii) : bool :=
  let n := Z.of_N (N_of_ascii c) in
  ((9 <=? n) && (n <=? 13)) || (n =? 32) || (n =? 133) || (n =? 160).

Fixpoint lstrip (l : list ascii) : list ascii :=
  match l with
  | c :: r => if is_space c then lstrip r else l
  | [] => []
  end.

Definition strip (l : list ascii) : list ascii :=
  rev (lstrip (rev (lstrip l))).

(** Digits with single underscores between them, most significant first.
    [prev] tells whether the previous character was a digit. *)
Fixpoint digits16 (l : list ascii) (acc : Z) (prev : bool) : option Z :=
  match l with
  | [] => if prev then Some acc else None
  | c :: r =>
      match hex_digit_val c with
      | Some d => digits16 r (16 * acc + d) true
      | None =>
          if (Ascii.eqb c "_"%char) && prev then digits16 r acc false
          else None
      end
  end.

Definition strip_0x (l : list ascii) : list ascii :=
  match l with
  | "0"%char :: x :: r =>
      if Ascii.eqb x "x"%char || Ascii.eqb x "X"%char then
        match r with
        | "_"%char :: r' => r'
        | _ => r
        end
      else l
  | _ => l
  end.

(** [int(s, 16)]; [None] is [ValueError]. *)
Definition int16 (s : string) : option Z :=
  let l := strip (list_ascii_of_string s) in
  let '(neg, l) :=
    match l with
    | "-"%char :: r => (true, r)
    | "+"%char :: r => (false, r)
    | _ => (false, l)
    end in
  match digits16 (strip_0x l) 0 false with
  | Some v => Some (if neg then - v else v)
  | None => None
  end.

(** [n.bit_length()]. *)
Definition bit_length (n : Z) : Z :=
  if n =? 0 then 0 else Z.log2 (Z.abs n) + 1.

(** [1 << n]; a negative shift count raises [ValueError]. *)
Definition one_shl (n : Z) : option Z :=
  if n <? 0 then None else Some (Z.shiftl 1 n).

(** A string made of hexadecimal digits only. *)
Definition is_hex (s : string) : bool :=
  forallb is_hex_digit (list_ascii_of_string s).

End Py.

(** ** SHA-256 ([hashlib.sha256])

    32-bit words are integers reduced modulo 2^32.  The round constants and
    the initial state are derived as the standard defines them: the first
    32 bits of the fractional parts of the cube roots, respectively square
    roots, of the first primes. *)

Module SHA256.

Definition w32 (x : Z) : Z := x mod 4294967296.

Definition rotr (n x : Z) : Z :=
  Z.lor (Z.shiftr x n) (w32 (Z.shiftl x (32 - n))).

Definition Ch (x y z : Z) : Z :=
  Z.lxor (Z.land x y) (Z.land (Z.lxor x 4294967295) z).

Definition Maj (x y z : Z) : Z :=
  Z.lxor (Z.lxor (Z.land x y) (Z.land x z)) (Z.land y z).

Definition Sigma0 (x : Z) : Z := Z.lxor (Z.lxor (rotr 2 x) (rotr 13 x)) (rotr 22 x).
Definition Sigma1 (x : Z) : Z := Z.lxor (Z.lxor (rotr 6 x) (rotr 11 x)) (rotr 25 x).
Definition sigma0 (x : Z) : Z := Z.lxor (Z.lxor (rotr 7 x) (rotr 18 x)) (Z.shiftr x 3).
Definition sigma1 (x : Z) : Z := Z.lxor (Z.lxor (rotr 17 x) (rotr 19 x)) (Z.shiftr x 10).

Definition primes64 : list Z :=
  [2; 3; 5; 7; 11; 13; 17; 19; 23; 29; 31; 37; 41; 43; 47; 53;
   59; 61; 67; 71; 73; 79; 83; 89; 97; 101; 103; 107; 109; 113; 127; 131;
   137; 139; 149; 151; 157; 163; 167; 173; 179; 181; 191; 193; 197; 199; 211; 223;
   227; 229; 233; 239; 241; 251; 257; 263; 269; 271; 277; 281; 283; 293; 307; 311].

(** Integer cube root, one bit at a time from bit [k-1] down. *)
Fixpoint icbrt_bits (k : nat) (n r : Z) : Z :=
  match k with
  | O => r
  | S k' =>
      let c := r + Z.shiftl 1 (Z.of_nat k') in
      icbrt_bits k' n (if c * c * c <=? n then c else r)
  end.

Definition icbrt (n : Z) : Z := icbrt_bits 40 n 0.

Definition K256 : list Z :=
  Eval vm_compute in map (fun p => w32 (icbrt (p * 2 ^ 96))) primes64.

Definition H0 : list Z :=
  Eval vm_compute in map (fun p => w32 (Z.sqrt (p * 2 ^ 64))) (firstn 8 primes64).

(** UTF-8 encoding of the code points 0..255. *)
Definition utf8_char (c : ascii) : list Z :=
  let n := Z.of_N (N_of_ascii c) in
  if n <? 128 then [n]
  else [Z.lor 192 (Z.shiftr n 6); Z.lor 128 (Z.land n 63)].

Definition utf8 (s : string) : list Z :=
  flat_map utf8_char (list_ascii_of_string s).

Definition be_bytes (k : nat) (x : Z) : list Z :=
  map (fun i => Z.land (Z.shiftr x (8 * Z.of_nat i)) 255) (rev (seq 0 k)).

Definition pad (msg : list Z) : list Z :=
  let l := Z.of_nat (List.length msg) in
  let z := (55 - l) mod 64 in
  msg ++ [128] ++ List.repeat 0 (Z.to_nat z) ++ be_bytes 8 (8 * l).

Fixpoint be_word (bs : list Z) (acc : Z) : Z :=
  match bs with
  | [] => acc
  | b :: r => be_word r (256 * acc + b)
  end.

(** The bytes as big-endian 32-bit words; [k] bounds the number of words. *)
Fixpoint words (k : nat) (bs : list Z) : list Z :=
  match k, bs with
  | S k', _ :: _ => be_word (firstn 4 bs) 0 :: words k' (skipn 4 bs)
  | _, _ => []
  end.

Fixpoint chunks16 (k : nat) (ws : list Z) : list (list Z) :=
  match k, ws with
  | S k', _ :: _ => firstn 16 ws :: chunks16 k' (skipn 16 ws)
  | _, _ => []
  end.

(** The message schedule, extended from 16 to 64 words; [w] is kept in
    reverse order so that the most recent word is at its head. *)
Fixpoint schedule (k : nat) (w : list Z) : list Z :=
  match k with
  | O => rev w
  | S k' =>
      let x := w32 (sigma1 (nth 1%nat w 0) + nth 6%nat w 0 + sigma0 (nth 14%nat w 0) + nth 15%nat w 0) in
      schedule k' (x :: w)
  end.

Definition state : Type := (Z * Z * Z * Z * Z * Z * Z * Z)%type.

Definition round (st : state) (kw : Z * Z) : state :=
  let '(a, b, c, d, e, f, g, h) := st in
  let '(k, w) := kw in
  let t1 := h + Sigma1 e + Ch e f g + k + w in
  let t2 := Sigma0 a + Maj a b c in
  (w32 (t1 + t2), a, b, c, w32 (d + t1), e, f, g).

Definition compress (st : state) (block : list Z) : state :=
  let w := schedule 48 (rev block) in
  let '(a, b, c, d, e, f, g, h) := fold_left round (combine K256 w) st in
  let '(a0, b0, c0, d0, e0, f0, g0, h0) := st in
  (w32 (a0 + a), w32 (b0 + b), w32 (c0 + c), w32 (d0 + d),
   w32 (e0 + e), w32 (f0 + f), w32 (g0 + g), w32 (h0 + h)).

Definition init : state :=
  (nth 0%nat H0 0, nth 1%nat H0 0, nth 2%nat H0 0, nth 3%nat H0 0,
   nth 4%nat H0 0, nth 5%nat H0 0, nth 6%nat H0 0, nth 7%nat H0 0).

Definition digest_words (msg : list Z) : list Z :=
  let p := pad msg in
  let ws := words (List.length p) p in
  let '(a, b, c, d, e, f, g, h) :=
    fold_left compress (chunks16 (List.length ws) ws) init in
  [a; b; c; d; e; f; g; h].

Definition hex_char (d : Z) : ascii :=
  ascii_of_N (Z.to_N (if d <? 10 then 48 + d else 87 + d)).

(** A 32-bit word as 8 lowercase hexadecimal digits. *)
Definition hex8 (x : Z) : list ascii :=
  map (fun i => hex_char (Z.land (Z.shiftr x (4 * Z.of_nat i)) 15)) (rev (seq 0 8)).

(** [hashlib.sha256(data).hexdigest()] for a byte string. *)
Definition hexdigest_bytes (msg : list Z) : string :=
  string_of_list_ascii (flat_map hex8 (digest_words msg)).

(** [hashlib.sha256(s.encode('utf-8')).hexdigest()]. *)
Definition hexdigest (s : string) : string := hexdigest_bytes (utf8 s).

End SHA256.

(** ** core/merkle.py *)

Module MerkleTree.

(** The object built by [MerkleTree.__init__]: the leaves, the list of
    levels (leaves first) and the root. *)
Record t : Type := mk {
  transactions : list string;
  tree : list (list string);
  root : string
}.

Definition _hash_pair (left_ right_ : string) : string :=
  SHA256.hexdigest (left_ ++ right_).

(** One pass of the inner loop [for i in range(0, len(current_level), 2)]:
    adjacent items are paired, a last item without a partner is paired
    with itself. *)
Fixpoint next_level (current_level : list string) : list string :=
  match current_level with
  | [] => []
  | [left_] => [_hash_pair left_ left_]
  | left_ :: right_ :: rest => _hash_pair left_ right_ :: next_level rest
  end.

(** The loop [while len(current_level) > 1]: the levels appended to
    [self.tree] after [current_level].  The recursion is bounded by
    [fuel]; [_build_tree] passes the number of leaves, which the loop never
    exhausts because every pass at least halves the level. *)
Fixpoint build_levels (fuel : nat) (current_level : list string)
  : list (list string) :=
  match fuel with
  | O => []
  | S fuel' =>
      if (1 <? List.length current_level)%nat then
        let nl := next_level current_level in
        nl :: build_levels fuel' nl
      else []
  end.

(** [_build_tree]: the levels and [current_level[0]] of the last one. *)
Definition _build_tree (txs : list string) : list (list string) * option string :=
  let levels := txs :: build_levels (List.length txs) txs in
  (levels, nth_error (last levels []) 0).

(** [MerkleTree(transactions)]; [None] is the [ValueError] raised for an
    empty list. *)
Definition new (txs : list string) : option t :=
  match txs with
  | [] => None
  | _ =>
      match _build_tree txs with
      | (levels, Some r) => Some (mk txs levels r)
      | (_, None) => None
      end
  end.

Definition get_root (m : t) : string := root m.

(** [list.index]: position of the first occurrence. *)
Fixpoint index (x : string) (l : list string) : option nat :=
  match l with
  | [] => None
  | y :: r =>
      if String.eqb y x then Some O
      else match index x r with Some i => Some (S i) | None => None end
  end.

(** The body of the loop of [get_proof] for one level. *)
Definition sibling (current_level : list string) (current_index : nat)
  : option (string * string) :=
  if Nat.even current_index then
    if (current_index + 1 <? List.length current_level)%nat then
      match nth_error current_level (current_index + 1) with
      | Some s => Some (s, "right")
      | None => None
      end
    else
      match nth_error current_level current_index with
      | Some s => Some (s, "right")
      | None => None
      end
  else
    match nth_error current_level (current_index - 1) with
    | Some s => Some (s, "left")
    | None => None
    end.

(** The loop [for level in range(len(self.tree) - 1)], over the levels it
    visits; [None] is an [IndexError]. *)
Fixpoint proof_path (levels : list (list string)) (current_index : nat)
  : option (list (string * string)) :=
  match levels with
  | [] => Some []
  | current_level :: rest =>
      match sibling current_level current_index with
      | None => None
      | Some step =>
          match proof_path rest (current_index / 2)%nat with
          | Some p => Some (step :: p)
          | None => None
          end
      end
  end.

(** [get_proof]: [Some None] when the hash is not a leaf, [None] for an
    exception. *)
Definition get_proof (m : t) (transaction_hash : string)
  : option (option (list (string * string))) :=
  match index transaction_hash (transactions m) with
  | None => Some None
  | Some i =>
      match proof_path (removelast (tree m)) i with
      | Some p => Some (Some p)
      | None => None
      end
  end.

Definition verify_step (current_hash : string) (step : string * string) : string :=
  let '(sibling_hash, position) := step in
  let combined :=
    if String.eqb position "left" then sibling_hash ++ current_hash
    else current_hash ++ sibling_hash in
  SHA256.hexdigest combined.

Definition verify_proof (transaction_hash merkle_root : string)
  (proof : list (string * string)) : bool :=
  String.eqb (fold_left verify_step proof transaction_hash) merkle_root.

(** The string bound to [combined] in one pass of the loop of
    [verify_proof], which [verify_step] hashes. *)
Definition combined (current_hash : string) (step : string * string) : string :=
  let '(sibling_hash, position) := step in
  if String.eqb position "left" then sibling_hash ++ current_hash
  else current_hash ++ sibling_hash.

(** [get_tree_height]: the number of levels, the leaves included. *)
Definition get_tree_height (m : t) : Z := Z.of_nat (List.length (tree m)).

(** [get_level]; [None] is the [ValueError] raised for a level outside the
    tree. *)
Definition get_level (m : t) (level : Z) : option (list string) :=
  if (level <? 0) || (Z.of_nat (List.length (tree m)) <=? level) then None
  else nth_error (tree m) (Z.to_nat level).

End MerkleTree.

(** [compute_merkle_root]; [None] cannot occur (see [compute_merkle_root_total]). *)
Definition compute_merkle_root (transaction_hashes : list string) : option string :=
  match transaction_hashes with
  | [] => Some (SHA256.hexdigest_bytes [])
  | _ =>
      match MerkleTree.new transaction_hashes with
      | Some m => Some (MerkleTree.get_root m)
      | None => None
      end
  end.

(** ** Python floats (IEEE-754 binary64) *)

Module F.

Definition prec : Z := 53.
Definition emax : Z := 1024.

Definition add : spec_float -> spec_float -> spec_float := SFadd prec emax.
Definition sub : spec_float -> spec_float -> spec_float := SFsub prec emax.
Definition mul : spec_float -> spec_float -> spec_float := SFmul prec emax.
Definition ltb : spec_float -> spec_float -> bool := SFltb.
Definition leb : spec_float -> spec_float -> bool := SFleb.
Definition abs : spec_float -> spec_float := SFabs.

Definition zero : spec_float := S754_zero false.
Definition one : spec_float := S754_finite false 4503599627370496 (-52).
Definition two : spec_float := S754_finite false 4503599627370496 (-51).
(** The literals [50.0], [0.95], [0.0001] and [0.00000001], each the double
    nearest to the decimal. *)
Definition lit_1_5 : spec_float := S754_finite false 6755399441055744 (-52).
Definition fifty : spec_float := S754_finite false 7036874417766400 (-47).
Definition lit_0_95 : spec_float := S754_finite false 8556839292003942 (-53).
Definition lit_1em4 : spec_float := S754_finite false 7378697629483821 (-66).
Definition lit_1em8 : spec_float := S754_finite false 6044629098073146 (-79).

Definition is_zero (x : spec_float) : bool :=
  match x with S754_zero _ => true | _ => false end.

(** [float(n)] for an integer: rounded to nearest even; [None] is the
    [OverflowError] raised when [n] is too large. *)
Definition of_int (n : Z) : option spec_float :=
  match binary_normalize prec emax n 0 false with
  | S754_infinity _ => None
  | x => Some x
  end.

(** [x / y] on floats; [None] is [ZeroDivisionError]. *)
Definition div (x y : spec_float) : option spec_float :=
  if is_zero y then None else Some (SFdiv prec emax x y).

(** [a / b] on integers (true division): the correctly rounded quotient;
    [None] is [ZeroDivisionError] or [OverflowError]. *)
Definition int_truediv (a b : Z) : option spec_float :=
  if b =? 0 then None
  else
    let neg := xorb (a <? 0) (b <? 0) in
    if a =? 0 then Some (S754_zero neg)
    else
      let '(q, e, l) := SFdiv_core_binary prec emax (Z.abs a) 0 (Z.abs b) 0 in
      match binary_round_aux prec emax neg q e l with
      | S754_infinity _ => None
      | x => Some x
      end.

(** [int(x)]: truncation toward zero; [None] is the error raised for an
    infinity or a NaN. *)
Definition to_int (x : spec_float) : option Z :=
  match x with
  | S754_zero _ => Some 0
  | S754_finite s m e =>
      let v := if 0 <=? e then Z.pos m * 2 ^ e else Z.pos m / 2 ^ (- e) in
      Some (if s then - v else v)
  | _ => None
  end.

(** [max(a, b)] of the builtin: [b] only when [b > a]. *)
Definition max (a b : spec_float) : spec_float := if ltb a b then b else a.

Definition eqb (x y : spec_float) : bool :=
  match x, y with
  | S754_zero a, S754_zero b => Bool.eqb a b
  | S754_infinity a, S754_infinity b => Bool.eqb a b
  | S754_nan, S754_nan => true
  | S754_finite a m e, S754_finite b n f => Bool.eqb a b && Pos.eqb m n && Z.eqb e f
  | _, _ => false
  end.

(** The rational value of a finite float. *)
Definition to_Q (x : spec_float) : Q :=
  match x with
  | S754_finite s m e =>
      let n := if s then Z.neg m else Z.pos m in
      if 0 <=? e then inject_Z (n * 2 ^ e) else Qmake n (Z.to_pos (2 ^ (- e)))
  | _ => 0%Q
  end.

Definition is_finite (x : spec_float) : bool :=
  match x with
  | S754_zero _ | S754_finite _ _ _ => true
  | _ => false
  end.

End F.

Definition complex : Type := (spec_float * spec_float)%type.

(** ** External libraries

    What the repository takes from [ecdsa], [hashlib] (RIPEMD-160), [json]
    (the text of a float) and [numpy]/[scipy] is not fixed by its own
    sources; these functions are the fields of an interface. *)

Class Externals : Type := {
  (** [float.__repr__] as [json.dumps] writes a float, with [NaN],
      [Infinity] and [-Infinity] for the special values. *)
  float_repr : spec_float -> string;
  (** [ecdsa]: keys of the curve SECP256k1. *)
  signing_key : Type;
  verifying_key : Type;
  get_verifying_key : signing_key -> verifying_key;
  (** [VerifyingKey.from_string(bytes, curve=SECP256k1)]; [None] when it
      raises. *)
  vk_from_string : list Z -> option verifying_key;
  vk_to_string : verifying_key -> list Z;
  (** [sign_digest(digest, sigencode=sigencode_string)]; the second
      argument is the nonce that the library draws. *)
  sign_digest : signing_key -> Z -> list Z -> list Z;
  (** [verify_digest(signature, digest, sigdecode=sigdecode_string)];
      [None] when it raises (as it does for a signature that fails). *)
  verify_digest : verifying_key -> list Z -> list Z -> option bool;
  (** [hashlib.new('ripemd160', data).digest()]. *)
  ripemd160 : list Z -> list Z;
  (** [numpy]: [np.linspace(start, stop, num)], one entry [x + 1j*y] of the
      grid, [z**2 + c], [np.abs(z)], [np.log(x)] and [r ** 2]. *)
  np_linspace : spec_float -> spec_float -> Z -> list spec_float;
  np_grid_point : spec_float -> spec_float -> complex;
  np_square_add : complex -> complex -> complex;
  np_abs : complex -> spec_float;
  np_log : spec_float -> spec_float;
  np_square : spec_float -> spec_float;
  (** [scipy.stats.linregress(x, y)]: the slope and [r_value]. *)
  linregress : list spec_float -> list spec_float -> spec_float * spec_float
}.

(** ** [json.dumps] *)

Module Json.

#[local] Set Warnings "-register-all".

Inductive value : Type :=
  | JStr (s : string)
  | JInt (n : Z)
  | JFloat (f : spec_float)
  | JNull
  | JObj (items : list (string * value)).

(** The double quote, code point 34. *)
Definition dquote : ascii := "034"%char.

Definition hex4 (n : Z) : string :=
  string_of_list_ascii
    (map (fun i => SHA256.hex_char (Z.land (Z.shiftr n (4 * Z.of_nat i)) 15))
         (rev (seq 0 4))).

(** The escape of one character under [ensure_ascii=True]. *)
Definition escape_char (c : ascii) : string :=
  let n := Z.of_N (N_of_ascii c) in
  if n =? 92 then "\\"
  else if n =? 34 then String "\" (String dquote EmptyString)
  else if n =? 8 then "\b"
  else if n =? 12 then "\f"
  else if n =? 10 then "\n"
  else if n =? 13 then "\r"
  else if n =? 9 then "\t"
  else if (32 <=? n) && (n <=? 126) then String c EmptyString
  else "\u" ++ hex4 n.

Definition quote (s : string) : string :=
  String dquote (String.concat EmptyString (map escape_char (list_ascii_of_string s)))
  ++ String dquote EmptyString.

(** Stable insertion by key, for [sort_keys=True]. *)
Fixpoint insert_item (kv : string * string) (l : list (string * string))
  : list (string * string) :=
  match l with
  | [] => [kv]
  | kv' :: r =>
      if String.ltb (fst kv) (fst kv') then kv :: l
      else kv' :: insert_item kv r
  end.

Definition sort_items (l : list (string * string)) : list (string * string) :=
  fold_right insert_item [] l.

(** *** Dictionaries read back into records *)

(** The dictionary that an object denotes: its items, inserted in order. *)
Definition dict (v : value) : gmap string value :=
  match v with
  | JObj items => fold_left (fun d kv => <[fst kv := snd kv]> d) items ∅
  | _ => ∅
  end.

(** The outcome of a [from_dict].  A missing key raises [KeyError].  The
    dataclasses of the repository store whatever value the dictionary
    holds; the records here are typed, and [OtherType key] reports a
    dictionary that Python reads without error but whose value under [key]
    is not of the type of the field. *)
Inductive read (A : Type) : Type :=
  | Built (x : A)
  | KeyError (key : string)
  | OtherType (key : string).

Arguments Built {A} x.
Arguments KeyError {A} key.
Arguments OtherType {A} key.

Definition bind {A B : Type} (r : read A) (k : A -> read B) : read B :=
  match r with
  | Built x => k x
  | KeyError key => KeyError key
  | OtherType key => OtherType key
  end.

(** [data[key]]. *)
Definition item (data : gmap string value) (key : string) : read value :=
  match data !! key with
  | Some v => Built v
  | None => KeyError key
  end.

(** [data.get(key, fallback)]. *)
Definition get (data : gmap string value) (key : string) (fallback : value) : value :=
  default fallback (data !! key).

Definition str_field (key : string) (v : value) : read string :=
  match v with JStr s => Built s | _ => OtherType key end.

Definition float_field (key : string) (v : value) : read spec_float :=
  match v with JFloat f => Built f | _ => OtherType key end.

Definition int_field (key : string) (v : value) : read Z :=
  match v with JInt n => Built n | _ => OtherType key end.

Section Dumps.
Context `{Externals}.

(** [json.dumps(v, sort_keys=True, separators=(item_sep, key_sep))]. *)
Fixpoint dumps (item_sep key_sep : string) (v : value) : string :=
  match v with
  | JStr s => quote s
  | JInt n => Py.str_of_int n
  | JFloat f => float_repr f
  | JNull => "null"
  | JObj items =>
      let rendered := map (fun kv => (fst kv, dumps item_sep key_sep (snd kv))) items in
      "{" ++ String.concat item_sep
               (map (fun kv => quote (fst kv) ++ key_sep ++ snd kv) (sort_items rendered))
          ++ "}"
  end.

(** The default separators of [json.dumps]. *)
Definition dumps_default (v : value) : string := dumps ", " ": " v.

End Dumps.
End Json.

Declare Scope read_scope.
Delimit Scope read_scope with read.
Notation "'let*' x ':=' e 'in' k" := (Json.bind e (fun x => k))
  (at level 10, x name, e at level 100, k at level 200) : read_scope.

(** ** core/crypto.py *)

Module CryptoUtils.
Section WithExternals.
Context `{Externals}.

Definition sha256 (data : string) : string := SHA256.hexdigest data.

Definition sha256_bytes (data : list Z) : string := SHA256.hexdigest_bytes data.

(** [double_sha256]: the second pass hashes the 32 bytes of the first
    digest, not its hexadecimal text. *)
Definition double_sha256 (data : string) : string :=
  let first_hash :=
    flat_map (SHA256.be_bytes 4) (SHA256.digest_words (SHA256.utf8 data)) in
  SHA256.hexdigest_bytes first_hash.

(** [hash_object]: SHA-256 of the JSON with sorted keys and the compact
    separators [(',', ':')]. *)
Definition hash_object (obj : Json.value) : string :=
  let json_str := Json.dumps "," ":" obj in
  sha256 json_str.

End WithExternals.
End CryptoUtils.

Module Binascii.

Definition hex2 (b : Z) : list ascii :=
  [SHA256.hex_char (Z.land (Z.shiftr b 4) 15); SHA256.hex_char (Z.land b 15)].

(** [binascii.hexlify(bytes).decode('utf-8')]. *)
Definition hexlify (bs : list Z) : string :=
  string_of_list_ascii (flat_map hex2 bs).

Fixpoint unhex (l : list ascii) : option (list Z) :=
  match l with
  | [] => Some []
  | a :: b :: r =>
      match Py.hex_digit_val a, Py.hex_digit_val b, unhex r with
      | Some x, Some y, Some bs => Some (16 * x + y :: bs)
      | _, _, _ => None
      end
  | _ => None
  end.

(** [binascii.unhexlify(s)]; [None] when it raises. *)
Definition unhexlify (s : string) : option (list Z) :=
  unhex (list_ascii_of_string s).

End Binascii.

Module KeyPair.
Section WithExternals.
Context `{Externals}.

(** A key pair object: its private key (the public key is derived). *)
Record t : Type := mk { private_key : signing_key }.

Definition public_key (kp : t) : verifying_key :=
  get_verifying_key (private_key kp).

Definition sha256_digest (message : string) : list Z :=
  flat_map (SHA256.be_bytes 4) (SHA256.digest_words (SHA256.utf8 message)).

Definition address_of (vk : verifying_key) : string :=
  let pubkey_bytes := vk_to_string vk in
  let hash1 := flat_map (SHA256.be_bytes 4) (SHA256.digest_words pubkey_bytes) in
  let hash2 := ripemd160 hash1 in
  Binascii.hexlify hash2.

Definition get_address (kp : t) : string := address_of (public_key kp).

(** [sign]; [nonce] is the randomness used by the library. *)
Definition sign (kp : t) (nonce : Z) (message : string) : string :=
  let message_hash := sha256_digest message in
  let signature := sign_digest (private_key kp) nonce message_hash in
  Binascii.hexlify signature.

Definition export_public_key (kp : t) : string :=
  Binascii.hexlify (vk_to_string (public_key kp)).

(** [verify]: every exception is turned into [False]. *)
Definition verify (message signature address public_key_hex : string) : bool :=
  match Binascii.unhexlify public_key_hex with
  | None => false
  | Some public_key_bytes =>
      match vk_from_string public_key_bytes with
      | None => false
      | Some public_key =>
          let derived_address := address_of public_key in
          if negb (String.eqb derived_address address) then false
          else
            let message_hash := sha256_digest message in
            match Binascii.unhexlify signature with
            | None => false
            | Some signature_bytes =>
                match verify_digest public_key signature_bytes message_hash with
                | Some b => b
                | None => false
                end
            end
      end
  end.

End WithExternals.
End KeyPair.

(** ** core/transaction.py *)

Module Transaction.

Record t : Type := mk {
  sender : string;
  recipient : string;
  amount : spec_float;
  fee : spec_float;
  timestamp : spec_float;
  signature : string;
  public_key : string;
  tx_hash : string
}.

Section WithExternals.
Context `{Externals}.

Definition to_dict (self : t) (include_signature : bool) : Json.value :=
  let data :=
    [("sender", Json.JStr (sender self));
     ("recipient", Json.JStr (recipient self));
     ("amount", Json.JFloat (amount self));
     ("fee", Json.JFloat (fee self));
     ("timestamp", Json.JFloat (timestamp self))] in
  if include_signature then
    Json.JObj (data ++ [("signature", Json.JStr (signature self));
                        ("public_key", Json.JStr (public_key self))])
  else Json.JObj data.

Definition calculate_hash (self : t) : string :=
  let data := to_dict self false in
  CryptoUtils.hash_object data.

(** The dataclass constructor followed by [__post_init__]. *)
Definition init (sender recipient : string) (amount fee timestamp : spec_float)
  (signature public_key tx_hash : string) : t :=
  let self := mk sender recipient amount fee timestamp signature public_key tx_hash in
  if String.eqb tx_hash "" then
    mk sender recipient amount fee timestamp signature public_key (calculate_hash self)
  else self.

(** The string bound to [message] in [sign] and in [verify_signature]:
    [json.dumps(self.to_dict(include_signature=False), sort_keys=True)]. *)
Definition message (self : t) : string :=
  Json.dumps_default (to_dict self false).

Definition sign (self : t) (keypair : KeyPair.t) (nonce : Z) : t :=
  let message := Json.dumps_default (to_dict self false) in
  let signature := KeyPair.sign keypair nonce message in
  let public_key := KeyPair.export_public_key keypair in
  let self := mk (sender self) (recipient self) (amount self) (fee self)
                 (timestamp self) signature public_key (tx_hash self) in
  mk (sender self) (recipient self) (amount self) (fee self)
     (timestamp self) signature public_key (calculate_hash self).

Definition verify_signature (self : t) : bool :=
  if String.eqb (signature self) "" || String.eqb (public_key self) "" then false
  else
    let message := Json.dumps_default (to_dict self false) in
    KeyPair.verify message (signature self) (sender self) (public_key self).

Definition is_valid (self : t) : bool :=
  if F.leb (amount self) F.zero then false
  else if F.ltb (fee self) F.zero then false
  else if String.eqb (sender self) "COINBASE" then true
  else verify_signature self.

(** [create_coinbase]; [now] is the value of [time.time()]. *)
Definition create_coinbase (miner_address : string) (block_reward : spec_float)
  (block_height : Z) (now : spec_float) : t :=
  init "COINBASE" miner_address block_reward F.zero now
       ("coinbase_block_" ++ Py.str_of_int block_height) "" "".

(** [from_dict]: the five required keys are read first, in this order,
    then the three optional ones; the constructor runs [__post_init__]. *)
Definition from_dict (data : gmap string Json.value) : Json.read t :=
  (let* v_sender := Json.item data "sender" in
   let* v_recipient := Json.item data "recipient" in
   let* v_amount := Json.item data "amount" in
   let* v_fee := Json.item data "fee" in
   let* v_timestamp := Json.item data "timestamp" in
   let v_signature := Json.get data "signature" (Json.JStr "") in
   let v_public_key := Json.get data "public_key" (Json.JStr "") in
   let v_tx_hash := Json.get data "tx_hash" (Json.JStr "") in
   let* sender := Json.str_field "sender" v_sender in
   let* recipient := Json.str_field "recipient" v_recipient in
   let* amount := Json.float_field "amount" v_amount in
   let* fee := Json.float_field "fee" v_fee in
   let* timestamp := Json.float_field "timestamp" v_timestamp in
   let* signature := Json.str_field "signature" v_signature in
   let* public_key := Json.str_field "public_key" v_public_key in
   let* tx_hash := Json.str_field "tx_hash" v_tx_hash in
   Json.Built (init sender recipient amount fee timestamp signature public_key tx_hash))%read.

End WithExternals.
End Transaction.

(** ** core/block.py *)

Module FractalProof.

Record t : Type := mk {
  nonce : Z;
  fractal_seed : string;
  solution_point_real : spec_float;
  solution_point_imag : spec_float;
  fractal_dimension : spec_float;
  fractal_data_hash : string;
  timestamp : spec_float
}.

Definition to_dict (self : t) : Json.value :=
  Json.JObj
    [("nonce", Json.JInt (nonce self));
     ("fractal_seed", Json.JStr (fractal_seed self));
     ("solution_point_real", Json.JFloat (solution_point_real self));
     ("solution_point_imag", Json.JFloat (solution_point_imag self));
     ("fractal_dimension", Json.JFloat (fractal_dimension self));
     ("fractal_data_hash", Json.JStr (fractal_data_hash self));
     ("timestamp", Json.JFloat (timestamp self))].

(** [from_dict]: every key is required. *)
Definition from_dict (data : gmap string Json.value) : Json.read t :=
  (let* v_nonce := Json.item data "nonce" in
   let* v_fractal_seed := Json.item data "fractal_seed" in
   let* v_solution_point_real := Json.item data "solution_point_real" in
   let* v_solution_point_imag := Json.item data "solution_point_imag" in
   let* v_fractal_dimension := Json.item data "fractal_dimension" in
   let* v_fractal_data_hash := Json.item data "fractal_data_hash" in
   let* v_timestamp := Json.item data "timestamp" in
   let* nonce := Json.int_field "nonce" v_nonce in
   let* fractal_seed := Json.str_field "fractal_seed" v_fractal_seed in
   let* solution_point_real := Json.float_field "solution_point_real" v_solution_point_real in
   let* solution_point_imag := Json.float_field "solution_point_imag" v_solution_point_imag in
   let* fractal_dimension := Json.float_field "fractal_dimension" v_fractal_dimension in
   let* fractal_data_hash := Json.str_field "fractal_data_hash" v_fractal_data_hash in
   let* timestamp := Json.float_field "timestamp" v_timestamp in
   Json.Built (mk nonce fractal_seed solution_point_real solution_point_imag
                  fractal_dimension fractal_data_hash timestamp))%read.

Definition get_solution_point (self : t) : complex :=
  (solution_point_real self, solution_point_imag self).

End FractalProof.

Module Block.

Record t : Type := mk {
  index : Z;
  timestamp : spec_float;
  transactions : list Transaction.t;
  previous_hash : string;
  miner_address : string;
  fractal_proof : option FractalProof.t;
  merkle_root : string;
  block_hash : string;
  difficulty_target : spec_float;
  header_difficulty_bits : Z
}.

Section WithExternals.
Context `{Externals}.

(** [calculate_merkle_root]; [None] would be an exception of the tree
    constructor, which does not occur (see [calculate_merkle_root_total]). *)
Definition calculate_merkle_root (self : t) : option string :=
  match transactions self with
  | [] => Some (CryptoUtils.sha256 "")
  | _ =>
      let tx_hashes := map Transaction.tx_hash (transactions self) in
      compute_merkle_root tx_hashes
  end.

Definition header_fields (self : t) : list (string * Json.value) :=
  [("index", Json.JInt (index self));
   ("timestamp", Json.JFloat (timestamp self));
   ("previous_hash", Json.JStr (previous_hash self));
   ("merkle_root", Json.JStr (merkle_root self));
   ("miner_address", Json.JStr (miner_address self))].

Definition calculate_header_hash (self : t) : string :=
  let header_data := header_fields self in
  let header_data :=
    match fractal_proof self with
    | Some p => (header_data ++ [("nonce", Json.JInt (FractalProof.nonce p))])%list
    | None => header_data
    end in
  CryptoUtils.hash_object (Json.JObj header_data).

Definition calculate_hash (self : t) : string :=
  let block_data := header_fields self in
  let block_data :=
    match fractal_proof self with
    | Some p => (block_data ++ [("fractal_proof", FractalProof.to_dict p)])%list
    | None => block_data
    end in
  CryptoUtils.hash_object (Json.JObj block_data).

(** The dataclass constructor followed by [__post_init__]: an empty
    [merkle_root] is computed, and so is an empty [block_hash] when a proof
    is given. *)
Definition init (index : Z) (timestamp : spec_float)
  (transactions : list Transaction.t) (previous_hash miner_address : string)
  (fractal_proof : option FractalProof.t) (merkle_root block_hash : string)
  (difficulty_target : spec_float) (header_difficulty_bits : Z) : option t :=
  let self := mk index timestamp transactions previous_hash miner_address
                 fractal_proof merkle_root block_hash difficulty_target
                 header_difficulty_bits in
  match (if String.eqb merkle_root "" then calculate_merkle_root self
         else Some merkle_root) with
  | None => None
  | Some merkle_root =>
      let self := mk index timestamp transactions previous_hash miner_address
                     fractal_proof merkle_root block_hash difficulty_target
                     header_difficulty_bits in
      let block_hash :=
        if String.eqb block_hash ""
           && match fractal_proof with Some _ => true | None => false end
        then calculate_hash self else block_hash in
      Some (mk index timestamp transactions previous_hash miner_address
               fractal_proof merkle_root block_hash difficulty_target
               header_difficulty_bits)
  end.

Definition zeros64 : string := Py.repeat_char "0" 64.

(** The literal [1640000000.0]. *)
Definition genesis_time : spec_float := S754_finite false 6878658560000000 (-22).

Definition create_genesis_block : option t :=
  let genesis_tx :=
    Transaction.init "GENESIS" "GENESIS" F.zero F.zero genesis_time "genesis" "" "" in
  let genesis_block :=
    mk 0 genesis_time [genesis_tx] zeros64 "GENESIS" None "" "" F.lit_1_5 16 in
  match calculate_merkle_root genesis_block with
  | None => None
  | Some mr =>
      (* __post_init__ sets merkle_root; block_hash stays empty without a proof *)
      let genesis_block :=
        mk 0 genesis_time [genesis_tx] zeros64 "GENESIS" None mr "" F.lit_1_5 16 in
      match calculate_merkle_root genesis_block with
      | None => None
      | Some mr' =>
          let genesis_block :=
            mk 0 genesis_time [genesis_tx] zeros64 "GENESIS" None mr' "" F.lit_1_5 16 in
          Some (mk 0 genesis_time [genesis_tx] zeros64 "GENESIS" None mr'
                   (calculate_hash genesis_block) F.lit_1_5 16)
      end
  end.

(** The list comprehension selecting the coinbase transactions. *)
Definition coinbase_txs (self : t) : list Transaction.t :=
  filter (fun tx => String.eqb (Transaction.sender tx) "COINBASE") (transactions self).

(** [is_valid(previous_block)]; [None] would be an exception. *)
Definition is_valid (self : t) (previous_block : option t) : option bool :=
  if index self =? 0 then Some (String.eqb (previous_hash self) zeros64)
  else if match previous_block with
          | Some pb => negb (String.eqb (previous_hash self) (block_hash pb))
          | None => false
          end then Some false
  else if match previous_block with
          | Some pb => negb (index self =? index pb + 1)
          | None => false
          end then Some false
  else
    match calculate_merkle_root self with
    | None => None
    | Some mr =>
        if negb (String.eqb (merkle_root self) mr) then Some false
        else if negb (forallb Transaction.is_valid (transactions self)) then Some false
        else if negb (List.length (coinbase_txs self) =? 1)%nat then Some false
        else if negb (String.eqb (block_hash self) (calculate_hash self)) then Some false
        else Some true
    end.

End WithExternals.
End Block.

(** ** core/blockchain.py *)

Module Blockchain.

(** The in-memory state: the chain, the mempool and the confirmed balances
    (the dictionary [self.balances]). *)
Record t : Type := mk {
  chain : list Block.t;
  pending_transactions : list Transaction.t;
  balances : gmap string spec_float
}.

Section WithExternals.
Context `{Externals}.

(** [get_balance]: the confirmed balance, from which the loop subtracts
    [amount + fee] of each pending transaction of the address, in mempool
    order. *)
Definition get_balance (self : t) (address : string) : spec_float :=
  let balance := default F.zero (balances self !! address) in
  fold_left
    (fun balance tx =>
       if String.eqb (Transaction.sender tx) address
       then F.sub balance (F.add (Transaction.amount tx) (Transaction.fee tx))
       else balance)
    (pending_transactions self) balance.

(** [add_transaction]: the returned flag and the state afterwards. *)
Definition add_transaction (self : t) (transaction : Transaction.t) : bool * t :=
  if negb (Transaction.is_valid transaction) then (false, self)
  else if negb (String.eqb (Transaction.sender transaction) "COINBASE")
          && (let sender_balance := get_balance self (Transaction.sender transaction) in
              let required := F.add (Transaction.amount transaction) (Transaction.fee transaction) in
              F.ltb sender_balance required)
       then (false, self)
  else if existsb (fun tx => String.eqb (Transaction.tx_hash tx) (Transaction.tx_hash transaction))
                  (pending_transactions self)
       then (false, self)
  else (true, mk (chain self) (pending_transactions self ++ [transaction]) (balances self)).

Definition get_chain_length (self : t) : Z := Z.of_nat (List.length (chain self)).

(** The body of [get_block_reward] for a chain of length [height];
    [None] is the [OverflowError] of converting [2 ** halvings]. *)
Definition block_reward_at (height : Z) : option spec_float :=
  let halvings := height / 210000 in
  let initial_reward := F.fifty in
  match F.of_int (2 ^ halvings) with
  | None => None
  | Some d =>
      match F.div initial_reward d with
      | None => None
      | Some reward => Some (F.max reward F.lit_1em8)
      end
  end.

Definition get_block_reward (self : t) : option spec_float :=
  block_reward_at (get_chain_length self).

End WithExternals.

(** [get_latest_block]: [self.chain[-1]], or [None] for an empty chain. *)
Definition get_latest_block (self : t) : option Block.t :=
  match chain self with
  | [] => None
  | _ => nth_error (chain self) (List.length (chain self) - 1)
  end.

(** [get_block_by_hash]: the first block of the chain with this hash. *)
Definition get_block_by_hash (self : t) (block_hash : string) : option Block.t :=
  find (fun block => String.eqb (Block.block_hash block) block_hash) (chain self).

(** [get_block_by_index]: a position outside [0 <= index < len] gives
    [None]; negative positions do not count from the end. *)
Definition get_block_by_index (self : t) (index : Z) : option Block.t :=
  if (0 <=? index) && (index <? Z.of_nat (List.length (chain self)))
  then nth_error (chain self) (Z.to_nat index)
  else None.

(** [get_difficulty]: the fields of the latest block, else the defaults. *)
Definition get_difficulty (self : t) : spec_float * Z :=
  match get_latest_block self with
  | Some latest_block =>
      (Block.difficulty_target latest_block, Block.header_difficulty_bits latest_block)
  | None => (F.lit_1_5, 16)
  end.

(** The body of the loop of [_update_balances] for one transaction: the
    sender is debited unless it is COINBASE or GENESIS, the recipient is
    credited; an address not yet in the dictionary enters it at 0.0. *)
Definition update_balance (balances : gmap string spec_float) (tx : Transaction.t)
  : gmap string spec_float :=
  let sender := Transaction.sender tx in
  let recipient := Transaction.recipient tx in
  let balances :=
    if negb (String.eqb sender "COINBASE") && negb (String.eqb sender "GENESIS") then
      let balances :=
        match balances !! sender with
        | None => <[sender := F.zero]> balances
        | Some _ => balances
        end in
      <[sender := F.sub (default F.zero (balances !! sender))
                        (F.add (Transaction.amount tx) (Transaction.fee tx))]> balances
    else balances in
  let balances :=
    match balances !! recipient with
    | None => <[recipient := F.zero]> balances
    | Some _ => balances
    end in
  <[recipient := F.add (default F.zero (balances !! recipient))
                       (Transaction.amount tx)]> balances.

(** *** The database

    [_update_balances] and [_save_block] write to an SQLite database that
    the running chain does not read back.  The database is a state of its
    own; each of the two writes either completes, with a new state, or
    raises ([None]). *)
Class Database : Type := {
  db : Type;
  (** the rows written by [_update_balances] *)
  save_balances : gmap string spec_float -> db -> option db;
  (** [_save_block] *)
  save_block : Block.t -> db -> option db
}.

Section WithDatabase.
Context `{Externals} `{Database}.

(** How a call that changes the chain ends: it returns a value, or an
    exception leaves it with the chain as it is at that point. *)
Inductive outcome : Type :=
  | Returned (value : bool) (self : t) (d : db)
  | Raised (self : t).

(** [_update_balances]: the loop over the transactions of the block, then
    the write of all balances. *)
Definition _update_balances (self : t) (d : db) (block : Block.t) : t * option db :=
  let balances := fold_left update_balance (Block.transactions block) (balances self) in
  (mk (chain self) (pending_transactions self) balances, save_balances balances d).

(** [add_block]. *)
Definition add_block (self : t) (d : db) (block : Block.t) : outcome :=
  let previous_block :=
    if (0 <? List.length (chain self))%nat then get_latest_block self else None in
  match Block.is_valid block previous_block with
  | None => Raised self
  | Some false => Returned false self d
  | Some true =>
      let self := mk (chain self ++ [block]) (pending_transactions self) (balances self) in
      match _update_balances self d block with
      | (self, None) => Raised self
      | (self, Some d) =>
          match save_block block d with
          | None => Raised self
          | Some d =>
              let tx_hashes : gset string :=
                list_to_set (map Transaction.tx_hash (Block.transactions block)) in
              Returned true
                (mk (chain self)
                    (filter (fun tx => bool_decide (Transaction.tx_hash tx ∉ tx_hashes))
                            (pending_transactions self))
                    (balances self))
                d
          end
      end
  end.

(** The loop of [is_valid_chain] from position [i] on, [previous_block]
    being the block at position [i - 1]. *)
Fixpoint valid_from (previous_block : Block.t) (rest : list Block.t) : option bool :=
  match rest with
  | [] => Some true
  | current_block :: rest' =>
      match Block.is_valid current_block (Some previous_block) with
      | None => None
      | Some false => Some false
      | Some true => valid_from current_block rest'
      end
  end.

(** [is_valid_chain]: the loop starts at position 1. *)
Definition is_valid_chain (self : t) : option bool :=
  match chain self with
  | [] => Some true
  | first :: rest => valid_from first rest
  end.

End WithDatabase.
End Blockchain.

(** ** consensus/fractal_math.py *)

Module FractalConfig.

Record t : Type := mk {
  max_iterations : Z;
  escape_radius : spec_float;
  grid_size : Z;
  box_sizes : list spec_float;
  region_size : spec_float;
  target_dimension : spec_float;
  epsilon : spec_float
}.

(** 2^e for [e <= 0], as a float. *)
Definition pow2 (e : Z) : spec_float := S754_finite false 4503599627370496 (e - 52).

(** The defaults of the dataclass, [box_sizes] as [__post_init__] sets it. *)
Definition default : t :=
  mk 256 F.two 128
     [pow2 0; pow2 (-1); pow2 (-2); pow2 (-3); pow2 (-4); pow2 (-5); pow2 (-6); pow2 (-7)]
     F.two
     F.lit_1_5
     (S754_finite false 4611686018427388 (-62)).

End FractalConfig.

Module JuliaSetGenerator.
Section WithExternals.
Context `{Externals}.

(** [(n / max_val) * 2 - 1] for integers [n] and [max_val]. *)
Definition normalize (n max_val : Z) : option spec_float :=
  match F.int_truediv n max_val with
  | None => None
  | Some q => Some (F.sub (F.mul q F.two) F.one)
  end.

Definition generate_c_from_seed (seed : string) : option complex :=
  let seed := if Py.len seed <? 32 then Py.ljust seed 32 "0" else seed in
  let real_hex := Py.slice seed 0 16 in
  let imag_hex := Py.slice seed 16 32 in
  match Py.int16 real_hex with
  | None => None
  | Some real_int =>
      match Py.int16 imag_hex with
      | None => None
      | Some imag_int =>
          let max_val := 2 ^ 64 in
          match normalize real_int max_val with
          | None => None
          | Some real_part =>
              match normalize imag_int max_val with
              | None => None
              | Some imag_part => Some (real_part, imag_part)
              end
          end
      end
  end.

(** The fate of one grid point in the loop [for i in range(max_iterations)]:
    [Some i] when its modulus first exceeds the escape radius at step [i],
    [None] when it never does in the [n] remaining steps. *)
Fixpoint escape_step (cfg : FractalConfig.t) (c : complex) (n : nat) (i : Z)
  (z : complex) : option Z :=
  match n with
  | O => None
  | S n' =>
      let z' := np_square_add z c in
      if F.ltb (FractalConfig.escape_radius cfg) (np_abs z') then Some i
      else escape_step cfg c n' (i + 1) z'
  end.

(** [compute_julia_set]: the array of iteration counts, row by row. *)
Definition compute_julia_set (cfg : FractalConfig.t) (c center : complex)
  (region_size : option spec_float) : list (list Z) :=
  let region_size := default (FractalConfig.region_size cfg) region_size in
  let grid_size := FractalConfig.grid_size cfg in
  let half_size := SFdiv F.prec F.emax region_size F.two in
  let x := np_linspace (F.sub (fst center) half_size) (F.add (fst center) half_size) grid_size in
  let y := np_linspace (F.sub (snd center) half_size) (F.add (snd center) half_size) grid_size in
  map (fun yi =>
         map (fun xj =>
                match escape_step cfg c (Z.to_nat (FractalConfig.max_iterations cfg)) 0
                                  (np_grid_point xj yi) with
                | Some i => i
                | None => FractalConfig.max_iterations cfg
                end) x) y.

(** [generate_fractal_bitmap]: 1 where the count equals [max_iterations]. *)
Definition generate_fractal_bitmap (cfg : FractalConfig.t) (c center : complex)
  : list (list Z) :=
  let iterations := compute_julia_set cfg c center None in
  map (map (fun it => if it =? FractalConfig.max_iterations cfg then 1 else 0)) iterations.

End WithExternals.
End JuliaSetGenerator.

Module BoxCountingDimension.
Section WithExternals.
Context `{Externals}.

(** [bitmap[row_start:row_end, col_start:col_end]]. *)
Definition region (bitmap : list (list Z)) (row_start row_end col_start col_end : Z)
  : list (list Z) :=
  map (fun row => firstn (Z.to_nat (col_end - col_start)) (skipn (Z.to_nat col_start) row))
      (firstn (Z.to_nat (row_end - row_start)) (skipn (Z.to_nat row_start) bitmap)).

Definition any_positive (a : list (list Z)) : bool :=
  existsb (existsb (fun v => 0 <? v)) a.

Definition range (n : Z) : list Z := map Z.of_nat (seq 0 (Z.to_nat n)).

(** [count_boxes]; [None] is an exception ([ZeroDivisionError], or the
    conversion of an infinity or a NaN to [int]). *)
Definition count_boxes (cfg : FractalConfig.t) (bitmap : list (list Z))
  (box_size : spec_float) : option Z :=
  let grid_size := Z.of_nat (List.length bitmap) in
  let region_size := FractalConfig.region_size cfg in
  match F.div region_size box_size with
  | None => None
  | Some q =>
      match F.to_int q with
      | None => None
      | Some boxes_per_side =>
          let boxes_per_side :=
            if (boxes_per_side <=? 0) || (grid_size <? boxes_per_side)
            then grid_size else boxes_per_side in
          if boxes_per_side =? 0 then None
          else
            let pixels_per_box := grid_size / boxes_per_side in
            if pixels_per_box <=? 0 then
              Some (Z.of_nat (List.length
                      (filter (fun v => 0 <? v) (List.concat bitmap))))
            else
              Some (Z.of_nat (List.length
                (filter
                   (fun ij : Z * Z =>
                      let (i, j) := ij in
                      let row_start := i * pixels_per_box in
                      let row_end := Z.min ((i + 1) * pixels_per_box) grid_size in
                      let col_start := j * pixels_per_box in
                      let col_end := Z.min ((j + 1) * pixels_per_box) grid_size in
                      any_positive (region bitmap row_start row_end col_start col_end))
                   (list_prod (range boxes_per_side) (range boxes_per_side)))))
      end
  end.

(** The loop of [calculate_dimension] over the box sizes: the lists
    [log_scales], [log_counts] and [data_points]. *)
Fixpoint collect (cfg : FractalConfig.t) (bitmap : list (list Z))
  (sizes : list spec_float)
  : option (list spec_float * list spec_float * list (spec_float * Z)) :=
  match sizes with
  | [] => Some ([], [], [])
  | box_size :: rest =>
      match count_boxes cfg bitmap box_size with
      | None => None
      | Some count =>
          let this :=
            if 0 <? count then
              match F.div F.one box_size, F.of_int count with
              | Some inv, Some fc => Some (Some (np_log inv, np_log fc, (box_size, count)))
              | _, _ => None
              end
            else Some None in
          match this, collect cfg bitmap rest with
          | Some (Some (ls, lc, dp)), Some (lss, lcs, dps) =>
              Some (ls :: lss, lc :: lcs, dp :: dps)
          | Some None, Some r => Some r
          | _, _ => None
          end
      end
  end.

(** [calculate_dimension]: (dimension, r_squared, data_points). *)
Definition calculate_dimension (cfg : FractalConfig.t) (bitmap : list (list Z))
  : option (spec_float * spec_float * list (spec_float * Z)) :=
  match collect cfg bitmap (FractalConfig.box_sizes cfg) with
  | None => None
  | Some (log_scales, log_counts, data_points) =>
      if (List.length log_scales <? 2)%nat then Some (F.zero, F.zero, data_points)
      else
        let '(slope, r_value) := linregress log_scales log_counts in
        let dimension := slope in
        let r_squared := np_square r_value in
        Some (dimension, r_squared, data_points)
  end.

End WithExternals.
End BoxCountingDimension.

Module FractalProofOfWork.
Section WithExternals.
Context `{Externals}.

Definition generate_fractal_seed (prev_hash miner_address : string) (nonce : Z) : string :=
  let data := prev_hash ++ miner_address ++ Py.str_of_int nonce in
  SHA256.hexdigest data.

(** [verify_header_hash]; [None] is an exception: [int(header_hash, 16)]
    fails, or [1 << (256 - difficulty_bits)] has a negative shift count. *)
Definition verify_header_hash (header_hash : string) (difficulty_bits : Z) : option bool :=
  match Py.int16 header_hash with
  | None => None
  | Some hash_int =>
      let leading_zeros :=
        if Py.bit_length hash_int =? 256 - difficulty_bits then Some true
        else
          match Py.one_shl (256 - difficulty_bits) with
          | None => None
          | Some bound => Some (hash_int <? bound)
          end in
      match leading_zeros with
      | None => None
      | Some _ =>
          let hex_zeros := difficulty_bits / 4 in
          Some (String.eqb (Py.slice_to header_hash hex_zeros) (Py.repeat_char "0" hex_zeros))
      end
  end.

(** The point read off a seed inside the loop of [_generate_search_points]. *)
Definition search_point (current_seed : string) : option complex :=
  let real_hex := Py.slice current_seed 0 16 in
  let imag_hex := Py.slice current_seed 16 32 in
  match Py.int16 real_hex with
  | None => None
  | Some real_int =>
      match Py.int16 imag_hex with
      | None => None
      | Some imag_int =>
          let max_val := 2 ^ 64 in
          match JuliaSetGenerator.normalize real_int max_val with
          | None => None
          | Some real_part =>
              match JuliaSetGenerator.normalize imag_int max_val with
              | None => None
              | Some imag_part => Some (real_part, imag_part)
              end
          end
      end
  end.

(** The loop [for i in range(count)], with [n] passes left and the loop
    variable at [i]. *)
Fixpoint search_loop (n : nat) (i : Z) (current_seed : string) : option (list complex) :=
  match n with
  | O => Some []
  | S n' =>
      let current_seed := SHA256.hexdigest (current_seed ++ Py.str_of_int i) in
      match search_point current_seed with
      | None => None
      | Some pt =>
          match search_loop n' (i + 1) current_seed with
          | None => None
          | Some points => Some (pt :: points)
          end
      end
  end.

Definition _generate_search_points (seed : string) (count : Z) : option (list complex) :=
  search_loop (Z.to_nat count) 0 seed.

(** The acceptance test shared by the search and the verifier. *)
Definition dimension_match (dimension target_dimension epsilon : spec_float) : bool :=
  F.ltb (F.abs (F.sub dimension target_dimension)) epsilon.

Definition quality_check (r_squared : spec_float) : bool :=
  F.ltb F.lit_0_95 r_squared.

Definition claim_accurate (dimension claimed_dimension : spec_float) : bool :=
  F.ltb (F.abs (F.sub dimension claimed_dimension)) F.lit_1em4.

(** The loop of [find_fractal_solution] over the search points. *)
Fixpoint first_solution (cfg : FractalConfig.t) (c : complex)
  (target_dimension epsilon : spec_float) (search_points : list complex)
  : option (option (complex * spec_float * list (list Z))) :=
  match search_points with
  | [] => Some None
  | center :: rest =>
      let bitmap := JuliaSetGenerator.generate_fractal_bitmap cfg c center in
      match BoxCountingDimension.calculate_dimension cfg bitmap with
      | None => None
      | Some (dimension, r_squared, _) =>
          if dimension_match dimension target_dimension epsilon && quality_check r_squared
          then Some (Some (center, dimension, bitmap))
          else first_solution cfg c target_dimension epsilon rest
      end
  end.

Definition find_fractal_solution (cfg : FractalConfig.t) (seed : string)
  (target_dimension epsilon : option spec_float) (max_attempts : Z)
  : option (option (complex * spec_float * list (list Z))) :=
  let target_dimension := default (FractalConfig.target_dimension cfg) target_dimension in
  let epsilon := default (FractalConfig.epsilon cfg) epsilon in
  match JuliaSetGenerator.generate_c_from_seed seed with
  | None => None
  | Some c =>
      match _generate_search_points seed max_attempts with
      | None => None
      | Some search_points => first_solution cfg c target_dimension epsilon search_points
      end
  end.

(** [verify_solution]; [None] is an exception. *)
Definition verify_solution (cfg : FractalConfig.t) (seed : string)
  (solution_point : complex) (claimed_dimension : spec_float)
  (target_dimension epsilon : option spec_float) : option bool :=
  let target_dimension := default (FractalConfig.target_dimension cfg) target_dimension in
  let epsilon := default (FractalConfig.epsilon cfg) epsilon in
  match JuliaSetGenerator.generate_c_from_seed seed with
  | None => None
  | Some c =>
      let bitmap := JuliaSetGenerator.generate_fractal_bitmap cfg c solution_point in
      match BoxCountingDimension.calculate_dimension cfg bitmap with
      | None => None
      | Some (dimension, r_squared, _) =>
          let dimension_match := dimension_match dimension target_dimension epsilon in
          let quality_check := quality_check r_squared in
          let claim_accurate := claim_accurate dimension claimed_dimension in
          Some (dimension_match && quality_check && claim_accurate)
      end
  end.

End WithExternals.
End FractalProofOfWork.

(** ** consensus/verification.py *)

Module BlockVerifier.
Section WithExternals.
Context `{Externals}.

(** [verify_block] for a verifier configured with [cfg]: the verdict and
    the message; [None] is an exception raised by one of the checks. *)
Definition verify_block (cfg : FractalConfig.t) (block : Block.t)
  (previous_block : option Block.t) : option (bool * string) :=
  match Block.is_valid block previous_block with
  | None => None
  | Some false => Some (false, "Block structure is invalid")
  | Some true =>
      if Block.index block =? 0 then Some (true, "Genesis block verified")
      else
        match Block.fractal_proof block with
        | None => Some (false, "Block missing fractal proof")
        | Some fractal_proof =>
            let header_hash := Block.calculate_header_hash block in
            match FractalProofOfWork.verify_header_hash header_hash
                    (Block.header_difficulty_bits block) with
            | None => None
            | Some false =>
                Some (false, "Header hash does not meet difficulty requirement")
            | Some true =>
                let expected_seed :=
                  FractalProofOfWork.generate_fractal_seed
                    (Block.previous_hash block) (Block.miner_address block)
                    (FractalProof.nonce fractal_proof) in
                if negb (String.eqb expected_seed (FractalProof.fractal_seed fractal_proof))
                then Some (false, "Fractal seed mismatch")
                else
                  let solution_point := FractalProof.get_solution_point fractal_proof in
                  match FractalProofOfWork.verify_solution cfg
                          (FractalProof.fractal_seed fractal_proof) solution_point
                          (FractalProof.fractal_dimension fractal_proof)
                          (Some (Block.difficulty_target block))
                          (Some (FractalConfig.epsilon cfg)) with
                  | None => None
                  | Some false =>
                      Some (false, "Fractal dimension does not match target")
                  | Some true => Some (true, "Block verified")
                  end
            end
        end
  end.

(** [quick_verify]: the header pre-filter alone. *)
Definition quick_verify (block : Block.t) : option bool :=
  if Block.index block =? 0 then Some true
  else
    match Block.fractal_proof block with
    | None => Some false
    | Some _ =>
        let header_hash := Block.calculate_header_hash block in
        FractalProofOfWork.verify_header_hash header_hash
          (Block.header_difficulty_bits block)
    end.

End WithExternals.
End BlockVerifier.

(** ** The hashing and signature functions of the external libraries

    RIPEMD-160 and ECDSA over SECP256k1 are fixed functions; they are
    implemented here, on 32-bit words and on fast integers, so that the
    model runs on real keys and signatures. *)

(** RIPEMD-160 on 32-bit words. *)
Module RIPEMD160.

Definition w32 (x : Z) : Z := x mod 4294967296.
Definition rol (s x : Z) : Z := Z.lor (w32 (Z.shiftl x s)) (Z.shiftr x (32 - s)).
Definition inv (x : Z) : Z := Z.lxor x 4294967295.

Definition f (j : nat) (x y z : Z) : Z :=
  match (j / 16)%nat with
  | 0%nat => Z.lxor (Z.lxor x y) z
  | 1%nat => Z.lor (Z.land x y) (Z.land (inv x) z)
  | 2%nat => Z.lxor (Z.lor x (inv y)) z
  | 3%nat => Z.lor (Z.land x z) (Z.land y (inv z))
  | _ => Z.lxor x (Z.lor y (inv z))
  end.

Definition K (j : nat) : Z :=
  nth (j / 16) [0; 0x5A827999; 0x6ED9EBA1; 0x8F1BBCDC; 0xA953FD4E] 0.
Definition K' (j : nat) : Z :=
  nth (j / 16) [0x50A28BE6; 0x5C4DD124; 0x6D703EF3; 0x7A6D76E9; 0] 0.

Definition r : list nat :=
  [0; 1; 2; 3; 4; 5; 6; 7; 8; 9; 10; 11; 12; 13; 14; 15;
   7; 4; 13; 1; 10; 6; 15; 3; 12; 0; 9; 5; 2; 14; 11; 8;
   3; 10; 14; 4; 9; 15; 8; 1; 2; 7; 0; 6; 13; 11; 5; 12;
   1; 9; 11; 10; 0; 8; 12; 4; 13; 3; 7; 15; 14; 5; 6; 2;
   4; 0; 5; 9; 7; 12; 2; 10; 14; 1; 3; 8; 11; 6; 15; 13]%nat.
Definition r' : list nat :=
  [5; 14; 7; 0; 9; 2; 11; 4; 13; 6; 15; 8; 1; 10; 3; 12;
   6; 11; 3; 7; 0; 13; 5; 10; 14; 15; 8; 12; 4; 9; 1; 2;
   15; 5; 1; 3; 7; 14; 6; 9; 11; 8; 12; 2; 10; 0; 4; 13;
   8; 6; 4; 1; 3; 11; 15; 0; 5; 12; 2; 13; 9; 7; 10; 14;
   12; 15; 10; 4; 1; 5; 8; 7; 6; 2; 13; 14; 0; 3; 9; 11]%nat.
Definition s : list Z :=
  [11; 14; 15; 12; 5; 8; 7; 9; 11; 13; 14; 15; 6; 7; 9; 8;
   7; 6; 8; 13; 11; 9; 7; 15; 7; 12; 15; 9; 11; 7; 13; 12;
   11; 13; 6; 7; 14; 9; 13; 15; 14; 8; 13; 6; 5; 12; 7; 5;
   11; 12; 14; 15; 14; 15; 9; 8; 9; 14; 5; 6; 8; 6; 5; 12;
   9; 15; 5; 11; 6; 8; 13; 12; 5; 12; 13; 14; 11; 8; 5; 6].
Definition s' : list Z :=
  [8; 9; 9; 11; 13; 15; 15; 5; 7; 7; 8; 11; 14; 14; 12; 6;
   9; 13; 15; 7; 12; 8; 9; 11; 7; 7; 12; 7; 6; 15; 13; 11;
   9; 7; 15; 11; 8; 6; 6; 14; 12; 13; 5; 14; 13; 13; 7; 5;
   15; 5; 8; 11; 14; 14; 6; 14; 6; 9; 12; 9; 12; 5; 15; 8;
   8; 5; 12; 9; 12; 5; 14; 6; 8; 13; 6; 5; 15; 13; 11; 11].

Definition state : Type := (Z * Z * Z * Z * Z)%type.

Definition step (x : list Z) (left : bool) (st : state) (j : nat) : state :=
  let '(a, b, c, d, e) := st in
  let t :=
    if left then
      w32 (rol (nth j s 0) (w32 (a + f j b c d + nth (nth j r 0%nat) x 0 + K j)) + e)
    else
      w32 (rol (nth j s' 0) (w32 (a + f (79 - j) b c d + nth (nth j r' 0%nat) x 0 + K' j)) + e) in
  (e, t, b, rol 10 c, d).

Definition compress (h : state) (x : list Z) : state :=
  let '(h0, h1, h2, h3, h4) := h in
  let '(a, b, c, d, e) := fold_left (step x true) (seq 0 80) h in
  let '(a', b', c', d', e') := fold_left (step x false) (seq 0 80) h in
  (w32 (h1 + c + d'), w32 (h2 + d + e'), w32 (h3 + e + a'),
   w32 (h4 + a + b'), w32 (h0 + b + c')).

Definition le_bytes (k : nat) (x : Z) : list Z :=
  map (fun i => Z.land (Z.shiftr x (8 * Z.of_nat i)) 255) (seq 0 k).

Definition pad (msg : list Z) : list Z :=
  let l := Z.of_nat (List.length msg) in
  msg ++ [128] ++ List.repeat 0 (Z.to_nat ((55 - l) mod 64)) ++ le_bytes 8 (8 * l).

Fixpoint le_word (bs : list Z) : Z :=
  match bs with
  | [] => 0
  | b :: rest => b + 256 * le_word rest
  end.

Fixpoint words (k : nat) (bs : list Z) : list Z :=
  match k, bs with
  | S k', _ :: _ => le_word (firstn 4 bs) :: words k' (skipn 4 bs)
  | _, _ => []
  end.

Definition init : state := (0x67452301, 0xEFCDAB89, 0x98BADCFE, 0x10325476, 0xC3D2E1F0).

(** [hashlib.new('ripemd160', msg).digest()]. *)
Definition digest (msg : list Z) : list Z :=
  let p := pad msg in
  let ws := words (List.length p) p in
  let '(h0, h1, h2, h3, h4) :=
    fold_left compress (SHA256.chunks16 (List.length ws) ws) init in
  flat_map (le_bytes 4) [h0; h1; h2; h3; h4].

End RIPEMD160.


(** SECP256k1 in Jacobian coordinates, on fast integers. *)
Module Secp256k1.

Definition p : bigZ :=
  Eval vm_compute in BigZ.of_Z (2 ^ 256 - 2 ^ 32 - 977).
Definition n : bigZ :=
  Eval vm_compute in
    BigZ.of_Z 0xFFFFFFFFFFFFFFFFFFFFFFFFFFFFFFFEBAAEDCE6AF48A03BBFD25E8CD0364141.
Definition Gx : bigZ :=
  Eval vm_compute in
    BigZ.of_Z 0x79BE667EF9DCBBAC55A06295CE870B07029BFCDB2DCE28D959F2815B16F81798.
Definition Gy : bigZ :=
  Eval vm_compute in
    BigZ.of_Z 0x483ADA7726A3C4655DA4FBFC0E1108A8FD17B448A68554199C47D08FFB10D4B8.

#[local] Open Scope bigZ_scope.

Definition fp (x : bigZ) : bigZ := x mod p.

(** [a ^ e mod m] by repeated squaring. *)
Fixpoint pow_mod (a : bigZ) (e : positive) (m : bigZ) : bigZ :=
  match e with
  | xH => a mod m
  | xO e' => let t := pow_mod a e' m in (t * t) mod m
  | xI e' => let t := pow_mod a e' m in ((t * t) mod m * a) mod m
  end.

(** The inverse modulo a prime [m]. *)
Definition inverse_mod (a m : bigZ) : bigZ :=
  pow_mod a (Z.to_pos (BigZ.to_Z m - 2)) m.

Definition contains_point (x y : bigZ) : bool :=
  fp (y * y - (x * x * x + 7)) =? 0.

(** A point (X, Y, Z) stands for (X / Z^2, Y / Z^3); Z = 0 is the point at
    infinity. *)
Definition jacobian : Type := (bigZ * bigZ * bigZ)%type.

Definition infinity : jacobian := (1, 1, 0).

Definition double (P : jacobian) : jacobian :=
  let '(x, y, z) := P in
  if (z =? 0) || (y =? 0) then infinity
  else
    let yy := fp (y * y) in
    let s := fp (4 * x * yy) in
    let m := fp (3 * x * x) in
    let x' := fp (m * m - 2 * s) in
    (x', fp (m * (s - x') - 8 * yy * yy), fp (2 * y * z)).

Definition add (P Q : jacobian) : jacobian :=
  let '(x1, y1, z1) := P in
  let '(x2, y2, z2) := Q in
  if z1 =? 0 then Q
  else if z2 =? 0 then P
  else
    let z1z1 := fp (z1 * z1) in
    let z2z2 := fp (z2 * z2) in
    let u1 := fp (x1 * z2z2) in
    let u2 := fp (x2 * z1z1) in
    let s1 := fp (y1 * z2 * z2z2) in
    let s2 := fp (y2 * z1 * z1z1) in
    if u1 =? u2 then
      if s1 =? s2 then double P else infinity
    else
      let h := fp (u2 - u1) in
      let r := fp (s2 - s1) in
      let hh := fp (h * h) in
      let hhh := fp (h * hh) in
      let v := fp (u1 * hh) in
      let x3 := fp (r * r - hhh - 2 * v) in
      (x3, fp (r * (v - x3) - s1 * hhh), fp (h * z1 * z2)).

Fixpoint mul_pos (k : positive) (P : jacobian) : jacobian :=
  match k with
  | xH => P
  | xO k' => double (mul_pos k' P)
  | xI k' => add (double (mul_pos k' P)) P
  end.

(** [k * P] for an affine point; [None] is the point at infinity. *)
Definition mul (k : bigZ) (P : bigZ * bigZ) : jacobian :=
  match BigZ.to_Z k with
  | Z.pos k' => mul_pos k' (fst P, snd P, 1)
  | _ => infinity
  end.

Definition to_affine (P : jacobian) : option (bigZ * bigZ) :=
  let '(x, y, z) := P in
  if z =? 0 then None
  else
    let zi := inverse_mod z p in
    let zi2 := fp (zi * zi) in
    Some (fp (x * zi2), fp (y * zi2 * zi)).

End Secp256k1.


(** ECDSA over SECP256k1 as the [ecdsa] package computes it, for keys in
    the raw encoding (32 bytes of x followed by 32 bytes of y). *)
Module Ecdsa.

Definition number (bs : list Z) : Z := SHA256.be_word bs 0.

Definition on_curve (x y : Z) : bool :=
  (0 <=? x) && (x <? BigZ.to_Z Secp256k1.p) && (0 <=? y) && (y <? BigZ.to_Z Secp256k1.p)
  && Secp256k1.contains_point (BigZ.of_Z x) (BigZ.of_Z y).

(** [VerifyingKey.from_string]; [None] when it raises. *)
Definition from_string (bs : list Z) : option (Z * Z) :=
  if (List.length bs =? 64)%nat then
    let x := number (firstn 32 bs) in
    let y := number (skipn 32 bs) in
    if on_curve x y then Some (x, y) else None
  else None.

Definition to_string (vk : Z * Z) : list Z :=
  (SHA256.be_bytes 32 (fst vk) ++ SHA256.be_bytes 32 (snd vk))%list.

Definition affine_Z (P : Secp256k1.jacobian) : option (Z * Z) :=
  match Secp256k1.to_affine P with
  | Some (x, y) => Some (BigZ.to_Z x, BigZ.to_Z y)
  | None => None
  end.

Definition order : Z := BigZ.to_Z Secp256k1.n.

Definition inverse (a : Z) : Z :=
  BigZ.to_Z (Secp256k1.inverse_mod (BigZ.of_Z a) Secp256k1.n).

(** The public point of the secret multiplier [d]. *)
Definition public_point (d : Z) : Z * Z :=
  match affine_Z (Secp256k1.mul (BigZ.of_Z d) (Secp256k1.Gx, Secp256k1.Gy)) with
  | Some P => P
  | None => (0, 0)
  end.

(** [sign_digest] with the nonce [k]; the empty signature stands for the
    exception raised when [r] or [s] is zero. *)
Definition sign_digest (d k : Z) (digest : list Z) : list Z :=
  match affine_Z (Secp256k1.mul (BigZ.of_Z k) (Secp256k1.Gx, Secp256k1.Gy)) with
  | None => []
  | Some (x, _) =>
      let r := x mod order in
      let s := (inverse k * ((number digest + d * r) mod order)) mod order in
      if (r =? 0) || (s =? 0) then []
      else (SHA256.be_bytes 32 r ++ SHA256.be_bytes 32 s)%list
  end.

(** [verify_digest]: [Some true], or [None] when it raises, as it does for
    a digest that is too long, a signature of the wrong length and a
    signature that does not verify. *)
Definition verify_digest (vk : Z * Z) (signature digest : list Z) : option bool :=
  if (32 <? List.length digest)%nat then None
  else if negb (List.length signature =? 64)%nat then None
  else
    let r := number (firstn 32 signature) in
    let s := number (skipn 32 signature) in
    if (r <? 1) || (order - 1 <? r) || (s <? 1) || (order - 1 <? s) then None
    else
      let c := inverse s in
      let u1 := (number digest * c) mod order in
      let u2 := (r * c) mod order in
      let xy :=
        Secp256k1.add
          (Secp256k1.mul (BigZ.of_Z u1) (Secp256k1.Gx, Secp256k1.Gy))
          (Secp256k1.mul (BigZ.of_Z u2) (BigZ.of_Z (fst vk), BigZ.of_Z (snd vk))) in
      match affine_Z xy with
      | None => None
      | Some (x, _) => if x mod order =? r then Some true else None
      end.

End Ecdsa.

(** ** An instance of the external libraries

    The theorems below hold for every instance of [Externals].  To run the
    model on concrete inputs, this instance supplies RIPEMD-160 and ECDSA
    as above (keys in the raw encoding only), a text for floats that
    agrees with Python on integral values below 2^53, and simple array
    kernels (an evenly spaced grid, the textbook complex square, the
    1-norm for the modulus, a constant regression). *)

Module Sample.

Definition float_text (x : spec_float) : string :=
  match x with
  | S754_zero s => if s then "-0.0" else "0.0"
  | S754_infinity s => if s then "-Infinity" else "Infinity"
  | S754_nan => "NaN"
  | S754_finite s m e =>
      let sign := if s then "-" else "" in
      if (0 <=? e) && (Z.pos m * 2 ^ e <? 10 ^ 16) then
        sign ++ Py.str_of_int (Z.pos m * 2 ^ e) ++ ".0"
      else if (e <? 0) && (Z.pos m mod 2 ^ (- e) =? 0) && (Z.pos m / 2 ^ (- e) <? 10 ^ 16) then
        sign ++ Py.str_of_int (Z.pos m / 2 ^ (- e)) ++ ".0"
      else sign ++ Py.str_of_int (Z.pos m) ++ "p" ++ Py.str_of_int e
  end.

Definition externals : Externals := {|
  float_repr := float_text;
  signing_key := Z;
  verifying_key := (Z * Z)%type;
  get_verifying_key := Ecdsa.public_point;
  vk_from_string := Ecdsa.from_string;
  vk_to_string := Ecdsa.to_string;
  sign_digest := Ecdsa.sign_digest;
  verify_digest := Ecdsa.verify_digest;
  ripemd160 := RIPEMD160.digest;
  np_linspace := fun start stop num =>
    let step := SFdiv F.prec F.emax (F.sub stop start)
                  (binary_normalize F.prec F.emax (num - 1) 0 false) in
    map (fun i => F.add start (F.mul (binary_normalize F.prec F.emax (Z.of_nat i) 0 false) step))
        (seq 0 (Z.to_nat num));
  np_grid_point := fun x y => (x, y);
  np_square_add := fun z c =>
    (F.add (F.sub (F.mul (fst z) (fst z)) (F.mul (snd z) (snd z))) (fst c),
     F.add (F.add (F.mul (fst z) (snd z)) (F.mul (snd z) (fst z))) (snd c));
  np_abs := fun z => F.add (F.abs (fst z)) (F.abs (snd z));
  np_log := fun x => x;
  np_square := fun r => F.mul r r;
  linregress := fun xs ys => (FractalConfig.target_dimension FractalConfig.default, F.one)
|}.

(** A key pair: the secret multiplier is 12345. *)
Definition keypair : @KeyPair.t externals := @KeyPair.mk externals 12345.

Definition alice : string := @KeyPair.get_address externals keypair.

Definition ten : spec_float := S754_finite false 5629499534213120 (-49).

(** A payment of 10.0 with fee 1.0 from [alice], signed with her key and
    the nonce 67890. *)
Definition payment : Transaction.t :=
  @Transaction.sign externals
    (@Transaction.init externals alice "bob" ten F.one Block.genesis_time "" "" "")
    keypair 67890.

Definition coinbase : Transaction.t :=
  @Transaction.create_coinbase externals "miner" F.fifty 1 Block.genesis_time.

(** Sets [merkle_root] and [block_hash] to the values that [is_valid]
    recomputes. *)
Definition seal (b : Block.t) : Block.t :=
  let mr := default "" (Block.calculate_merkle_root b) in
  let b1 := Block.mk (Block.index b) (Block.timestamp b) (Block.transactions b)
              (Block.previous_hash b) (Block.miner_address b) (Block.fractal_proof b)
              mr "" (Block.difficulty_target b) (Block.header_difficulty_bits b) in
  Block.mk (Block.index b) (Block.timestamp b) (Block.transactions b)
    (Block.previous_hash b) (Block.miner_address b) (Block.fractal_proof b)
    mr (@Block.calculate_hash externals b1) (Block.difficulty_target b)
    (Block.header_difficulty_bits b).

Definition genesis : Block.t :=
  default (Block.mk 0 F.zero [] "" "" None "" "" F.zero 0)
          (@Block.create_genesis_block externals).

(** A block at height 1 whose coinbase is the second transaction. *)
Definition block_coinbase_second : Block.t :=
  seal (Block.mk 1 Block.genesis_time [payment; coinbase]
          (Block.block_hash genesis) "miner" None "" "" F.lit_1_5 16).

(** The same block with the coinbase first, as the miner builds it. *)
Definition block_coinbase_first : Block.t :=
  seal (Block.mk 1 Block.genesis_time [coinbase; payment]
          (Block.block_hash genesis) "miner" None "" "" F.lit_1_5 16).

(** A payment from [alice] whose amount is NaN, signed with her key. *)
Definition nan_payment : Transaction.t :=
  @Transaction.sign externals
    (@Transaction.init externals alice "bob" S754_nan F.one Block.genesis_time "" "" "")
    keypair 67890.

End Sample.

(** ** Predicates used in the statements *)

(** The link to the previous block, when one is given. *)
Definition links_to (b : Block.t) (previous_block : option Block.t) : Prop :=
  match previous_block with
  | Some pb =>
      Block.previous_hash b = Block.block_hash pb /\
      Block.index b = Block.index pb + 1
  | None => True
  end.

Definition links_tob (b : Block.t) (previous_block : option Block.t) : bool :=
  match previous_block with
  | Some pb =>
      String.eqb (Block.previous_hash b) (Block.block_hash pb)
      && (Block.index b =? Block.index pb + 1)
  | None => true
  end.


(** The condition on the coinbase as the specification words it: the
    first transaction is a coinbase and no other transaction is. *)
Definition single_coinbase_first (b : Block.t) : Prop :=
  match Block.transactions b with
  | tx :: rest =>
      Transaction.sender tx = "COINBASE" /\
      Forall (fun tx' => Transaction.sender tx' <> "COINBASE") rest
  | [] => False
  end.

(** The cost [amount + fee] of a transaction. *)
Definition cost (tx : Transaction.t) : spec_float :=
  F.add (Transaction.amount tx) (Transaction.fee tx).

(** The pending transactions sent by [address], in mempool order. *)
Definition pending_outgoing (bc : Blockchain.t) (address : string) : list Transaction.t :=
  filter (fun tx => String.eqb (Transaction.sender tx) address)
         (Blockchain.pending_transactions bc).

(** The mempool after [tx] has been appended. *)
Definition with_pending (bc : Blockchain.t) (tx : Transaction.t) : Blockchain.t :=
  Blockchain.mk (Blockchain.chain bc)
                (Blockchain.pending_transactions bc ++ [tx])
                (Blockchain.balances bc).

(** A chain state for running examples: [alice] holds 50.0 confirmed. *)
Definition sample_chain : Blockchain.t :=
  Blockchain.mk [Sample.genesis] [] (<[Sample.alice := F.fifty]> ∅).

(** The spendable balance read as a difference of two numbers: the
    confirmed balance minus the sum of the costs of the pending
    transactions of the address ([sum] starts from 0). *)
Definition spendable_by_sum (bc : Blockchain.t) (address : string) : spec_float :=
  F.sub (default F.zero (Blockchain.balances bc !! address))
        (fold_left F.add (map cost (pending_outgoing bc address)) F.zero).

(** The floats 0.1, 0.2, 0.3 and 0.6. *)
Definition lit_0_1 : spec_float := S754_finite false 7205759403792794 (-56).
Definition lit_0_2 : spec_float := S754_finite false 7205759403792794 (-55).
Definition lit_0_3 : spec_float := S754_finite false 5404319552844595 (-54).
Definition lit_0_6 : spec_float := S754_finite false 5404319552844595 (-53).

(** A payment of [amount] without fee from [alice], signed with her key. *)
Definition small_payment (amount : spec_float) : Transaction.t :=
  @Transaction.sign Sample.externals
    (@Transaction.init Sample.externals Sample.alice "bob" amount F.zero
       Block.genesis_time "" "" "")
    Sample.keypair 67890.

(** [alice] holds 0.6 confirmed and has sent payments of 0.1 and of 0.2,
    both taken into the mempool by [add_transaction]. *)
Definition two_pending_chain : Blockchain.t :=
  let bc0 := Blockchain.mk [Sample.genesis] [] (<[Sample.alice := lit_0_6]> ∅) in
  let bc1 := snd (@Blockchain.add_transaction Sample.externals bc0 (small_payment lit_0_1)) in
  snd (@Blockchain.add_transaction Sample.externals bc1 (small_payment lit_0_2)).

(** The criterion of the pre-filter read by itself: the first
    [difficulty_bits / 4] characters of the hash are all ['0']. *)
Definition leading_zero_chars (header_hash : string) (difficulty_bits : Z) : bool :=
  forallb (fun c => Ascii.eqb c "0")
          (firstn (Z.to_nat (difficulty_bits / 4)) (list_ascii_of_string header_hash)).



(** A small configuration for running the verifier: a 4 x 4 grid and 8
    iterations, the other fields as in the default. *)
Definition small_config : FractalConfig.t :=
  FractalConfig.mk 8 F.two 4 (FractalConfig.box_sizes FractalConfig.default)
    F.two F.lit_1_5 (FractalConfig.epsilon FractalConfig.default).

(** [x] halved [n] times: divided by 2.0, [n] times over. *)
Fixpoint halved (n : nat) (x : spec_float) : spec_float :=
  match n with
  | O => x
  | S n' => SFdiv F.prec F.emax (halved n' x) F.two
  end.

(** The reward schedule as the specification words it:
    floor(log2(index / 210000)) halvings of 50.0, not below 10^-8. *)
Definition claimed_reward (index : Z) : spec_float :=
  F.max (halved (Z.to_nat (Z.log2 (index / 210000))) F.fifty) F.lit_1em8.

(** The quotient [50.0 / 2 ** n] as the code computes it. *)
Definition fifty_over_pow2 (n : nat) : option spec_float :=
  match F.of_int (2 ^ Z.of_nat n) with
  | Some d => F.div F.fifty d
  | None => None
  end.

(** One more halving of [50.0 / 2 ** n] is [50.0 / 2 ** (n + 1)]. *)
Definition halving_step_ok (n : nat) : bool :=
  match fifty_over_pow2 n, fifty_over_pow2 (S n) with
  | Some a, Some b => F.eqb (SFdiv F.prec F.emax a F.two) b
  | _, _ => false
  end.

(** ** Magnitudes of floats *)

(** 1 when a rounding location records lost bits. *)
Definition inexact (l : location) : Z :=
  match l with loc_Exact => 0 | loc_Inexact _ => 1 end.

(** A float of sign [sx], or a zero, whose magnitude is at most 2^k. *)
Definition le_pow2 (sx : bool) (x : spec_float) (k : Z) : Prop :=
  x = S754_zero sx \/
  exists m e, x = S754_finite sx m e /\ e <= k /\ Z.pos m <= 2 ^ (k - e).

(** A finite float whose value lies in the closed interval [-1, 1]. *)
Definition in_closed_unit_interval (x : spec_float) : Prop :=
  F.is_finite x = true /\ (-1 <= F.to_Q x <= 1)%Q.

(** ** The seeds of the search *)

(** The seed in use after [i] passes of the loop of
    [_generate_search_points]: pass number [j] (counted from 0) hashes the
    previous seed followed by the decimal text of [j]. *)
Fixpoint search_seed (seed : string) (i : nat) : string :=
  match i with
  | O => seed
  | S j => SHA256.hexdigest (search_seed seed j ++ Py.str_of_int (Z.of_nat j))
  end.

(** The chain as the specification words it:
    seed_i = SHA256(seed_(i-1) || decimal(i)). *)
Fixpoint claimed_search_seed (seed : string) (i : nat) : string :=
  match i with
  | O => seed
  | S j => SHA256.hexdigest (claimed_search_seed seed j ++ Py.str_of_int (Z.of_nat (S j)))
  end.

(** A chain state in which no address holds anything. *)
Definition empty_handed_chain : Blockchain.t :=
  Blockchain.mk [Sample.genesis] [] ∅.

(** ** Further predicates *)

(** A byte value. *)
Definition is_byte (b : Z) : Prop := 0 <= b < 256.

(** The transaction with another value in its field [tx_hash]. *)
Definition with_tx_hash (tx : Transaction.t) (h : string) : Transaction.t :=
  Transaction.mk (Transaction.sender tx) (Transaction.recipient tx)
    (Transaction.amount tx) (Transaction.fee tx) (Transaction.timestamp tx)
    (Transaction.signature tx) (Transaction.public_key tx) h.

(** The block with other values in its two difficulty fields. *)
Definition with_difficulty (b : Block.t) (difficulty_target : spec_float)
  (header_difficulty_bits : Z) : Block.t :=
  Block.mk (Block.index b) (Block.timestamp b) (Block.transactions b)
    (Block.previous_hash b) (Block.miner_address b) (Block.fractal_proof b)
    (Block.merkle_root b) (Block.block_hash b) difficulty_target
    header_difficulty_bits.

(** What [calculate_header_hash] reads of a block: five fields, and the
    nonce of the proof when there is one. *)
Definition header_of (b : Block.t)
  : Z * spec_float * string * string * string * option Z :=
  (Block.index b, Block.timestamp b, Block.previous_hash b, Block.merkle_root b,
   Block.miner_address b, option_map FractalProof.nonce (Block.fractal_proof b)).

(** The state that a call of [add_block] leaves behind. *)
Definition state_after `{Blockchain.Database} (o : Blockchain.outcome)
  : Blockchain.t :=
  match o with
  | Blockchain.Returned _ self _ => self
  | Blockchain.Raised self => self
  end.

(** A database that takes every write: it keeps the blocks saved. *)
Definition recording_database : Blockchain.Database := {|
  Blockchain.db := list Block.t;
  Blockchain.save_balances := fun _ d => Some d;
  Blockchain.save_block := fun b d => Some (d ++ [b])%list
|}.

(** A database whose writes all fail. *)
Definition failing_database : Blockchain.Database := {|
  Blockchain.db := unit;
  Blockchain.save_balances := fun _ _ => None;
  Blockchain.save_block := fun _ _ => None
|}.

(** A block of index 0 with the previous hash of a genesis block, whose
    one transaction moves 50.0 from an address without key or funds. *)
Definition unsigned_grant : Transaction.t :=
  Transaction.mk "nobody" "mallory" F.fifty F.zero Block.genesis_time "" "" "".

Definition second_genesis : Block.t :=
  Block.mk 0 Block.genesis_time [unsigned_grant] Block.zeros64 "mallory" None
    "" "" F.lit_1_5 0.

(** A block mined on the genesis block of the examples, with the kernels
    of [Sample.externals] and the small configuration: the seed of nonce
    1, the first solution that the search finds for it, no difficulty
    bits, and an empty [fractal_data_hash] (the miner stores a digest of
    the bitmap there, which nothing reads). *)
Definition mined_seed : string :=
  @FractalProofOfWork.generate_fractal_seed (Block.block_hash Sample.genesis) "miner" 1.

Definition solution_or_origin
  (found : option (option (complex * spec_float * list (list Z))))
  : complex * spec_float :=
  match found with
  | Some (Some (center, dimension, _)) => (center, dimension)
  | _ => ((F.zero, F.zero), F.zero)
  end.

Definition mined_solution : complex * spec_float :=
  solution_or_origin
    (@FractalProofOfWork.find_fractal_solution Sample.externals small_config
       mined_seed (Some F.lit_1_5) (Some (FractalConfig.epsilon small_config)) 3).

Definition mined_proof : FractalProof.t :=
  FractalProof.mk 1 mined_seed (fst (fst mined_solution)) (snd (fst mined_solution))
    (snd mined_solution) "" Block.genesis_time.

Definition mined_block : Block.t :=
  Sample.seal (Block.mk 1 Block.genesis_time [Sample.coinbase]
                 (Block.block_hash Sample.genesis) "miner" (Some mined_proof)
                 "" "" F.lit_1_5 0).

(** A point far from the origin, around which every grid point escapes
    at once. *)
Definition far_point : complex := (F.fifty, F.fifty).

(** * Properties *)

(** ** SHA-256 *)

(** The standard test vectors. *)
Example sha256_empty :
  SHA256.hexdigest "" =
  "e3b0c44298fc1c149afbf4c8996fb92427ae41e4649b934ca495991b7852b855".
Proof. vm_compute. reflexivity. Qed.

Example sha256_abc :
  SHA256.hexdigest "abc" =
  "ba7816bf8f01cfea414140de5dae2223b00361a396177a9cb410ff61f20015ad".
Proof. vm_compute. reflexivity. Qed.

Example sha256_two_blocks :
  SHA256.hexdigest "abcdbcdecdefdefgefghfghighijhijkijkljklmklmnlmnomnopnopq" =
  "248d6a61d20638b8e5c026930c3e6039a33ce45964ff2167f6ecedd419db06c1".
Proof. vm_compute. reflexivity. Qed.


(** ** RIPEMD-160 and ECDSA *)

Example ripemd160_vectors :
  Binascii.hexlify (RIPEMD160.digest (SHA256.utf8 ""))
    = "9c1185a5c5e9fc54612808977ee8f548b2258d31" /\
  Binascii.hexlify (RIPEMD160.digest (SHA256.utf8 "abc"))
    = "8eb208f7e05d987a9b044a8e98c6b087f15a0bfc" /\
  Binascii.hexlify (RIPEMD160.digest (SHA256.utf8 "message digest"))
    = "5d0689ef49d2fae572b881b123a85ffa21595f36" /\
  Binascii.hexlify
    (RIPEMD160.digest (SHA256.utf8 "abcdbcdecdefdefgefghfghighijhijkijkljklmklmnlmnomnopnopq"))
    = "12a053384a9c0c88e405a06c27dcf49ada62eb2b".
Proof. vm_compute. repeat split. Qed.

(** The generator is on the curve, has order [n], and doubles to the
    known point 2G. *)
Example secp256k1_facts :
  Ecdsa.on_curve (BigZ.to_Z Secp256k1.Gx) (BigZ.to_Z Secp256k1.Gy) = true /\
  Ecdsa.affine_Z (Secp256k1.mul Secp256k1.n (Secp256k1.Gx, Secp256k1.Gy)) = None /\
  Ecdsa.public_point 2 =
    (0xC6047F9441ED7D6D3045406E95C07CD85C778E4B8CEF3CA7ABAC09B95C709EE5,
     0x1AE168FEA63DC339A3C58419466CEAEEF7F632653266D0E1236431A950CFE52A) /\
  Ecdsa.public_point (Ecdsa.order - 1) =
    (BigZ.to_Z Secp256k1.Gx, BigZ.to_Z (Secp256k1.p - Secp256k1.Gy)%bigZ).
Proof. vm_compute. repeat split. Qed.

(** A signature verifies on the signed message under the signer's address,
    and on nothing else. *)
Example ecdsa_sign_verify :
  let kp := Sample.keypair in
  let signature := @KeyPair.sign Sample.externals kp 67890 "pay bob" in
  let pk := @KeyPair.export_public_key Sample.externals kp in
  @KeyPair.verify Sample.externals "pay bob" signature Sample.alice pk = true /\
  @KeyPair.verify Sample.externals "pay eve" signature Sample.alice pk = false /\
  @KeyPair.verify Sample.externals "pay bob" signature "bob" pk = false /\
  @KeyPair.verify Sample.externals "pay bob"
     (@KeyPair.sign Sample.externals (@KeyPair.mk Sample.externals 54321) 67890 "pay bob")
     Sample.alice pk = false.
Proof. vm_compute. repeat split. Qed.

(** ** The Merkle tree *)

Section MerkleProofs.
Import MerkleTree.

Lemma pair_ind (P : list string -> Prop) :
  P [] -> (forall x, P [x]) -> (forall x y l, P l -> P (x :: y :: l)) ->
  forall l, P l.
Proof.
  intros H0 H1 H2.
  assert (H : forall l, P l /\ forall x, P (x :: l)).
  { induction l as [|a l [IH1 IH2]]; split; auto. }
  intro l. apply H.
Qed.

Lemma next_level_length (l : list string) :
  (List.length (next_level l) = (List.length l + 1) / 2)%nat.
Proof.
  induction l as [| x | x y l IH] using pair_ind; try reflexivity.
  cbn [next_level List.length]. rewrite IH.
  replace (S (S (List.length l)) + 1)%nat with ((List.length l + 1) + 1 * 2)%nat by lia.
  rewrite Nat.div_add by lia. lia.
Qed.

Lemma next_level_shorter (l : list string) :
  (1 < List.length l)%nat ->
  (0 < List.length (next_level l) < List.length l)%nat.
Proof.
  intros Hl. rewrite next_level_length.
  split.
  - apply Nat.div_str_pos. lia.
  - apply Nat.Div0.div_lt_upper_bound; lia.
Qed.

Lemma half_SS (i : nat) : (S (S i) / 2 = S (i / 2))%nat.
Proof.
  replace (S (S i)) with (i + 1 * 2)%nat by lia.
  rewrite Nat.div_add by lia. lia.
Qed.

(** One level: the sibling chosen by [get_proof] exists, and hashing the
    node with it gives the parent, which sits at half the index. *)
Lemma sibling_parent (l : list string) :
  forall i x, nth_error l i = Some x ->
  exists step, sibling l i = Some step /\
    nth_error (next_level l) (i / 2) = Some (verify_step x step).
Proof.
  induction l as [| a | a b l IH] using pair_ind; intros i x Hx.
  - destruct i; discriminate.
  - destruct i as [|i]; [|destruct i; discriminate].
    injection Hx as <-. exists (a, "right"). split; reflexivity.
  - destruct i as [|[|i]].
    + injection Hx as <-. exists (b, "right"). split; reflexivity.
    + injection Hx as <-. exists (a, "left"). split; reflexivity.
    + cbn [nth_error] in Hx. destruct (IH i x Hx) as (step & Hs & Hn).
      exists step. split.
      * unfold sibling in *. cbn [Nat.even].
        destruct (Nat.even i) eqn:Hev.
        -- replace (S (S i) + 1 <? List.length (a :: b :: l))%nat
             with (i + 1 <? List.length l)%nat.
           2:{ cbn [List.length].
               destruct (Nat.ltb_spec (i + 1) (List.length l));
               destruct (Nat.ltb_spec (S (S i) + 1) (S (S (List.length l)))); lia || reflexivity. }
           exact Hs.
        -- replace (S (S i) - 1)%nat with (S (S (i - 1))).
           ++ exact Hs.
           ++ destruct i; [discriminate | lia].
      * rewrite half_SS. exact Hn.
Qed.

(** All levels: from any node of a level, the path built by [proof_path]
    folds to the single node of the last level. *)
Lemma path_reaches_root (fuel : nat) :
  forall (l : list string) i x,
    (List.length l <= fuel)%nat ->
    nth_error l i = Some x ->
    exists p r,
      proof_path (removelast (l :: build_levels fuel l)) i = Some p /\
      nth_error (last (l :: build_levels fuel l) []) 0 = Some r /\
      fold_left verify_step p x = r.
Proof.
  induction fuel as [|fuel IH]; intros l i x Hlen Hx.
  - destruct l; [destruct i; discriminate | cbn in Hlen; lia].
  - cbn [build_levels].
    destruct (Nat.ltb_spec 1 (List.length l)) as [Hgt | Hle].
    + destruct (sibling_parent l i x Hx) as (step & Hs & Hn).
      destruct (next_level_shorter l Hgt) as [_ Hsh].
      destruct (IH (next_level l) (i / 2)%nat (verify_step x step)) as (p & r & Hp & Hr & Hf);
        [lia | exact Hn |].
      exists (step :: p), r.
      change (removelast (l :: next_level l :: build_levels fuel (next_level l)))
        with (l :: removelast (next_level l :: build_levels fuel (next_level l))).
      change (last (l :: next_level l :: build_levels fuel (next_level l)) [])
        with (last (next_level l :: build_levels fuel (next_level l)) []).
      cbn [proof_path]. rewrite Hs, Hp. auto.
    + destruct l as [|a [|b l]]; [destruct i; discriminate | | cbn in Hle; lia].
      destruct i as [|i]; [|destruct i; discriminate].
      injection Hx as <-. exists [], a. cbn. auto.
Qed.

Lemma index_nth (h : string) (l : list string) :
  In h l -> exists i, index h l = Some i /\ nth_error l i = Some h.
Proof.
  induction l as [|y l IH]; intros Hin; [destruct Hin|].
  cbn [index]. destruct (String.eqb_spec y h) as [-> | Hne].
  - exists O. auto.
  - destruct Hin as [-> | Hin]; [congruence|].
    destruct (IH Hin) as (i & Hi & Hn). rewrite Hi. exists (S i). auto.
Qed.

Lemma compute_merkle_root_total (H : list string) :
  exists r, compute_merkle_root H = Some r.
Proof.
  destruct H as [|a l]; [eexists; reflexivity|].
  destruct (path_reaches_root (List.length (a :: l)) (a :: l) 0 a) as (p & r & _ & Hr & _);
    [lia | reflexivity |].
  exists r. unfold compute_merkle_root, new, _build_tree. rewrite Hr. reflexivity.
Qed.

(** C8. For a non-empty list [H] of hashes and any [h] occurring in it, the
    tree is built, [get_proof] returns a proof, and [verify_proof] accepts
    it against [compute_merkle_root H]; levels of odd width, where the last
    node is paired with itself, are covered. *)
Theorem merkle_proof_verifies (H : list string) (h : string) :
  H <> [] -> In h H ->
  exists m proof r,
    new H = Some m /\
    get_proof m h = Some (Some proof) /\
    compute_merkle_root H = Some r /\
    verify_proof h r proof = true.
Proof.
  intros Hne Hin.
  destruct (index_nth h H Hin) as (i & Hi & Hn).
  destruct (path_reaches_root (List.length H) H i h) as (p & r & Hp & Hr & Hf);
    [lia | exact Hn |].
  destruct H as [|a l]; [congruence|].
  exists (mk (a :: l) ((a :: l) :: build_levels (List.length (a :: l)) (a :: l)) r), p, r.
  repeat split.
  - unfold new, _build_tree. rewrite Hr. reflexivity.
  - unfold get_proof. cbn [transactions tree]. rewrite Hi, Hp. reflexivity.
  - unfold compute_merkle_root, new, _build_tree. rewrite Hr. reflexivity.
  - unfold verify_proof. rewrite Hf. apply String.eqb_refl.
Qed.

End MerkleProofs.

(** The theorem at three leaves (odd width at the first level). *)
Lemma merkle_proof_verifies_witness :
  exists m proof r,
    MerkleTree.new ["tx1"; "tx2"; "tx3"] = Some m /\
    MerkleTree.get_proof m "tx3" = Some (Some proof) /\
    compute_merkle_root ["tx1"; "tx2"; "tx3"] = Some r /\
    MerkleTree.verify_proof "tx3" r proof = true.
Proof.
  apply (merkle_proof_verifies ["tx1"; "tx2"; "tx3"] "tx3").
  - discriminate.
  - simpl. auto.
Defined.

(** ** Floats: the constants against Rocq's primitive binary64 floats *)

Example float_constants :
  Prim2SF 1%float = F.one /\ Prim2SF 2%float = F.two /\
  Prim2SF 50%float = F.fifty /\
  Prim2SF 0x1.e666666666666p-1%float = F.lit_0_95 /\
  Prim2SF 0x1.a36e2eb1c432dp-14%float = F.lit_1em4 /\
  Prim2SF 0x1.5798ee2308c3ap-27%float = F.lit_1em8.
Proof. vm_compute. repeat split. Qed.

(** The decimal literals are the correctly rounded quotients. *)
Example float_literals :
  F.int_truediv 95 100 = Some F.lit_0_95 /\
  F.int_truediv 1 10000 = Some F.lit_1em4 /\
  F.int_truediv 1 100000000 = Some F.lit_1em8 /\
  F.of_int 50 = Some F.fifty /\ F.of_int 1 = Some F.one /\ F.of_int 2 = Some F.two.
Proof. vm_compute. repeat split. Qed.

(** Integer true division agrees with the hardware division on samples. *)
Example int_truediv_samples :
  F.int_truediv 1 3 = Some (Prim2SF (1 / 3)%float) /\
  F.int_truediv (-7) 9 = Some (Prim2SF (-7 / 9)%float) /\
  F.int_truediv 18446744073709551615 18446744073709551616 = Some F.one /\
  F.int_truediv 9007199254740993 1 = Some (Prim2SF 9007199254740992%float) /\
  F.int_truediv 0 (-5) = Some (S754_zero true).
Proof. vm_compute. repeat split. Qed.

(** The formula of the Julia parameter against the hardware arithmetic. *)
Example normalize_samples :
  F.int_truediv 16045690984503098046 (2 ^ 64) = Some (Prim2SF 0xdeadbeefcafebabep-64%float) /\
  F.int_truediv 18446744073709551615 3 = Some (Prim2SF 0x1.5555555555555p62%float) /\
  F.int_truediv 3 (2 ^ 1075) = Some (Prim2SF 0x3p-1075%float) /\
  F.int_truediv (2 ^ 1030) 3 = None /\
  JuliaSetGenerator.normalize 16045690984503098046 (2 ^ 64)
    = Some (Prim2SF (0xdeadbeefcafebabep-64 * 2 - 1)%float) /\
  JuliaSetGenerator.normalize 1 (2 ^ 64) = Some (Prim2SF (0x1p-64 * 2 - 1)%float).
Proof. vm_compute. repeat split. Qed.

Example default_config_literals :
  F.int_truediv 3 2 = Some (FractalConfig.target_dimension FractalConfig.default) /\
  F.int_truediv 1 1000 = Some (FractalConfig.epsilon FractalConfig.default) /\
  map (fun k => F.int_truediv 1 (2 ^ k)) [0; 1; 2; 3; 4; 5; 6; 7]
  = map Some (FractalConfig.box_sizes FractalConfig.default).
Proof. vm_compute. repeat split. Qed.

(** ** Blocks: the genesis case (C10) and the later blocks (C2) *)

Section BlockProofs.
Context `{Externals}.

Lemma zeros64_literal :
  Block.zeros64 = "0000000000000000000000000000000000000000000000000000000000000000".
Proof. reflexivity. Qed.

(** C10. For a block whose index is 0, [is_valid] returns, without raising,
    whether [previous_hash] is the string of 64 zeros; the transactions, the
    Merkle root, the block hash, the fractal proof and the previous block
    play no part, so two index-0 blocks with the same [previous_hash] get
    the same verdict whatever else they hold. *)
Theorem genesis_is_valid_iff (b : Block.t) (previous_block : option Block.t) :
  Block.index b = 0 ->
  (Block.is_valid b previous_block = Some true <->
   Block.previous_hash b =
   "0000000000000000000000000000000000000000000000000000000000000000") /\
  (exists v, Block.is_valid b previous_block = Some v) /\
  (forall b' previous_block',
     Block.index b' = 0 -> Block.previous_hash b' = Block.previous_hash b ->
     Block.is_valid b' previous_block' = Block.is_valid b previous_block).
Proof.
  intros Hi. unfold Block.is_valid. rewrite Hi. cbn [Z.eqb].
  rewrite zeros64_literal. split; [|split].
  - split.
    + intros Hv. injection Hv as Hv. apply String.eqb_eq in Hv. exact Hv.
    + intros ->. reflexivity.
  - eexists. reflexivity.
  - intros b' pb' Hi' Hp. rewrite Hi'. cbn [Z.eqb]. rewrite Hp. reflexivity.
Qed.

Lemma calculate_merkle_root_total (b : Block.t) :
  exists r, Block.calculate_merkle_root b = Some r.
Proof.
  unfold Block.calculate_merkle_root.
  destruct (Block.transactions b); [eexists; reflexivity|].
  apply compute_merkle_root_total.
Qed.

Lemma links_to_reflect (b : Block.t) (previous_block : option Block.t) :
  links_tob b previous_block = true <-> links_to b previous_block.
Proof.
  destruct previous_block as [pb|]; cbn; [|tauto].
  rewrite andb_true_iff, String.eqb_eq, Z.eqb_eq. tauto.
Qed.

(** The verdict on a block of non-zero index as one conjunction. *)
Lemma is_valid_unfold (b : Block.t) (previous_block : option Block.t) (mr : string) :
  Block.index b <> 0 ->
  Block.calculate_merkle_root b = Some mr ->
  Block.is_valid b previous_block =
  Some (links_tob b previous_block
        && String.eqb (Block.merkle_root b) mr
        && forallb Transaction.is_valid (Block.transactions b)
        && (List.length (Block.coinbase_txs b) =? 1)%nat
        && String.eqb (Block.block_hash b) (Block.calculate_hash b)).
Proof.
  intros Hi Hmr. apply Z.eqb_neq in Hi.
  unfold Block.is_valid, links_tob. rewrite Hi, Hmr.
  destruct previous_block as [pb|].
  - destruct (String.eqb (Block.previous_hash b) (Block.block_hash pb));
    destruct (Block.index b =? Block.index pb + 1);
    destruct (String.eqb (Block.merkle_root b) mr);
    destruct (forallb Transaction.is_valid (Block.transactions b));
    destruct (List.length (Block.coinbase_txs b) =? 1)%nat;
    destruct (String.eqb (Block.block_hash b) (Block.calculate_hash b)); reflexivity.
  - destruct (String.eqb (Block.merkle_root b) mr);
    destruct (forallb Transaction.is_valid (Block.transactions b));
    destruct (List.length (Block.coinbase_txs b) =? 1)%nat;
    destruct (String.eqb (Block.block_hash b) (Block.calculate_hash b)); reflexivity.
Qed.

(** C2 (as the code has it). A block of non-zero index is accepted exactly
    when it links to the previous block (if one is given), its Merkle root
    and block hash match their recomputation, every transaction is valid,
    and the number of transactions whose sender is COINBASE is one; no
    coinbase or a second coinbase rejects the block.  Where the coinbase
    stands in the list is not examined.  The call never raises. *)
Theorem block_is_valid_iff (b : Block.t) (previous_block : option Block.t) :
  Block.index b <> 0 ->
  (exists v, Block.is_valid b previous_block = Some v) /\
  (Block.is_valid b previous_block = Some true <->
     links_to b previous_block /\
     Block.calculate_merkle_root b = Some (Block.merkle_root b) /\
     Forall (fun tx => Transaction.is_valid tx = true) (Block.transactions b) /\
     List.length (Block.coinbase_txs b) = 1%nat /\
     Block.block_hash b = Block.calculate_hash b) /\
  (List.length (Block.coinbase_txs b) <> 1%nat ->
     Block.is_valid b previous_block = Some false).
Proof.
  intros Hi.
  destruct (calculate_merkle_root_total b) as [mr Hmr].
  rewrite (is_valid_unfold b previous_block mr Hi Hmr), Hmr.
  split; [eauto|]. split.
  - split.
    + intros Hv. injection Hv as Hv.
      repeat (apply andb_true_iff in Hv; destruct Hv as [Hv ?]).
      repeat split.
      * apply links_to_reflect. assumption.
      * f_equal. symmetry. apply String.eqb_eq. assumption.
      * rewrite Forall_forall, <- forallb_forall. assumption.
      * apply Nat.eqb_eq. assumption.
      * apply String.eqb_eq. assumption.
    + intros (Hl & Hr & Ha & Hc & Hb). f_equal.
      injection Hr as ->.
      apply links_to_reflect in Hl. rewrite Forall_forall, <- forallb_forall in Ha.
      rewrite Hl, Ha, Hc, String.eqb_refl, <- Hb, String.eqb_refl. reflexivity.
  - intros Hc. apply Nat.eqb_neq in Hc. rewrite Hc.
    rewrite andb_false_r. reflexivity.
Qed.

End BlockProofs.

(** The theorem at a block built as the miner builds it. *)
Lemma block_is_valid_iff_witness :
  Block.index Sample.block_coinbase_first <> 0 /\
  exists v, @Block.is_valid Sample.externals Sample.block_coinbase_first
              (Some Sample.genesis) = Some v.
Proof.
  assert (Hi : Block.index Sample.block_coinbase_first <> 0) by (vm_compute; discriminate).
  split; [exact Hi|].
  apply (@block_is_valid_iff Sample.externals Sample.block_coinbase_first
           (Some Sample.genesis) Hi).
Defined.

(** C2 as the specification words it fails: this block of height 1 has its
    only coinbase in second place, behind a payment carrying a valid ECDSA
    signature, and is accepted. *)
Lemma coinbase_second_accepted :
  @Block.is_valid Sample.externals Sample.block_coinbase_second (Some Sample.genesis)
    = Some true /\
  List.length (Block.coinbase_txs Sample.block_coinbase_second) = 1%nat /\
  ~ single_coinbase_first Sample.block_coinbase_second.
Proof.
  split; [vm_compute; reflexivity|]. split; [vm_compute; reflexivity|].
  unfold single_coinbase_first. cbn. intros [Hs _]. vm_compute in Hs. discriminate Hs.
Qed.

Lemma genesis_is_valid_iff_witness :
  Block.index Sample.genesis = 0 /\
  exists v, @Block.is_valid Sample.externals Sample.genesis None = Some v.
Proof.
  assert (Hi : Block.index Sample.genesis = 0) by (vm_compute; reflexivity).
  split; [exact Hi|].
  apply (@genesis_is_valid_iff Sample.externals Sample.genesis None Hi).
Defined.

Example genesis_time_literal : F.of_int 1640000000 = Some Block.genesis_time.
Proof. vm_compute. reflexivity. Qed.

(** ** The mempool (C9) *)

Section MempoolProofs.
Context `{Externals}.

(** [get_balance] is the confirmed balance from which the costs of the
    pending transactions of the address are subtracted one after the other. *)
Lemma get_balance_pending (bc : Blockchain.t) (address : string) :
  Blockchain.get_balance bc address =
  fold_left F.sub (map cost (pending_outgoing bc address))
            (default F.zero (Blockchain.balances bc !! address)).
Proof.
  unfold Blockchain.get_balance, pending_outgoing.
  generalize (default F.zero (Blockchain.balances bc !! address)).
  induction (Blockchain.pending_transactions bc) as [|tx l IH]; intros acc.
  - reflexivity.
  - cbn [fold_left filter].
    destruct (String.eqb (Transaction.sender tx) address); cbn [map fold_left]; apply IH.
Qed.

Lemma existsb_tx_hash (l : list Transaction.t) (h : string) :
  existsb (fun tx => String.eqb (Transaction.tx_hash tx) h) l = true <->
  exists tx, In tx l /\ Transaction.tx_hash tx = h.
Proof.
  rewrite existsb_exists. split; intros (tx & Hin & Heq); exists tx; split; auto.
  - apply String.eqb_eq. exact Heq.
  - apply String.eqb_eq. exact Heq.
Qed.

(** C9. For a transaction whose sender is not COINBASE, [add_transaction]
    returns false and leaves the state as it was when the transaction is
    not valid, when the spendable balance of the sender is below
    [amount + fee], or when a pending transaction has the same [tx_hash];
    in every other case it returns true and the mempool is the old one with
    the transaction appended.  The spendable balance is the confirmed
    balance from which the cost [amount + fee] of each pending transaction
    of the sender is subtracted in turn, in mempool order, every difference
    rounded to a float; the costs are not summed first. *)
Theorem add_transaction_cases (bc : Blockchain.t) (tx : Transaction.t) :
  Transaction.sender tx <> "COINBASE" ->
  let spendable :=
    fold_left F.sub (map cost (pending_outgoing bc (Transaction.sender tx)))
              (default F.zero (Blockchain.balances bc !! Transaction.sender tx)) in
  let rejected :=
    Transaction.is_valid tx = false \/
    F.ltb spendable (cost tx) = true \/
    (exists p, In p (Blockchain.pending_transactions bc) /\
               Transaction.tx_hash p = Transaction.tx_hash tx) in
  (rejected -> Blockchain.add_transaction bc tx = (false, bc)) /\
  (~ rejected -> Blockchain.add_transaction bc tx = (true, with_pending bc tx)).
Proof.
  intros Hs spendable rejected. subst spendable rejected.
  apply String.eqb_neq in Hs.
  unfold Blockchain.add_transaction. rewrite Hs. cbn [negb andb].
  rewrite get_balance_pending. fold (cost tx).
  destruct (Transaction.is_valid tx) eqn:Hv; cbn [negb].
  2:{ split; [reflexivity | intros Hn; exfalso; apply Hn; auto]. }
  destruct (F.ltb _ (cost tx)) eqn:Hb.
  1:{ split; [reflexivity | intros Hn; exfalso; apply Hn; auto]. }
  destruct (existsb _ (Blockchain.pending_transactions bc)) eqn:Hd.
  - split; [reflexivity | intros Hn; exfalso; apply Hn].
    right; right. apply existsb_tx_hash. exact Hd.
  - split; [| reflexivity].
    intros [Hc | [Hc | Hc]]; try discriminate.
    apply existsb_tx_hash in Hc. congruence.
Qed.

End MempoolProofs.

(** The theorem at a signed payment of 10.0 + 1.0 from an account holding
    50.0: it is admitted. *)
Lemma add_transaction_cases_witness :
  Transaction.sender Sample.payment <> "COINBASE" /\
  @Blockchain.add_transaction Sample.externals sample_chain Sample.payment
  = (true, with_pending sample_chain Sample.payment).
Proof.
  assert (Hs : Transaction.sender Sample.payment <> "COINBASE")
    by (vm_compute; discriminate).
  split; [exact Hs|].
  apply (@add_transaction_cases Sample.externals sample_chain Sample.payment Hs).
  vm_compute. intros [Hc | [Hc | (p & [] & _)]]; discriminate Hc.
Defined.

(** Subtracting in turn and subtracting the sum differ.  [alice] holds 0.6
    and has payments of 0.1 and 0.2 pending, both signed and both taken in
    by [add_transaction]; she now sends a signed payment of 0.3.  In floats
    (0.6 - 0.1) - 0.2 is 0.3, and the payment is taken in, while
    0.6 - (0.1 + 0.2) is below 0.3. *)
Lemma subtracting_in_turn_admits :
  Blockchain.pending_transactions two_pending_chain
    = [small_payment lit_0_1; small_payment lit_0_2] /\
  Blockchain.balances two_pending_chain !! Sample.alice = Some lit_0_6 /\
  Transaction.sender (small_payment lit_0_3) = Sample.alice /\
  Sample.alice <> "COINBASE" /\
  cost (small_payment lit_0_3) = lit_0_3 /\
  @Blockchain.get_balance two_pending_chain Sample.alice = lit_0_3 /\
  F.ltb (spendable_by_sum two_pending_chain Sample.alice)
        (cost (small_payment lit_0_3)) = true /\
  @Blockchain.add_transaction Sample.externals two_pending_chain (small_payment lit_0_3)
    = (true, with_pending two_pending_chain (small_payment lit_0_3)).
Proof.
  split; [vm_compute; reflexivity|].
  split; [vm_compute; reflexivity|].
  split; [vm_compute; reflexivity|].
  split; [vm_compute; discriminate|].
  split; [vm_compute; reflexivity|].
  split; [vm_compute; reflexivity|].
  split; [vm_compute; reflexivity|].
  vm_compute. reflexivity.
Qed.

(** ** Strings *)

Lemma append_cons (x : ascii) (a b : string) :
  (String x a ++ b = String x (a ++ b))%string.
Proof. reflexivity. Qed.


Lemma append_length (a b : string) :
  String.length (a ++ b) = (String.length a + String.length b)%nat.
Proof.
  induction a as [|x a IH]; [reflexivity|].
  rewrite append_cons. cbn [String.length]. rewrite IH. reflexivity.
Qed.

(** ** Transactions: hashed and signed bytes (C1) *)

Section TransactionProofs.
Context `{Externals}.




End TransactionProofs.


(** ** Hexadecimal strings and [int(s, 16)] *)

Lemma hex_digit_facts (c : ascii) :
  Py.is_hex_digit c = true ->
  Py.is_space c = false /\ c <> "-"%char /\ c <> "+"%char /\
  Ascii.eqb c "x" = false /\ Ascii.eqb c "X" = false /\
  exists d, Py.hex_digit_val c = Some d /\ 0 <= d < 16.
Proof.
  destruct c as [[] [] [] [] [] [] [] []]; vm_compute; intros Hc;
    try discriminate Hc;
    (repeat split; try discriminate; eexists; repeat split; discriminate).
Qed.

Lemma lstrip_hex (l : list ascii) :
  match l with c :: _ => Py.is_hex_digit c = true | [] => True end ->
  Py.lstrip l = l.
Proof.
  destruct l as [|c r]; [reflexivity|]. intros Hc.
  destruct (hex_digit_facts c Hc) as (Hs & _). cbn [Py.lstrip]. rewrite Hs. reflexivity.
Qed.

Lemma strip_hex (l : list ascii) :
  forallb Py.is_hex_digit l = true -> Py.strip l = l.
Proof.
  intros Hl. unfold Py.strip.
  rewrite (lstrip_hex l).
  2:{ destruct l; [exact I|]. cbn in Hl. apply andb_true_iff in Hl. tauto. }
  rewrite (lstrip_hex (rev l)); [apply rev_involutive|].
  destruct (rev l) as [|c r] eqn:Hr; [exact I|].
  rewrite forallb_forall in Hl. apply Hl. apply in_rev. rewrite Hr. left. reflexivity.
Qed.

(** The value of a list of hexadecimal digits, most significant first. *)
Lemma digits16_hex (l : list ascii) :
  forallb Py.is_hex_digit l = true ->
  forall acc prev, 0 <= acc -> (l <> [] \/ prev = true) ->
  exists v, Py.digits16 l acc prev = Some v /\
            acc * 16 ^ Z.of_nat (List.length l) <= v
              < (acc + 1) * 16 ^ Z.of_nat (List.length l).
Proof.
  induction l as [|c r IH]; intros Hl acc prev Hacc Hne.
  - destruct Hne as [Hne | ->]; [congruence|]. exists acc. cbn. split; [reflexivity | lia].
  - cbn in Hl. apply andb_true_iff in Hl. destruct Hl as [Hc Hr].
    destruct (hex_digit_facts c Hc) as (_ & _ & _ & _ & _ & d & Hd & Hrange).
    cbn [Py.digits16]. rewrite Hd.
    destruct (IH Hr (16 * acc + d) true) as (v & Hv & Hb); [lia | auto |].
    exists v. split; [exact Hv|].
    cbn [List.length]. rewrite Nat2Z.inj_succ, Z.pow_succ_r by lia.
    assert (0 < 16 ^ Z.of_nat (List.length r)) by (apply Z.pow_pos_nonneg; lia).
    nia.
Qed.

Lemma int16_hex (s : string) :
  Py.is_hex s = true -> s <> "" ->
  exists v, Py.int16 s = Some v /\ 0 <= v < 16 ^ Py.len s.
Proof.
  intros Hs Hne. unfold Py.is_hex in Hs. unfold Py.int16.
  rewrite (strip_hex _ Hs).
  assert (Hl : list_ascii_of_string s <> []).
  { destruct s; [congruence | discriminate]. }
  destruct (list_ascii_of_string s) as [|c r] eqn:Hcr; [congruence|].
  pose proof Hs as Hs'. cbn in Hs'. apply andb_true_iff in Hs'. destruct Hs' as [Hc Hr].
  destruct (hex_digit_facts c Hc) as (_ & Hm & Hp & Hx & HX & d & Hd & Hrange).
  assert (Hsign : match c :: r with
                  | "-"%char :: r0 => (true, r0)
                  | "+"%char :: r0 => (false, r0)
                  | _ => (false, c :: r)
                  end = (false, c :: r)).
  { destruct c as [[] [] [] [] [] [] [] []]; try reflexivity; congruence. }
  rewrite Hsign.
  assert (H0x : Py.strip_0x (c :: r) = c :: r).
  { unfold Py.strip_0x. destruct r as [|x r']; [destruct c as [[] [] [] [] [] [] [] []]; reflexivity|].
    cbn in Hr. apply andb_true_iff in Hr. destruct Hr as [Hxd _].
    destruct (hex_digit_facts x Hxd) as (_ & _ & _ & Hx1 & Hx2 & _).
    rewrite Hx1, Hx2. destruct c as [[] [] [] [] [] [] [] []]; reflexivity. }
  rewrite H0x.
  destruct (digits16_hex (c :: r) Hs 0 false) as (v & Hv & Hb); [lia | left; discriminate |].
  rewrite Hv. exists v. split; [reflexivity|].
  unfold Py.len. rewrite <- (string_of_list_ascii_of_string s), Hcr.
  replace (String.length (string_of_list_ascii (c :: r))) with (List.length (c :: r)).
  - lia.
  - clear. generalize (c :: r). intros l. induction l; cbn; congruence.
Qed.

Lemma list_ascii_length (s : string) :
  List.length (list_ascii_of_string s) = String.length s.
Proof. induction s as [|c s IH]; cbn; congruence. Qed.

(** A substring is a [skipn] followed by a [firstn] on the characters. *)
Lemma substring_chars (s : string) :
  forall a n,
    String.substring a n s =
    string_of_list_ascii (firstn n (skipn a (list_ascii_of_string s))).
Proof.
  induction s as [|c s IH]; intros a n.
  - destruct a, n; reflexivity.
  - destruct a as [|a].
    + destruct n as [|n]; [reflexivity|].
      cbn [String.substring list_ascii_of_string skipn firstn string_of_list_ascii].
      rewrite (IH O n). reflexivity.
    + cbn [String.substring list_ascii_of_string skipn]. apply IH.
Qed.

(** [s[a:b]] for bounds inside the string. *)
Lemma slice_chars (s : string) (a b : Z) :
  0 <= a <= b -> b <= Py.len s ->
  Py.slice s a b =
  string_of_list_ascii
    (firstn (Z.to_nat (b - a)) (skipn (Z.to_nat a) (list_ascii_of_string s))).
Proof.
  intros Hab Hb. unfold Py.slice, Py.clip.
  destruct (Z.ltb_spec a 0); [lia|]. destruct (Z.ltb_spec b 0); [lia|].
  rewrite !Z.min_r, !Z.max_r by lia.
  apply substring_chars.
Qed.

Lemma eqb_repeat (c : ascii) (l : list ascii) :
  String.eqb (string_of_list_ascii l) (string_of_list_ascii (List.repeat c (List.length l)))
  = forallb (fun x => Ascii.eqb x c) l.
Proof.
  induction l as [|x l IH]; [reflexivity|].
  cbn [List.length List.repeat string_of_list_ascii String.eqb forallb].
  rewrite IH. destruct (Ascii.eqb x c); reflexivity.
Qed.

(** ** The header pre-filter (C7) *)

(** C7. For a hash of 64 hexadecimal digits and difficulty bits from 0 to
    256, [verify_header_hash] returns without raising, and accepts exactly
    when the first [bits / 4] (integer division) characters of the hash are
    all ['0']; with 15 bits these are the first 3 characters.  The bounds
    on the bits are needed: nothing in the code keeps the field of a
    received block within them. *)
Theorem header_prefilter (header_hash : string) (difficulty_bits : Z) :
  Py.is_hex header_hash = true -> Py.len header_hash = 64 ->
  0 <= difficulty_bits <= 256 ->
  FractalProofOfWork.verify_header_hash header_hash difficulty_bits =
    Some (forallb (fun c => Ascii.eqb c "0")
            (firstn (Z.to_nat (difficulty_bits / 4)) (list_ascii_of_string header_hash))) /\
  FractalProofOfWork.verify_header_hash header_hash 15 =
    Some (forallb (fun c => Ascii.eqb c "0")
            (firstn 3 (list_ascii_of_string header_hash))).
Proof.
  intros Hhex Hlen Hbits.
  assert (Hgen : forall bits, 0 <= bits <= 256 ->
    FractalProofOfWork.verify_header_hash header_hash bits =
    Some (forallb (fun c => Ascii.eqb c "0")
            (firstn (Z.to_nat (bits / 4)) (list_ascii_of_string header_hash)))).
  { intros bits Hb.
    destruct (int16_hex header_hash Hhex) as (v & Hv & _).
    { intros ->. discriminate Hlen. }
    unfold FractalProofOfWork.verify_header_hash. rewrite Hv.
    assert (Hlz : exists lz,
      (if Py.bit_length v =? 256 - bits then Some true
       else match Py.one_shl (256 - bits) with
            | Some bound => Some (v <? bound)
            | None => None
            end) = Some lz).
    { destruct (Py.bit_length v =? 256 - bits); [eauto|].
      unfold Py.one_shl. destruct (Z.ltb_spec (256 - bits) 0); [lia | eauto]. }
    destruct Hlz as [lz ->]. f_equal.
    assert (Hk : 0 <= bits / 4 <= 64).
    { split; [apply Z.div_pos; lia | apply Z.div_le_upper_bound; lia]. }
    unfold Py.slice_to. rewrite slice_chars by lia.
    rewrite Z.sub_0_r. cbn [Z.to_nat skipn].
    unfold Py.repeat_char.
    set (k := Z.to_nat (bits / 4)).
    assert (Hfl : List.length (firstn k (list_ascii_of_string header_hash)) = k).
    { apply firstn_length_le. rewrite list_ascii_length.
      unfold Py.len in Hlen. lia. }
    rewrite <- Hfl at 2. apply eqb_repeat. }
  split; [apply Hgen; exact Hbits|].
  apply (Hgen 15). lia.
Qed.

Lemma header_prefilter_witness :
  FractalProofOfWork.verify_header_hash
    "000a1b2c3d4e5f60718293a4b5c6d7e8f9000a1b2c3d4e5f60718293a4b5c6d7" 15 = Some true.
Proof.
  apply (header_prefilter
           "000a1b2c3d4e5f60718293a4b5c6d7e8f9000a1b2c3d4e5f60718293a4b5c6d7" 15).
  - vm_compute. reflexivity.
  - vm_compute. reflexivity.
  - lia.
Defined.

(** Outside the bounds the criterion and the function part ways.  Every
    character of the hash of 64 zeros is ['0'], so the criterion holds of
    it for any number of bits; with 257 bits the function raises, the shift
    count [256 - 257] being negative, and with -4 bits it compares the
    first 63 characters of the hash with the empty string and rejects. *)
Lemma prefilter_outside_bounds :
  leading_zero_chars Block.zeros64 257 = true /\
  FractalProofOfWork.verify_header_hash Block.zeros64 257 = None /\
  leading_zero_chars Block.zeros64 (-4) = true /\
  FractalProofOfWork.verify_header_hash Block.zeros64 (-4) = Some false.
Proof.
  split; [|split; [|split]]; vm_compute; reflexivity.
Qed.

(** ** The proof verifier (C6) *)

Lemma ltb_irrefl (x : spec_float) : F.ltb x x = false.
Proof.
  unfold F.ltb, SFltb.
  destruct x as [[] | [] | | [] m e]; cbn; try reflexivity;
    rewrite Z.compare_refl, Pos.compare_cont_refl; reflexivity.
Qed.

Section VerifierProofs.
Context `{Externals}.

(** C6. [verify_solution] returns true exactly when [c] is derived from the
    seed, the bitmap is recomputed at the claimed centre, the dimension
    [D] and [R2] are recomputed from it, and the three strict tests hold:
    [|D - target| < epsilon], [R2 > 0.95] and
    [|D - claimed_dimension| < 0.0001], target and epsilon defaulting to
    the configuration.  When [|D - target|] equals epsilon the answer is
    false. *)
Theorem verify_solution_iff (cfg : FractalConfig.t) (seed : string)
  (solution_point : complex) (claimed_dimension : spec_float)
  (target_dimension epsilon : option spec_float) :
  let target := default (FractalConfig.target_dimension cfg) target_dimension in
  let eps := default (FractalConfig.epsilon cfg) epsilon in
  (FractalProofOfWork.verify_solution cfg seed solution_point claimed_dimension
     target_dimension epsilon = Some true <->
   exists c D R2 pts,
     JuliaSetGenerator.generate_c_from_seed seed = Some c /\
     BoxCountingDimension.calculate_dimension cfg
       (JuliaSetGenerator.generate_fractal_bitmap cfg c solution_point) = Some (D, R2, pts) /\
     F.ltb (F.abs (F.sub D target)) eps = true /\
     F.ltb F.lit_0_95 R2 = true /\
     F.ltb (F.abs (F.sub D claimed_dimension)) F.lit_1em4 = true) /\
  (forall c D R2 pts,
     JuliaSetGenerator.generate_c_from_seed seed = Some c ->
     BoxCountingDimension.calculate_dimension cfg
       (JuliaSetGenerator.generate_fractal_bitmap cfg c solution_point) = Some (D, R2, pts) ->
     F.abs (F.sub D target) = eps ->
     FractalProofOfWork.verify_solution cfg seed solution_point claimed_dimension
       target_dimension epsilon = Some false).
Proof.
  intros target eps. unfold FractalProofOfWork.verify_solution.
  fold target eps.
  unfold FractalProofOfWork.dimension_match, FractalProofOfWork.quality_check,
    FractalProofOfWork.claim_accurate.
  split.
  - split.
    + destruct (JuliaSetGenerator.generate_c_from_seed seed) as [c|]; [|discriminate].
      destruct (BoxCountingDimension.calculate_dimension cfg _) as [[[D R2] pts]|] eqn:Hd;
        [|discriminate].
      intros Hv. injection Hv as Hv.
      apply andb_true_iff in Hv. destruct Hv as [Hv H3].
      apply andb_true_iff in Hv. destruct Hv as [H1 H2].
      exists c, D, R2, pts. auto.
    + intros (c & D & R2 & pts & Hc & Hd & H1 & H2 & H3).
      rewrite Hc, Hd, H1, H2, H3. reflexivity.
  - intros c D R2 pts Hc Hd Heq. rewrite Hc, Hd, Heq, ltb_irrefl. reflexivity.
Qed.

End VerifierProofs.

(** The verifier run on the stand-in kernels, with [c = 0] and the centre
    at the origin: the claim 1.5 is accepted, the claim 2.0 is not. *)
Lemma verify_solution_iff_witness :
  @FractalProofOfWork.verify_solution Sample.externals small_config
    "80000000000000008000000000000000" (F.zero, F.zero) F.lit_1_5 None None = Some true /\
  @FractalProofOfWork.verify_solution Sample.externals small_config
    "80000000000000008000000000000000" (F.zero, F.zero) F.two None None = Some false.
Proof.
  split.
  - apply (proj1 (@verify_solution_iff Sample.externals small_config
             "80000000000000008000000000000000" (F.zero, F.zero) F.lit_1_5 None None)).
    exists (F.zero, F.zero). do 3 eexists.
    split; [vm_compute; reflexivity|].
    split; [vm_compute; reflexivity|].
    repeat split; vm_compute; reflexivity.
  - vm_compute. reflexivity.
Defined.

(** ** The block reward (C5) *)

Lemma F_eqb_eq (x y : spec_float) : F.eqb x y = true -> x = y.
Proof.
  destruct x as [a | a | | a m e], y as [b | b | | b n f]; cbn; try discriminate;
    try reflexivity.
  - intros Hb. apply Bool.eqb_prop in Hb. congruence.
  - intros Hb. apply Bool.eqb_prop in Hb. congruence.
  - intros Hb. apply andb_true_iff in Hb. destruct Hb as [Hb He].
    apply andb_true_iff in Hb. destruct Hb as [Hs Hm].
    apply Bool.eqb_prop in Hs. apply Pos.eqb_eq in Hm. apply Z.eqb_eq in He. congruence.
Qed.

Lemma halving_steps_checked :
  forallb halving_step_ok (seq 0 1023) = true.
Proof. vm_compute. reflexivity. Qed.

(** Below 1024 halvings the quotient exists and equals the repeated halving. *)
Lemma fifty_over_pow2_halved (n : nat) :
  (n < 1024)%nat -> fifty_over_pow2 n = Some (halved n F.fifty).
Proof.
  induction n as [|n IH]; intros Hn; [vm_compute; reflexivity|].
  assert (Hstep : halving_step_ok n = true).
  { pose proof halving_steps_checked as Hc. rewrite forallb_forall in Hc.
    apply Hc. apply in_seq. lia. }
  unfold halving_step_ok in Hstep. rewrite IH in Hstep by lia.
  destruct (fifty_over_pow2 (S n)) as [b|]; [|discriminate].
  apply F_eqb_eq in Hstep. cbn [halved]. congruence.
Qed.

(** C5 (as the code has it). For a chain of length [height] with fewer than
    1024 halvings due, the reward is 50.0 halved [height // 210000] times
    and not less than the float 0.00000001; it is returned without an
    exception. *)
Theorem block_reward_halvings (height : Z) :
  0 <= height -> height / 210000 < 1024 ->
  Blockchain.block_reward_at height =
    Some (F.max (halved (Z.to_nat (height / 210000)) F.fifty) F.lit_1em8).
Proof.
  intros H0 Hlt.
  assert (Hh : 0 <= height / 210000) by (apply Z.div_pos; lia).
  pose proof (fifty_over_pow2_halved (Z.to_nat (height / 210000))) as Hq.
  unfold fifty_over_pow2 in Hq. rewrite Z2Nat.id in Hq by exact Hh.
  unfold Blockchain.block_reward_at.
  destruct (F.of_int (2 ^ (height / 210000))) as [d|].
  - rewrite Hq by lia. reflexivity.
  - assert (None = Some (halved (Z.to_nat (height / 210000)) F.fifty)) by (apply Hq; lia).
    discriminate.
Qed.

(** The theorem at the first halving: a chain of 210000 blocks pays 25.0;
    one block fewer pays 50.0. *)
Lemma block_reward_halvings_witness :
  Blockchain.block_reward_at 210000 = Some (S754_finite false 7036874417766400 (-48)) /\
  Blockchain.block_reward_at 209999 = Some F.fifty.
Proof.
  split.
  - rewrite (block_reward_halvings 210000) by (vm_compute; intuition discriminate).
    vm_compute. reflexivity.
  - vm_compute. reflexivity.
Defined.

(** C5 as the specification words it fails: at index 210000 the logarithm
    is 0, so no halving would be due and the reward would still be 50.0,
    while the code pays 25.0. *)
Lemma reward_not_logarithmic :
  claimed_reward 210000 = F.fifty /\
  Blockchain.block_reward_at 210000 = Some (S754_finite false 7036874417766400 (-48)) /\
  Blockchain.block_reward_at 210000 <> Some (claimed_reward 210000).
Proof.
  split; [vm_compute; reflexivity|]. split; [vm_compute; reflexivity|].
  vm_compute. discriminate.
Qed.

(** The floor 0.00000001 is reached at 33 halvings, and at 1024 halvings
    the conversion of [2 ** halvings] to a float overflows. *)
Example reward_floor_and_overflow :
  Blockchain.block_reward_at (32 * 210000) = Some (S754_finite false 7036874417766400 (-79)) /\
  Blockchain.block_reward_at (33 * 210000) = Some F.lit_1em8 /\
  Blockchain.block_reward_at (1024 * 210000) = None.
Proof. vm_compute. repeat split. Qed.

(** ** Rounding in binary64 *)

Lemma digits2_pos_bounds (p : positive) :
  2 ^ (Z.pos (digits2_pos p) - 1) <= Z.pos p < 2 ^ Z.pos (digits2_pos p).
Proof.
  induction p as [p IH | p IH |]; cbn [digits2_pos].
  - rewrite Pos2Z.inj_succ. change (Z.pos p~1) with (2 * Z.pos p + 1).
    replace (Z.succ (Z.pos (digits2_pos p)) - 1) with (Z.succ (Z.pos (digits2_pos p) - 1)) by lia.
    rewrite !Z.pow_succ_r by lia.
    destruct IH as [IH1 IH2]. revert IH1 IH2.
    generalize (2 ^ (Z.pos (digits2_pos p) - 1)) (2 ^ Z.pos (digits2_pos p)). lia.
  - rewrite Pos2Z.inj_succ. change (Z.pos p~0) with (2 * Z.pos p).
    replace (Z.succ (Z.pos (digits2_pos p)) - 1) with (Z.succ (Z.pos (digits2_pos p) - 1)) by lia.
    rewrite !Z.pow_succ_r by lia.
    destruct IH as [IH1 IH2]. revert IH1 IH2.
    generalize (2 ^ (Z.pos (digits2_pos p) - 1)) (2 ^ Z.pos (digits2_pos p)). lia.
  - cbn. lia.
Qed.

(** [iter_pos] is plain iteration. *)
Lemma iter_pos_nat {A : Type} (f : A -> A) (p : positive) (x : A) :
  iter_pos f p x = Nat.iter (Pos.to_nat p) f x.
Proof.
  revert x. induction p as [p IH | p IH |]; intros x; cbn [iter_pos].
  - rewrite !IH, Pos2Nat.inj_xI.
    replace (S (2 * Pos.to_nat p)) with (Pos.to_nat p + Pos.to_nat p + 1)%nat by lia.
    rewrite !Nat.iter_add. reflexivity.
  - rewrite !IH, Pos2Nat.inj_xO.
    replace (2 * Pos.to_nat p)%nat with (Pos.to_nat p + Pos.to_nat p)%nat by lia.
    rewrite Nat.iter_add. reflexivity.
  - reflexivity.
Qed.

Lemma shr_1_spec (mrs : shr_record) :
  0 <= shr_m mrs ->
  shr_m (shr_1 mrs) = shr_m mrs / 2 /\
  shr_r (shr_1 mrs) = Z.odd (shr_m mrs) /\
  shr_s (shr_1 mrs) = shr_r mrs || shr_s mrs.
Proof.
  destruct mrs as [m r s]. cbn [shr_m shr_r shr_s]. intros Hm.
  rewrite <- Z.div2_div.
  destruct m as [|[p|p|]|p]; cbn; try lia; repeat split; reflexivity.
Qed.

(** Shifting a non-negative mantissa right by [n] bits divides it by 2^n,
    and no bit is recorded as lost when none is. *)
Lemma iter_shr_1 (m : Z) (r s : bool) (n : nat) :
  0 <= m ->
  let st := Nat.iter n shr_1 (Build_shr_record m r s) in
  shr_m st = m / 2 ^ Z.of_nat n /\
  (r = false -> s = false -> m mod 2 ^ Z.of_nat n = 0 ->
   shr_r st = false /\ shr_s st = false).
Proof.
  intros Hm. induction n as [|n IH]; cbn zeta.
  - change (Nat.iter 0 shr_1 (Build_shr_record m r s)) with (Build_shr_record m r s).
    cbn [shr_m shr_r shr_s]. rewrite Z.pow_0_r, Z.div_1_r. auto.
  - cbn zeta in IH. destruct IH as [IHm IHf].
    change (Nat.iter (S n) shr_1 (Build_shr_record m r s))
      with (shr_1 (Nat.iter n shr_1 (Build_shr_record m r s))).
    assert (Hpos : 0 < 2 ^ Z.of_nat n) by (apply Z.pow_pos_nonneg; lia).
    assert (Hst : 0 <= shr_m (Nat.iter n shr_1 (Build_shr_record m r s))).
    { rewrite IHm. apply Z.div_pos; lia. }
    destruct (shr_1_spec _ Hst) as (H1 & H2 & H3).
    rewrite H1, H2, H3, IHm.
    rewrite Nat2Z.inj_succ, Z.pow_succ_r by lia.
    split.
    + rewrite Z.div_div by lia. f_equal. lia.
    + intros Hr Hs Hmod.
      apply Z.mod_divide in Hmod; [|lia]. destruct Hmod as [q Hq].
      assert (Hmod' : m mod 2 ^ Z.of_nat n = 0).
      { apply Z.mod_divide; [lia|]. exists (q * 2). lia. }
      destruct (IHf Hr Hs Hmod') as [-> ->]. split; [|reflexivity].
      replace m with (2 * q * 2 ^ Z.of_nat n) by lia.
      rewrite Z.div_mul by lia.
      rewrite Z.odd_mul. reflexivity.
Qed.


Lemma loc_of_record_of_loc (m : Z) (l : location) :
  loc_of_shr_record (shr_record_of_loc m l) = l.
Proof. destruct l as [|[]]; reflexivity. Qed.

Lemma shr_record_of_loc_m (m : Z) (l : location) :
  exists r s, shr_record_of_loc m l = Build_shr_record m r s /\
              (l = loc_Exact -> r = false /\ s = false).
Proof.
  destruct l as [|[]]; cbn; do 2 eexists; (split; [reflexivity|]); auto; discriminate.
Qed.

Lemma rne_bounds (x : Z) (l : location) :
  x <= round_nearest_even x l <= x + inexact l.
Proof.
  destruct l as [|[]]; cbn [round_nearest_even inexact]; try lia.
  destruct (Z.even x); lia.
Qed.

Lemma loc_exact_flags (mrs : shr_record) :
  shr_r mrs = false -> shr_s mrs = false -> loc_of_shr_record mrs = loc_Exact.
Proof. destruct mrs as [m r s]. cbn. intros -> ->. reflexivity. Qed.

Lemma Zdigits2_le (m k : Z) :
  0 <= m -> 0 <= k -> m <= 2 ^ k -> Zdigits2 m <= k + 1.
Proof.
  intros Hm Hk Hle. destruct m as [|p|p]; cbn [Zdigits2]; try lia.
  pose proof (digits2_pos_bounds p) as [Hlo _].
  assert (Hd : Z.pos (digits2_pos p) - 1 <= k); [|lia].
  apply (Z.pow_le_mono_r_iff 2); lia.
Qed.

Lemma fexp64 (x : Z) : fexp 53 1024 x = Z.max (x - 53) (-1074).
Proof. reflexivity. Qed.

(** The first half of rounding: after the shift prescribed by [fexp], a
    value that did not exceed 2^k still does not once rounded. *)
Lemma shr_fexp_bound (m e : Z) (l : location) (k : Z) :
  0 <= m -> e <= k -> -1074 <= k -> m + inexact l <= 2 ^ (k - e) ->
  forall mrs' e', shr_fexp 53 1024 m e l = (mrs', e') ->
    e' <= k /\ 0 <= shr_m mrs' /\
    round_nearest_even (shr_m mrs') (loc_of_shr_record mrs') <= 2 ^ (k - e').
Proof.
  intros Hm Hek Hk Hb mrs' e' Hshr.
  unfold shr_fexp, shr in Hshr. rewrite fexp64 in Hshr.
  assert (Hin : 0 <= inexact l) by (destruct l; cbn; lia).
  assert (Hd : Zdigits2 m <= k - e + 1) by (apply Zdigits2_le; lia).
  destruct (Z.max (Zdigits2 m + e - 53) (-1074) - e) as [|p|p] eqn:Hn.
  - injection Hshr as <- <-. rewrite loc_of_record_of_loc.
    destruct (shr_record_of_loc_m m l) as (r & s & -> & _). cbn [shr_m].
    pose proof (rne_bounds m l). repeat split; lia.
  - injection Hshr as <- <-.
    destruct (shr_record_of_loc_m m l) as (r & s & -> & Hex).
    rewrite iter_pos_nat.
    destruct (iter_shr_1 m r s (Pos.to_nat p) Hm) as [Hsm Hfl].
    rewrite positive_nat_Z in Hsm, Hfl.
    set (st := Nat.iter (Pos.to_nat p) shr_1 (Build_shr_record m r s)) in *.
    assert (Het : e + Z.pos p <= k) by lia.
    assert (Hp2 : 0 < 2 ^ Z.pos p) by (apply Z.pow_pos_nonneg; lia).
    assert (Hsplit : 2 ^ (k - e) = 2 ^ (k - (e + Z.pos p)) * 2 ^ Z.pos p).
    { rewrite <- Z.pow_add_r by lia. f_equal. lia. }
    assert (Hq : 0 < 2 ^ (k - (e + Z.pos p))) by (apply Z.pow_pos_nonneg; lia).
    assert (Hle : shr_m st <= 2 ^ (k - (e + Z.pos p))).
    { rewrite Hsm. apply Z.div_le_upper_bound; [lia|]. rewrite Z.mul_comm, <- Hsplit. lia. }
    split; [exact Het|]. split; [rewrite Hsm; apply Z.div_pos; lia|].
    destruct (Z.eq_dec (shr_m st) (2 ^ (k - (e + Z.pos p)))) as [Heq | Hne].
    + (* the mantissa is the power of two itself: nothing was lost *)
      assert (Hmge : 2 ^ (k - e) <= m).
      { rewrite Hsplit, <- Heq, Hsm, Z.mul_comm. apply Z.mul_div_le. lia. }
      assert (Hm2 : m = 2 ^ (k - e)) by lia.
      assert (Hl : l = loc_Exact) by (destruct l; [reflexivity | cbn in Hb; lia]).
      destruct (Hex Hl) as [-> ->].
      destruct Hfl as [Hr Hs]; [reflexivity | reflexivity | |].
      { rewrite Hm2, Hsplit. apply Z.mod_mul. lia. }
      rewrite (loc_exact_flags st Hr Hs). cbn [round_nearest_even]. lia.
    + pose proof (rne_bounds (shr_m st) (loc_of_shr_record st)) as [_ Hup].
      assert (inexact (loc_of_shr_record st) <= 1) by (destruct (loc_of_shr_record st); cbn; lia).
      lia.
  - injection Hshr as <- <-. rewrite loc_of_record_of_loc.
    destruct (shr_record_of_loc_m m l) as (r & s & -> & _). cbn [shr_m].
    pose proof (rne_bounds m l). repeat split; lia.
Qed.


(** Rounding does not step over a power of two. *)
Lemma binary_round_aux_bound (sx : bool) (mx ex : Z) (lx : location) (k : Z) :
  0 <= mx -> ex <= k -> -1074 <= k <= 971 ->
  mx + inexact lx <= 2 ^ (k - ex) ->
  le_pow2 sx (binary_round_aux 53 1024 sx mx ex lx) k.
Proof.
  intros Hm He Hk Hb. unfold binary_round_aux.
  destruct (shr_fexp 53 1024 mx ex lx) as [mrs' e'] eqn:H1.
  destruct (shr_fexp_bound mx ex lx k Hm He (proj1 Hk) Hb mrs' e' H1) as (He' & Hm' & Hr).
  set (m2 := round_nearest_even (shr_m mrs') (loc_of_shr_record mrs')) in *.
  assert (Hm2 : 0 <= m2).
  { pose proof (rne_bounds (shr_m mrs') (loc_of_shr_record mrs')). subst m2. lia. }
  destruct (shr_fexp 53 1024 m2 e' loc_Exact) as [mrs'' e''] eqn:H2.
  destruct (shr_fexp_bound m2 e' loc_Exact k Hm2 He' (proj1 Hk)) with (mrs' := mrs'') (e' := e'')
    as (He'' & Hm'' & Hr''); [cbn [inexact]; lia | exact H2 |].
  pose proof (rne_bounds (shr_m mrs'') (loc_of_shr_record mrs'')) as [Hlow _].
  destruct (shr_m mrs'') as [|m|m] eqn:Hsm.
  - left. reflexivity.
  - right. destruct (Z.leb_spec e'' (1024 - 53)) as [_ | Hbad]; [|lia].
    exists m, e''. repeat split; lia.
  - lia.
Qed.

Lemma pos_iter_xO (m d : positive) :
  Z.pos (Pos.iter xO m d) = Z.pos m * 2 ^ Z.pos d.
Proof.
  induction d as [|d IH] using Pos.peano_ind.
  - change (Pos.iter xO m 1) with (m~0)%positive. lia.
  - rewrite Pos.iter_succ, Pos2Z.inj_succ, Z.pow_succ_r by lia.
    change (Z.pos (Pos.iter xO m d)~0) with (2 * Z.pos (Pos.iter xO m d)).
    rewrite IH. lia.
Qed.

(** Aligning to a smaller exponent keeps the value. *)
Lemma shl_align_spec (mx : positive) (ex ex' : Z) :
  exists d, 0 <= d /\ snd (shl_align mx ex ex') = ex - d /\
            Z.pos (fst (shl_align mx ex ex')) = Z.pos mx * 2 ^ d /\
            (ex' <= ex -> d = ex - ex').
Proof.
  unfold shl_align. destruct (ex' - ex) as [|d|d] eqn:Hd; cbn [fst snd].
  - exists 0. rewrite Z.pow_0_r. repeat split; lia.
  - exists 0. rewrite Z.pow_0_r. repeat split; lia.
  - exists (Z.pos d). rewrite pos_iter_xO. repeat split; lia.
Qed.

Lemma binary_round_bound (sx : bool) (mx : positive) (ex k : Z) :
  ex <= k -> -1074 <= k <= 971 -> Z.pos mx <= 2 ^ (k - ex) ->
  le_pow2 sx (binary_round 53 1024 sx mx ex) k.
Proof.
  intros He Hk Hb. unfold binary_round.
  destruct (shl_align_spec mx ex (fexp 53 1024 (Z.pos (digits2_pos mx) + ex)))
    as (d & Hd & Hs & Hf & _).
  destruct (shl_align mx ex (fexp 53 1024 (Z.pos (digits2_pos mx) + ex))) as [mz ez].
  cbn [fst snd] in Hs, Hf. subst ez.
  apply binary_round_aux_bound; try lia.
  cbn [inexact]. rewrite Hf, Z.add_0_r.
  replace (k - (ex - d)) with (k - ex + d) by lia.
  rewrite Z.pow_add_r by lia.
  apply Z.mul_le_mono_nonneg_r; [apply Z.pow_nonneg; lia | exact Hb].
Qed.


Lemma binary_normalize_bound (m e k : Z) (szero : bool) :
  e <= k -> -1074 <= k <= 971 -> Z.abs m <= 2 ^ (k - e) ->
  exists s, le_pow2 s (binary_normalize 53 1024 m e szero) k.
Proof.
  intros He Hk Hb. destruct m as [|p|p]; cbn [binary_normalize].
  - exists szero. left. reflexivity.
  - exists false. apply binary_round_bound; auto.
  - exists true. apply binary_round_bound; auto.
Qed.

(** A proper fraction divides to a float between 0 and 1. *)
Lemma int_truediv_fraction (a b : Z) :
  0 <= a < b ->
  exists x, F.int_truediv a b = Some x /\ le_pow2 false x 0.
Proof.
  intros Hab. unfold F.int_truediv.
  destruct (Z.eqb_spec b 0) as [|_]; [lia|].
  destruct (Z.ltb_spec a 0) as [|_]; [lia|].
  destruct (Z.ltb_spec b 0) as [|_]; [lia|]. cbn [xorb].
  destruct (Z.eqb_spec a 0) as [Ha | Ha].
  - eexists. split; [reflexivity|]. left. reflexivity.
  - rewrite !Z.abs_eq by lia.
    destruct (SFdiv_core_binary F.prec F.emax a 0 b 0) as [[q e] l] eqn:Hcore.
    unfold SFdiv_core_binary in Hcore.
    set (e' := Z.min (fexp F.prec F.emax (Zdigits2 a + 0 - (Zdigits2 b + 0))) (0 - 0)) in Hcore.
    assert (He' : e' <= 0) by (subst e'; lia).
    set (m' := match 0 - 0 - e' with
               | 0 => a | Z.pos _ => Z.shiftl a (0 - 0 - e') | Z.neg _ => 0
               end) in Hcore.
    assert (Hm' : m' = a * 2 ^ (- e')).
    { subst m'. destruct (0 - 0 - e') as [|p|p] eqn:Hs.
      - replace (- e') with 0 by lia. rewrite Z.pow_0_r. lia.
      - rewrite Z.shiftl_mul_pow2 by lia. f_equal. f_equal. lia.
      - lia. }
    pose proof (Z_div_mod m' b ltac:(lia)) as Hdm.
    destruct (Z.div_eucl m' b) as [q' r] eqn:Hde.
    injection Hcore as <- <- <-.
    destruct Hdm as [Hdm Hr].
    assert (Hp : 0 < 2 ^ (- e')) by (apply Z.pow_pos_nonneg; lia).
    assert (Hq : 0 <= q' /\ q' + 1 <= 2 ^ (- e')) by nia.
    assert (Hbound : le_pow2 false (binary_round_aux F.prec F.emax false q' e' (new_location b r)) 0).
    { apply binary_round_aux_bound; try lia.
      replace (0 - e') with (- e') by lia.
      assert (inexact (new_location b r) <= 1) by (destruct (new_location b r); cbn; lia).
      lia. }
    destruct Hbound as [Hz | (m & ex & Hf & Hb)].
    + rewrite Hz. eexists. split; [reflexivity|]. left. reflexivity.
    + rewrite Hf. eexists. split; [reflexivity|]. right. exists m, ex. auto.
Qed.

Lemma mul_two_bound (x : spec_float) :
  le_pow2 false x 0 -> le_pow2 false (F.mul x F.two) 1.
Proof.
  intros [-> | (m & e & -> & He & Hm)].
  - left. reflexivity.
  - unfold F.mul, F.two, SFmul. cbn [xorb].
    apply binary_round_aux_bound; try lia.
    cbn [inexact]. rewrite Z.add_0_r, Pos2Z.inj_mul.
    replace (1 - (e + -51)) with (52 + (0 - e)) by lia.
    rewrite Z.pow_add_r by lia.
    change (Z.pos 4503599627370496) with (2 ^ 52).
    rewrite (Z.mul_comm (2 ^ 52)).
    apply Z.mul_le_mono_nonneg_r; lia.
Qed.

Lemma sub_one_bound (x : spec_float) :
  le_pow2 false x 1 -> exists s, le_pow2 s (F.sub x F.one) 0.
Proof.
  intros [-> | (m & e & -> & He & Hm)].
  - exists true. right. exists 4503599627370496%positive, (-52).
    split; [reflexivity|]. cbn. lia.
  - unfold F.sub, F.one, SFsub. cbn [cond_Zopp].
    set (ez := Z.min e (-52)).
    destruct (shl_align_spec m e ez) as (d1 & Hd1 & _ & Hf1 & He1).
    destruct (shl_align_spec 4503599627370496 (-52) ez) as (d2 & Hd2 & _ & Hf2 & He2).
    rewrite Hf1, Hf2.
    specialize (He1 ltac:(subst ez; lia)). specialize (He2 ltac:(subst ez; lia)).
    apply binary_normalize_bound; [subst ez; lia | lia |].
    assert (HB : 2 ^ 52 * 2 ^ d2 = 2 ^ (0 - ez)).
    { rewrite <- Z.pow_add_r by lia. f_equal. lia. }
    change (Z.pos 4503599627370496) with (2 ^ 52). rewrite HB.
    assert (HA : Z.pos m * 2 ^ d1 <= 2 * 2 ^ (0 - ez)).
    { replace (2 * 2 ^ (0 - ez)) with (2 ^ (1 - e) * 2 ^ d1).
      - apply Z.mul_le_mono_nonneg_r; [apply Z.pow_nonneg; lia | exact Hm].
      - rewrite <- Z.pow_add_r by lia.
        replace (1 - e + d1) with (Z.succ (0 - ez)) by lia.
        rewrite Z.pow_succ_r by (subst ez; lia). reflexivity. }
    assert (HA0 : 0 < Z.pos m * 2 ^ d1).
    { apply Z.mul_pos_pos; [lia | apply Z.pow_pos_nonneg; lia]. }
    lia.
Qed.

(** [(n / 2^64) * 2 - 1] for a 64-bit [n]: computed without exception and
    of magnitude at most 1. *)
Lemma normalize_bound (n : Z) :
  0 <= n < 2 ^ 64 ->
  exists x s, JuliaSetGenerator.normalize n (2 ^ 64) = Some x /\ le_pow2 s x 0.
Proof.
  intros Hn. unfold JuliaSetGenerator.normalize.
  destruct (int_truediv_fraction n (2 ^ 64) Hn) as (q & -> & Hq).
  destruct (sub_one_bound _ (mul_two_bound _ Hq)) as [s Hs].
  eexists. exists s. split; [reflexivity | exact Hs].
Qed.


Lemma le_pow2_unit (s : bool) (x : spec_float) :
  le_pow2 s x 0 -> in_closed_unit_interval x.
Proof.
  intros [-> | (m & e & -> & He & Hm)]; split; try reflexivity.
  - cbn. unfold Qle. cbn. lia.
  - cbn [F.to_Q].
    assert (Hp : 0 < 2 ^ (0 - e)) by (apply Z.pow_pos_nonneg; lia).
    destruct (Z.leb_spec 0 e) as [H0 | H0].
    + assert (e = 0) by lia. subst e. cbn in Hm.
      rewrite Z.pow_0_r, Z.mul_1_r. unfold Qle, inject_Z. cbn [Qnum Qden].
      destruct s; lia.
    + unfold Qle. cbn [Qnum Qden].
      rewrite Z2Pos.id by (apply Z.pow_pos_nonneg; lia).
      replace (0 - e) with (- e) in * by lia.
      destruct s; lia.
Qed.

(** ** Slices of hexadecimal strings *)

Lemma list_ascii_app (a b : string) :
  list_ascii_of_string (a ++ b) = (list_ascii_of_string a ++ list_ascii_of_string b)%list.
Proof.
  induction a as [|x a IH]; [reflexivity|].
  rewrite append_cons. cbn [list_ascii_of_string]. rewrite IH. reflexivity.
Qed.

Lemma string_of_list_length (l : list ascii) :
  String.length (string_of_list_ascii l) = List.length l.
Proof. induction l; cbn; congruence. Qed.

Lemma forallb_firstn {A : Type} (f : A -> bool) (n : nat) (l : list A) :
  forallb f l = true -> forallb f (firstn n l) = true.
Proof.
  revert n. induction l as [|x l IH]; intros [|n] Hl; try reflexivity.
  cbn in *. apply andb_true_iff in Hl. destruct Hl as [-> Hl]. apply IH. exact Hl.
Qed.

Lemma forallb_skipn {A : Type} (f : A -> bool) (n : nat) (l : list A) :
  forallb f l = true -> forallb f (skipn n l) = true.
Proof.
  revert n. induction l as [|x l IH]; intros [|n] Hl; try reflexivity; [exact Hl|].
  cbn in *. apply andb_true_iff in Hl. destruct Hl as [_ Hl]. apply IH. exact Hl.
Qed.

(** A slice of a hexadecimal string, with bounds inside it, is a
    hexadecimal string of the expected length. *)
Lemma slice_hex (s : string) (a b : Z) :
  Py.is_hex s = true -> 0 <= a <= b -> b <= Py.len s ->
  Py.is_hex (Py.slice s a b) = true /\ Py.len (Py.slice s a b) = b - a.
Proof.
  intros Hs Hab Hb. rewrite slice_chars by lia.
  unfold Py.is_hex, Py.len in *.
  rewrite list_ascii_of_string_of_list_ascii, string_of_list_length.
  split.
  - apply forallb_firstn, forallb_skipn. exact Hs.
  - rewrite firstn_length_le; [lia|].
    rewrite length_skipn, list_ascii_length. lia.
Qed.

Lemma int16_hex16 (s : string) :
  Py.is_hex s = true -> Py.len s = 16 ->
  exists v, Py.int16 s = Some v /\ 0 <= v < 2 ^ 64.
Proof.
  intros Hs Hl. destruct (int16_hex s Hs) as (v & Hv & Hb).
  - intros ->. discriminate Hl.
  - exists v. split; [exact Hv|]. rewrite Hl in Hb. exact Hb.
Qed.

Lemma padded_hex (seed : string) :
  Py.is_hex seed = true ->
  let padded :=
    if Py.len seed <? 32 then (seed ++ Py.repeat_char "0" (32 - Py.len seed))%string
    else seed in
  (if Py.len seed <? 32 then Py.ljust seed 32 "0" else seed) = padded /\
  Py.is_hex padded = true /\ 32 <= Py.len padded.
Proof.
  intros Hs. cbn zeta. destruct (Z.ltb_spec (Py.len seed) 32) as [Hlt | Hge].
  - split; [|split].
    + unfold Py.ljust. destruct (Z.leb_spec 32 (Py.len seed)); [lia | reflexivity].
    + unfold Py.is_hex in *. rewrite list_ascii_app, forallb_app, Hs.
      unfold Py.repeat_char. rewrite list_ascii_of_string_of_list_ascii.
      apply forallb_forall. intros c Hc. apply repeat_spec in Hc. subst c. reflexivity.
    + unfold Py.len in *. rewrite append_length. unfold Py.repeat_char.
      rewrite string_of_list_length, repeat_length. lia.
  - auto.
Qed.

(** The two 64-bit integers read off a hexadecimal string of at least 32
    characters. *)
Lemma hex_parts (s : string) :
  Py.is_hex s = true -> 32 <= Py.len s ->
  exists R I,
    Py.int16 (Py.slice s 0 16) = Some R /\ 0 <= R < 2 ^ 64 /\
    Py.int16 (Py.slice s 16 32) = Some I /\ 0 <= I < 2 ^ 64.
Proof.
  intros Hh Hl.
  destruct (slice_hex s 0 16 Hh) as [Hrh Hrl]; [lia | lia |].
  destruct (slice_hex s 16 32 Hh) as [Hih Hil]; [lia | lia |].
  destruct (int16_hex16 _ Hrh Hrl) as (R & HR & HRb).
  destruct (int16_hex16 _ Hih Hil) as (I & HI & HIb).
  exists R, I. auto.
Qed.

(** ** The Julia parameter (C3) *)

(** C3 (as the code has it). For a seed made of hexadecimal digits,
    [generate_c_from_seed] pads it on the right with ['0'] to 32 characters
    when it is shorter, reads characters 0..15 as the 64-bit integer [R] and
    characters 16..31 as [I], and returns, without raising,
    [c = (R / 2^64 * 2 - 1) + i (I / 2^64 * 2 - 1)] computed in binary64;
    both components are finite and lie in the closed interval [-1, 1]. *)
Theorem c_from_seed_closed_interval (seed : string) :
  Py.is_hex seed = true ->
  let padded :=
    if Py.len seed <? 32 then (seed ++ Py.repeat_char "0" (32 - Py.len seed))%string
    else seed in
  exists R I qR qI,
    Py.int16 (Py.slice padded 0 16) = Some R /\ 0 <= R < 2 ^ 64 /\
    Py.int16 (Py.slice padded 16 32) = Some I /\ 0 <= I < 2 ^ 64 /\
    F.int_truediv R (2 ^ 64) = Some qR /\
    F.int_truediv I (2 ^ 64) = Some qI /\
    JuliaSetGenerator.generate_c_from_seed seed =
      Some (F.sub (F.mul qR F.two) F.one, F.sub (F.mul qI F.two) F.one) /\
    in_closed_unit_interval (F.sub (F.mul qR F.two) F.one) /\
    in_closed_unit_interval (F.sub (F.mul qI F.two) F.one).
Proof.
  intros Hhex padded.
  destruct (padded_hex seed Hhex) as (Hpad & Hph & Hpl). fold padded in Hpad, Hph, Hpl.
  destruct (hex_parts padded Hph Hpl) as (R & I & HR & HRb & HI & HIb).
  destruct (int_truediv_fraction R (2 ^ 64) HRb) as (qR & HqR & HbR).
  destruct (int_truediv_fraction I (2 ^ 64) HIb) as (qI & HqI & HbI).
  exists R, I, qR, qI.
  destruct (sub_one_bound _ (mul_two_bound _ HbR)) as [sR HsR].
  destruct (sub_one_bound _ (mul_two_bound _ HbI)) as [sI HsI].
  repeat split; try assumption; try lia.
  - unfold JuliaSetGenerator.generate_c_from_seed. rewrite Hpad, HR, HI.
    unfold JuliaSetGenerator.normalize. rewrite HqR, HqI. reflexivity.
  - apply (le_pow2_unit sR), HsR.
  - apply (le_pow2_unit sR), HsR.
  - apply (le_pow2_unit sR), HsR.
  - apply (le_pow2_unit sI), HsI.
  - apply (le_pow2_unit sI), HsI.
  - apply (le_pow2_unit sI), HsI.
Qed.


(** C3 as the specification words it fails on both counts.  The seed of 64
    zeros gives the component -1 exactly and the seed of 32 [f] gives 1
    exactly, neither inside the open interval; and the seed ["1"] is read
    as ["1000..."] (zeros appended), not as ["000...1"]. *)
Lemma c_from_seed_not_open_nor_left_padded :
  JuliaSetGenerator.generate_c_from_seed
    "0000000000000000000000000000000000000000000000000000000000000000"
    = Some (S754_finite true 4503599627370496 (-52), S754_finite true 4503599627370496 (-52)) /\
  ~ (-1 < F.to_Q (S754_finite true 4503599627370496 (-52)))%Q /\
  JuliaSetGenerator.generate_c_from_seed "ffffffffffffffffffffffffffffffff"
    = Some (F.one, F.one) /\
  ~ (F.to_Q F.one < 1)%Q /\
  JuliaSetGenerator.generate_c_from_seed "1"
    = JuliaSetGenerator.generate_c_from_seed "10000000000000000000000000000000" /\
  JuliaSetGenerator.generate_c_from_seed "1"
    <> JuliaSetGenerator.generate_c_from_seed "00000000000000000000000000000001".
Proof.
  split; [vm_compute; reflexivity|].
  split; [vm_compute; intros Hc; discriminate Hc|].
  split; [vm_compute; reflexivity|].
  split; [vm_compute; intros Hc; discriminate Hc|].
  split; [vm_compute; reflexivity|].
  vm_compute. discriminate.
Qed.

(** The theorem at a short seed. *)
Lemma c_from_seed_closed_interval_witness :
  exists x, JuliaSetGenerator.generate_c_from_seed "c0ffee" = Some x /\
            in_closed_unit_interval (fst x) /\ in_closed_unit_interval (snd x).
Proof.
  destruct (c_from_seed_closed_interval "c0ffee") as (R & I & qR & qI & H);
    [vm_compute; reflexivity|].
  destruct H as (_ & _ & _ & _ & _ & _ & Hc & Hr & Hi).
  eexists. split; [exact Hc|]. split; assumption.
Defined.

(** ** The search points (C4) *)

Lemma hex_char_is_hex (y : Z) : Py.is_hex_digit (SHA256.hex_char (Z.land y 15)) = true.
Proof.
  change 15 with (Z.ones 4). rewrite Z.land_ones by lia.
  pose proof (Z.mod_pos_bound y (2 ^ 4) ltac:(lia)) as Hr.
  change (2 ^ 4) with 16 in *.
  assert (Hcases : y mod 16 = 0 \/ y mod 16 = 1 \/ y mod 16 = 2 \/ y mod 16 = 3 \/
                   y mod 16 = 4 \/ y mod 16 = 5 \/ y mod 16 = 6 \/ y mod 16 = 7 \/
                   y mod 16 = 8 \/ y mod 16 = 9 \/ y mod 16 = 10 \/ y mod 16 = 11 \/
                   y mod 16 = 12 \/ y mod 16 = 13 \/ y mod 16 = 14 \/ y mod 16 = 15) by lia.
  repeat (destruct Hcases as [-> | Hcases]; [reflexivity|]). rewrite Hcases. reflexivity.
Qed.

Lemma hex8_hex (x : Z) :
  forallb Py.is_hex_digit (SHA256.hex8 x) = true /\ List.length (SHA256.hex8 x) = 8%nat.
Proof.
  split; [|reflexivity]. unfold SHA256.hex8. cbn [seq rev app map forallb].
  rewrite !hex_char_is_hex. reflexivity.
Qed.

(** A SHA-256 digest in hexadecimal is 64 hexadecimal digits. *)
Lemma hexdigest_hex (s : string) :
  Py.is_hex (SHA256.hexdigest s) = true /\ Py.len (SHA256.hexdigest s) = 64.
Proof.
  unfold SHA256.hexdigest, SHA256.hexdigest_bytes, SHA256.digest_words, Py.is_hex, Py.len.
  destruct (fold_left SHA256.compress _ SHA256.init) as [[[[[[[a b] c] d] e] f] g] h].
  rewrite list_ascii_of_string_of_list_ascii, string_of_list_length.
  cbn [flat_map]. rewrite !forallb_app, !length_app.
  repeat (rewrite (proj1 (hex8_hex _))). repeat (rewrite (proj2 (hex8_hex _))).
  split; reflexivity.
Qed.

(** On a string of at least 32 characters the search reads a point exactly
    as [generate_c_from_seed] reads [c]. *)
Lemma search_point_is_c (s : string) :
  32 <= Py.len s ->
  FractalProofOfWork.search_point s = JuliaSetGenerator.generate_c_from_seed s.
Proof.
  intros Hl. unfold FractalProofOfWork.search_point, JuliaSetGenerator.generate_c_from_seed.
  destruct (Z.ltb_spec (Py.len s) 32); [lia | reflexivity].
Qed.

Lemma search_point_total (s : string) :
  Py.is_hex s = true -> 32 <= Py.len s ->
  exists pt, FractalProofOfWork.search_point s = Some pt.
Proof.
  intros Hh Hl. unfold FractalProofOfWork.search_point.
  destruct (hex_parts s Hh Hl) as (R & I & -> & HRb & -> & HIb).
  destruct (normalize_bound R HRb) as (re & _ & -> & _).
  destruct (normalize_bound I HIb) as (im & _ & -> & _).
  eauto.
Qed.

(** The loop started at pass [i0] on the seed of that pass. *)
Lemma search_loop_chain (seed : string) (n : nat) :
  forall i0,
  exists points,
    FractalProofOfWork.search_loop n (Z.of_nat i0) (search_seed seed i0) = Some points /\
    List.length points = n /\
    forall j, (j < n)%nat ->
      nth_error points j = FractalProofOfWork.search_point (search_seed seed (i0 + j + 1)).
Proof.
  induction n as [|n IH]; intros i0.
  - exists []. repeat split. intros j Hj. lia.
  - cbn [FractalProofOfWork.search_loop]. cbv zeta.
    change (SHA256.hexdigest (search_seed seed i0 ++ Py.str_of_int (Z.of_nat i0)))
      with (search_seed seed (S i0)).
    destruct (hexdigest_hex (search_seed seed i0 ++ Py.str_of_int (Z.of_nat i0))) as [Hh Hl].
    change (SHA256.hexdigest (search_seed seed i0 ++ Py.str_of_int (Z.of_nat i0)))
      with (search_seed seed (S i0)) in Hh, Hl.
    destruct (search_point_total _ Hh) as [pt Hpt]; [lia|].
    destruct (IH (S i0)) as (points & Hp & Hlen & Hnth).
    exists (pt :: points).
    replace (Z.of_nat i0 + 1) with (Z.of_nat (S i0)) by lia.
    rewrite Hpt, Hp. repeat split.
    + cbn. congruence.
    + intros [|j] Hj.
      * cbn [nth_error]. replace (i0 + 0 + 1)%nat with (S i0) by lia.
        symmetry. exact Hpt.
      * cbn [nth_error]. replace (i0 + S j + 1)%nat with (S i0 + j + 1)%nat by lia.
        apply Hnth. lia.
Qed.

(** C4 (as the code has it). For every seed and count, the search points
    are computed without exception, there are [count] of them (none for a
    count below 1), and the i-th one (i = 1..count) is read, by the same
    extraction as the parameter [c], off the seed
    seed_i = SHA256(seed_(i-1) || decimal(i - 1)), with seed_0 the fractal
    seed: the number hashed in is the loop variable, which starts at 0. *)
Theorem search_points_chain (seed : string) (count : Z) :
  exists points,
    FractalProofOfWork._generate_search_points seed count = Some points /\
    List.length points = Z.to_nat count /\
    forall i, (1 <= i <= Z.to_nat count)%nat ->
      search_seed seed i =
        SHA256.hexdigest (search_seed seed (i - 1) ++ Py.str_of_int (Z.of_nat i - 1)) /\
      nth_error points (i - 1) =
        JuliaSetGenerator.generate_c_from_seed (search_seed seed i).
Proof.
  unfold FractalProofOfWork._generate_search_points.
  destruct (search_loop_chain seed (Z.to_nat count) O) as (points & Hp & Hlen & Hnth).
  exists points. split; [exact Hp|]. split; [exact Hlen|].
  intros i Hi. split.
  - destruct i as [|i]; [lia|]. cbn [search_seed].
    replace (S i - 1)%nat with i by lia.
    replace (Z.of_nat (S i) - 1) with (Z.of_nat i) by lia. reflexivity.
  - rewrite Hnth by lia. replace (0 + (i - 1) + 1)%nat with i by lia.
    apply search_point_is_c.
    destruct i as [|i]; [lia|]. cbn [search_seed].
    destruct (hexdigest_hex (search_seed seed i ++ Py.str_of_int (Z.of_nat i))) as [_ ->]. lia.
Qed.

(** C4 as the specification words it fails: the first search point comes
    from SHA256(seed || "0"), not from SHA256(seed || "1"). *)
Lemma first_search_point_hashes_zero :
  search_seed "test_seed_123" 1 = SHA256.hexdigest "test_seed_1230" /\
  claimed_search_seed "test_seed_123" 1 = SHA256.hexdigest "test_seed_1231" /\
  exists p,
    FractalProofOfWork._generate_search_points "test_seed_123" 1 = Some [p] /\
    Some p = JuliaSetGenerator.generate_c_from_seed (search_seed "test_seed_123" 1) /\
    Some p <> JuliaSetGenerator.generate_c_from_seed (claimed_search_seed "test_seed_123" 1).
Proof.
  split; [reflexivity|]. split; [reflexivity|].
  eexists. split; [vm_compute; reflexivity|].
  split; [vm_compute; reflexivity|].
  vm_compute. discriminate.
Qed.

(** The theorem at the seed and a count of 3. *)
Lemma search_points_chain_witness :
  exists points,
    FractalProofOfWork._generate_search_points "test_seed_123" 3 = Some points /\
    List.length points = 3%nat.
Proof.
  destruct (search_points_chain "test_seed_123" 3) as (points & Hp & Hl & _).
  exists points. split; assumption.
Defined.
(** * Further properties *)

(** ** The Merkle tree: levels, height and proofs *)

Section MerkleLevels.
Import MerkleTree.

(** The levels below a level that fits the fuel do not depend on it. *)
Lemma build_levels_fuel (f1 : nat) :
  forall (f2 : nat) (l : list string),
    (List.length l <= f1)%nat -> (List.length l <= f2)%nat ->
    build_levels f1 l = build_levels f2 l.
Proof.
  induction f1 as [|f1 IH]; intros f2 l H1 H2.
  - destruct l; [|cbn in H1; lia]. destruct f2; reflexivity.
  - destruct f2 as [|f2].
    + destruct l; [reflexivity | cbn in H2; lia].
    + cbn [build_levels].
      destruct (Nat.ltb_spec 1 (List.length l)) as [Hgt|]; [|reflexivity].
      destruct (next_level_shorter l Hgt) as [_ Hsh].
      f_equal. apply IH; lia.
Qed.

(** The list of levels over a non-empty level [l]: the last level holds one
    node, and each level above another is the pairwise hash of it. *)
Lemma levels_shape (fuel : nat) :
  forall l : list string,
    (List.length l <= fuel)%nat -> l <> [] ->
    (exists r, last (l :: build_levels fuel l) [] = [r]) /\
    (forall k a, nth_error (l :: build_levels fuel l) k = Some a ->
       (S k < List.length (l :: build_levels fuel l))%nat ->
       (1 < List.length a)%nat /\
       nth_error (l :: build_levels fuel l) (S k) = Some (next_level a)).
Proof.
  induction fuel as [|fuel IH]; intros l Hlen Hne.
  - destruct l; [congruence | cbn in Hlen; lia].
  - cbn [build_levels].
    destruct (Nat.ltb_spec 1 (List.length l)) as [Hgt | Hle].
    + destruct (next_level_shorter l Hgt) as [Hpos Hsh].
      destruct (IH (next_level l)) as [Hlast Hstep];
        [lia | intros E; rewrite E in Hpos; cbn in Hpos; lia |].
      split.
      * exact Hlast.
      * intros k a Hk Hlt. destruct k as [|k].
        -- injection Hk as <-. split; [exact Hgt | reflexivity].
        -- cbn [nth_error] in Hk |- *. apply Hstep; [exact Hk|].
           cbn [List.length] in Hlt |- *. lia.
    + split.
      * destruct l as [|a [|b l]]; [congruence | exists a; reflexivity | cbn in Hle; lia].
      * intros k a Hk Hlt. cbn in Hlt. lia.
Qed.

(** The number of levels over [n >= 1] leaves is [1 + ceil(log2 n)]. *)
Lemma levels_height (fuel : nat) :
  forall l : list string,
    (List.length l <= fuel)%nat -> l <> [] ->
    let h := List.length (l :: build_levels fuel l) in
    (List.length l <= 2 ^ (h - 1) < 2 * List.length l)%nat.
Proof.
  induction fuel as [|fuel IH]; intros l Hlen Hne.
  - destruct l; [congruence | cbn in Hlen; lia].
  - cbn [build_levels].
    destruct (Nat.ltb_spec 1 (List.length l)) as [Hgt | Hle].
    + destruct (next_level_shorter l Hgt) as [Hpos Hsh].
      specialize (IH (next_level l)).
      cbv zeta in IH |- *.
      destruct IH as [IH1 IH2];
        [lia | intros E; rewrite E in Hpos; cbn in Hpos; lia |].
      cbn [List.length] in IH1, IH2 |- *.
      set (h' := List.length (build_levels fuel (next_level l))) in *.
      replace (S h' - 1)%nat with h' in * by lia.
      replace (S (S h') - 1)%nat with (S h') by lia.
      rewrite next_level_length in *.
      set (n := List.length l) in *.
      change (2 ^ S h')%nat with (2 * 2 ^ h')%nat.
      pose proof (Nat.div_mod_eq (n + 1) 2) as Hdm.
      pose proof (Nat.mod_upper_bound (n + 1) 2 ltac:(lia)) as Hm.
      split; [lia|].
      destruct h' as [|h''].
      * cbn in *. lia.
      * change (2 ^ S h'')%nat with (2 * 2 ^ h'')%nat in *. lia.
    + cbv zeta. cbn [List.length]. destruct l as [|a [|b l]];
        [congruence | cbn; lia | cbn in Hle; lia].
Qed.

Lemma proof_path_length (levels : list (list string)) :
  forall i p, proof_path levels i = Some p -> List.length p = List.length levels.
Proof.
  induction levels as [|l levels IH]; intros i p Hp.
  - injection Hp as <-. reflexivity.
  - cbn [proof_path] in Hp.
    destruct (sibling l i); [|discriminate].
    destruct (proof_path levels (i / 2)%nat) eqn:E; [|discriminate].
    injection Hp as <-. cbn [List.length]. f_equal. eauto.
Qed.

Lemma index_none (h : string) (l : list string) :
  ~ In h l -> index h l = None.
Proof.
  induction l as [|y l IH]; intros Hn; [reflexivity|].
  cbn [index]. destruct (String.eqb_spec y h) as [-> | Hne].
  - exfalso. apply Hn. left. reflexivity.
  - rewrite IH; [reflexivity|]. intros Hin. apply Hn. right. exact Hin.
Qed.

Lemma removelast_length {A : Type} (l : list A) :
  List.length (removelast l) = (List.length l - 1)%nat.
Proof.
  induction l as [|a [|b l] IH]; try reflexivity.
  change (removelast (a :: b :: l)) with (a :: removelast (b :: l)).
  cbn [List.length] in *. lia.
Qed.

Lemma nth_error_last {A : Type} (l : list A) (d : A) :
  (0 < List.length l)%nat ->
  nth_error l (List.length l - 1) = Some (last l d).
Proof.
  induction l as [|a [|b l] IH]; intros Hl.
  - cbn in Hl. lia.
  - reflexivity.
  - change (last (a :: b :: l) d) with (last (b :: l) d).
    rewrite <- IH by (cbn; lia).
    cbn [List.length]. rewrite !Nat.sub_succ, !Nat.sub_0_r. reflexivity.
Qed.

(** The tree over a non-empty list, as [MerkleTree.__init__] builds it. *)
Lemma new_built (H : list string) :
  H <> [] ->
  exists r,
    nth_error (last (H :: build_levels (List.length H) H) []) 0 = Some r /\
    last (H :: build_levels (List.length H) H) [] = [r] /\
    new H = Some (mk H (H :: build_levels (List.length H) H) r).
Proof.
  intros Hne.
  destruct (levels_shape (List.length H) H) as [[r Hr] _]; [lia | exact Hne |].
  exists r. rewrite Hr. repeat split.
  destruct H as [|a l]; [congruence|].
  unfold new, _build_tree. rewrite Hr. reflexivity.
Qed.

(** X1. The levels of a tree.  [get_level] raises outside [0 <= level < height];
    level 0 is the list of leaves, the top level is the root alone, and
    every level between is the pairwise hash of the level below it, whose
    last node is paired with itself when the width is odd. *)
Theorem tree_levels (H : list string) :
  H <> [] ->
  exists m,
    new H = Some m /\
    get_level m 0 = Some H /\
    get_level m (get_tree_height m - 1) = Some [get_root m] /\
    (forall level, level < 0 \/ get_tree_height m <= level -> get_level m level = None) /\
    (forall level, 0 <= level < get_tree_height m - 1 ->
       exists l, get_level m level = Some l /\ (1 < List.length l)%nat /\
                 get_level m (level + 1) = Some (next_level l)).
Proof.
  intros Hne.
  destruct (new_built H Hne) as (r & _ & Hlast & Hnew).
  destruct (levels_shape (List.length H) H) as [_ Hstep]; [lia | exact Hne |].
  set (L := H :: build_levels (List.length H) H) in *.
  exists (mk H L r). split; [exact Hnew|].
  unfold get_level, get_tree_height, get_root. cbn [tree root].
  assert (HL : (0 < List.length L)%nat) by (unfold L; cbn; lia).
  split; [|split; [|split]].
  - destruct (Z.ltb_spec 0 0); [lia|].
    destruct (Z.leb_spec (Z.of_nat (List.length L)) 0); [lia|]. reflexivity.
  - destruct (Z.ltb_spec (Z.of_nat (List.length L) - 1) 0); [lia|].
    destruct (Z.leb_spec (Z.of_nat (List.length L)) (Z.of_nat (List.length L) - 1)); [lia|].
    cbn [orb].
    replace (Z.to_nat (Z.of_nat (List.length L) - 1)) with (List.length L - 1)%nat by lia.
    rewrite <- Hlast. apply nth_error_last. lia.
  - intros level [Hneg | Hbig].
    + destruct (Z.ltb_spec level 0); [reflexivity | lia].
    + destruct (Z.leb_spec (Z.of_nat (List.length L)) level); [|lia].
      rewrite orb_true_r. reflexivity.
  - intros level [Hlo Hhi].
    destruct (nth_error L (Z.to_nat level)) as [a|] eqn:Ea.
    2:{ apply nth_error_None in Ea. lia. }
    destruct (Hstep (Z.to_nat level) a Ea) as [Hw Hn]; [lia|].
    exists a.
    destruct (Z.ltb_spec level 0); [lia|].
    destruct (Z.leb_spec (Z.of_nat (List.length L)) level); [lia|].
    destruct (Z.ltb_spec (level + 1) 0); [lia|].
    destruct (Z.leb_spec (Z.of_nat (List.length L)) (level + 1)); [lia|].
    cbn [orb]. split; [reflexivity|]. split; [exact Hw|].
    replace (Z.to_nat (level + 1)) with (S (Z.to_nat level)) by lia.
    exact Hn.
Qed.

(** X2. The height of the tree over [n >= 1] leaves is [1 + ceil(log2 n)]:
    [n <= 2^(height - 1) < 2 n]. *)
Theorem tree_height_logarithmic (H : list string) :
  H <> [] ->
  exists m,
    new H = Some m /\
    1 <= get_tree_height m /\
    Z.of_nat (List.length H) <= 2 ^ (get_tree_height m - 1) < 2 * Z.of_nat (List.length H).
Proof.
  intros Hne.
  destruct (new_built H Hne) as (r & _ & _ & Hnew).
  pose proof (levels_height (List.length H) H ltac:(lia) Hne) as Hh.
  cbv zeta in Hh.
  set (L := H :: build_levels (List.length H) H) in *.
  exists (mk H L r). split; [exact Hnew|].
  unfold get_tree_height. cbn [tree].
  assert (HL : (0 < List.length L)%nat) by (unfold L; cbn; lia).
  split; [lia|].
  replace (Z.of_nat (List.length L) - 1) with (Z.of_nat (List.length L - 1)) by lia.
  replace (2 ^ Z.of_nat (List.length L - 1)) with (Z.of_nat (2 ^ (List.length L - 1))).
  - lia.
  - rewrite Nat2Z.inj_pow. reflexivity.
Qed.

(** X3. [get_proof] on a built tree: a hash that is not a leaf gets [None],
    without an exception; a leaf gets a path with one step for each level
    below the root. *)
Theorem get_proof_cases (H : list string) (m : t) (h : string) :
  new H = Some m ->
  (~ In h H -> get_proof m h = Some None) /\
  (In h H -> exists proof, get_proof m h = Some (Some proof) /\
                           Z.of_nat (List.length proof) = get_tree_height m - 1).
Proof.
  intros Hnew.
  assert (Hne : H <> []) by (intros ->; discriminate).
  destruct (new_built H Hne) as (r & _ & _ & Hnew').
  rewrite Hnew in Hnew'. injection Hnew' as ->.
  unfold get_proof, get_tree_height. cbn [transactions tree].
  split.
  - intros Hn. rewrite (index_none h H Hn). reflexivity.
  - intros Hin.
    destruct (index_nth h H Hin) as (i & Hi & Hn).
    destruct (path_reaches_root (List.length H) H i h) as (p & r' & Hp & _ & _);
      [lia | exact Hn |].
    exists p. rewrite Hi, Hp. split; [reflexivity|].
    rewrite (proof_path_length _ _ _ Hp), removelast_length.
    cbn [List.length]. lia.
Qed.

Lemma next_level_repeat_last (l : list string) (x : string) :
  Nat.even (List.length l) = true ->
  next_level (l ++ [x; x]) = next_level (l ++ [x]).
Proof.
  induction l as [| a | a b l IH] using pair_ind; intros Hev.
  - reflexivity.
  - discriminate.
  - cbn [app next_level]. f_equal. apply IH. exact Hev.
Qed.

(** X4. A level of odd width pairs its last node with itself, so a list of odd
    length (three leaves or more) and the same list with its last leaf
    repeated have the same root. *)
Theorem root_repeats_last_leaf (l : list string) (x : string) :
  l <> [] -> Nat.even (List.length l) = true ->
  compute_merkle_root (l ++ [x; x]) = compute_merkle_root (l ++ [x]).
Proof.
  intros Hne Hev.
  assert (H1 : (1 < List.length (l ++ [x]))%nat).
  { rewrite length_app. cbn. destruct l; [congruence | cbn; lia]. }
  assert (H2 : (1 < List.length (l ++ [x; x]))%nat).
  { rewrite length_app. cbn. lia. }
  assert (R : forall t : list string, (1 < List.length t)%nat ->
            compute_merkle_root t =
            nth_error (last (next_level t :: build_levels (List.length t) (next_level t)) []) 0).
  { intros t Ht. destruct (next_level_shorter t Ht) as [_ Hsh].
    destruct t as [|a t]; [cbn in Ht; lia|].
    unfold compute_merkle_root, new, _build_tree.
    remember (a :: t) as u.
    replace (build_levels (List.length u) u)
      with (next_level u :: build_levels (List.length u - 1) (next_level u)).
    2:{ destruct (List.length u) as [|k] eqn:E; [lia|].
        cbn [build_levels]. rewrite <- E.
        destruct (Nat.ltb_spec 1 (List.length u)); [|lia].
        rewrite E. cbn. rewrite Nat.sub_0_r. reflexivity. }
    change (last (u :: next_level u :: build_levels (List.length u - 1) (next_level u)) [])
      with (last (next_level u :: build_levels (List.length u - 1) (next_level u)) []).
    rewrite (build_levels_fuel (List.length u - 1) (List.length u) (next_level u)) by lia.
    destruct (nth_error _ 0); reflexivity. }
  rewrite (R _ H1), (R _ H2).
  rewrite next_level_repeat_last by exact Hev.
  rewrite (build_levels_fuel (List.length (l ++ [x; x])) (List.length (l ++ [x]))
             (next_level (l ++ [x]))).
  - reflexivity.
  - rewrite <- (next_level_repeat_last l x Hev).
    destruct (next_level_shorter _ H2). lia.
  - destruct (next_level_shorter _ H1). lia.
Qed.

End MerkleLevels.

Lemma tree_levels_witness :
  exists m,
    MerkleTree.new ["a"; "b"; "c"] = Some m /\
    MerkleTree.get_level m 0 = Some ["a"; "b"; "c"] /\
    MerkleTree.get_level m (MerkleTree.get_tree_height m - 1) = Some [MerkleTree.get_root m] /\
    (forall level, level < 0 \/ MerkleTree.get_tree_height m <= level ->
       MerkleTree.get_level m level = None) /\
    (forall level, 0 <= level < MerkleTree.get_tree_height m - 1 ->
       exists l, MerkleTree.get_level m level = Some l /\ (1 < List.length l)%nat /\
                 MerkleTree.get_level m (level + 1) = Some (MerkleTree.next_level l)).
Proof. apply (tree_levels ["a"; "b"; "c"]). discriminate. Defined.

Lemma tree_height_logarithmic_witness :
  exists m,
    MerkleTree.new ["a"; "b"; "c"; "d"; "e"] = Some m /\
    1 <= MerkleTree.get_tree_height m /\
    Z.of_nat (List.length ["a"; "b"; "c"; "d"; "e"])
      <= 2 ^ (MerkleTree.get_tree_height m - 1)
      < 2 * Z.of_nat (List.length ["a"; "b"; "c"; "d"; "e"]).
Proof. apply (tree_height_logarithmic ["a"; "b"; "c"; "d"; "e"]). discriminate. Defined.

Lemma get_proof_cases_witness :
  exists m,
    MerkleTree.new ["a"; "b"; "c"] = Some m /\
    (~ In "z" ["a"; "b"; "c"] -> MerkleTree.get_proof m "z" = Some None) /\
    (In "c" ["a"; "b"; "c"] ->
       exists proof, MerkleTree.get_proof m "c" = Some (Some proof) /\
                     Z.of_nat (List.length proof) = MerkleTree.get_tree_height m - 1).
Proof.
  eexists. split; [vm_compute; reflexivity|].
  split.
  - apply (get_proof_cases ["a"; "b"; "c"] _ "z"). vm_compute. reflexivity.
  - apply (get_proof_cases ["a"; "b"; "c"] _ "c"). vm_compute. reflexivity.
Defined.

Lemma root_repeats_last_leaf_witness :
  compute_merkle_root (["a"; "b"] ++ ["c"; "c"]) = compute_merkle_root (["a"; "b"] ++ ["c"]).
Proof. apply (root_repeats_last_leaf ["a"; "b"] "c"); [discriminate | reflexivity]. Defined.

(** ** The Merkle tree: a changed leaf *)

Lemma append_inj_l (s a b : string) : (s ++ a = s ++ b)%string -> a = b.
Proof.
  induction s as [|c s IH]; intros E; [exact E|].
  rewrite !append_cons in E. injection E as E. auto.
Qed.

Lemma append_inj_r (a b s : string) : (a ++ s = b ++ s)%string -> a = b.
Proof.
  intros E.
  apply (f_equal list_ascii_of_string) in E.
  rewrite !list_ascii_app in E. apply app_inv_tail in E.
  rewrite <- (string_of_list_ascii_of_string a), <- (string_of_list_ascii_of_string b), E.
  reflexivity.
Qed.

Lemma verify_step_combined (current_hash : string) (step : string * string) :
  MerkleTree.verify_step current_hash step
  = SHA256.hexdigest (MerkleTree.combined current_hash step).
Proof. destruct step. reflexivity. Qed.

Lemma combined_inj (a a' : string) (step : string * string) :
  a <> a' -> MerkleTree.combined a step <> MerkleTree.combined a' step.
Proof.
  intros Hne E. destruct step as [s pos]. cbn in E.
  destruct (String.eqb pos "left").
  - apply append_inj_l in E. congruence.
  - apply append_inj_r in E. congruence.
Qed.

(** X5. A proof that verifies for a leaf rejects every other leaf, unless
    SHA-256 collides on the way: at some step of the loop of [verify_proof]
    the two strings that are hashed differ and have the same digest. *)
Theorem changed_leaf_rejected_or_collision (h h' r : string)
  (proof : list (string * string)) :
  h <> h' ->
  MerkleTree.verify_proof h r proof = true ->
  MerkleTree.verify_proof h' r proof = false \/
  exists k step,
    nth_error proof k = Some step /\
    let a := fold_left MerkleTree.verify_step (firstn k proof) h in
    let a' := fold_left MerkleTree.verify_step (firstn k proof) h' in
    MerkleTree.combined a step <> MerkleTree.combined a' step /\
    SHA256.hexdigest (MerkleTree.combined a step)
    = SHA256.hexdigest (MerkleTree.combined a' step).
Proof.
  revert h h'. induction proof as [|step proof IH]; intros h h' Hne Hv.
  - left. unfold MerkleTree.verify_proof in *. cbn [fold_left] in *.
    apply String.eqb_eq in Hv. subst r.
    apply String.eqb_neq. congruence.
  - unfold MerkleTree.verify_proof in Hv |- *. cbn [fold_left] in Hv |- *.
    destruct (String.eqb_spec (MerkleTree.verify_step h step)
                              (MerkleTree.verify_step h' step)) as [E | Hd].
    + right. exists O, step. split; [reflexivity|].
      cbn [firstn fold_left]. split.
      * apply combined_inj. exact Hne.
      * rewrite <- !verify_step_combined. exact E.
    + destruct (IH _ _ Hd Hv) as [Hf | (k & st & Hk & Hc)].
      * left. exact Hf.
      * right. exists (S k), st. split; [exact Hk|]. exact Hc.
Qed.

Lemma changed_leaf_rejected_or_collision_witness :
  "a" <> "c" /\
  MerkleTree.verify_proof "a" (SHA256.hexdigest "ab") [("b", "right")] = true /\
  (MerkleTree.verify_proof "c" (SHA256.hexdigest "ab") [("b", "right")] = false \/
   exists k step,
     nth_error [("b", "right")] k = Some step /\
     let a := fold_left MerkleTree.verify_step (firstn k [("b", "right")]) "a" in
     let a' := fold_left MerkleTree.verify_step (firstn k [("b", "right")]) "c" in
     MerkleTree.combined a step <> MerkleTree.combined a' step /\
     SHA256.hexdigest (MerkleTree.combined a step)
     = SHA256.hexdigest (MerkleTree.combined a' step)).
Proof.
  assert (Hne : "a" <> "c") by discriminate.
  assert (Hv : MerkleTree.verify_proof "a" (SHA256.hexdigest "ab") [("b", "right")] = true)
    by (vm_compute; reflexivity).
  split; [exact Hne|]. split; [exact Hv|].
  apply (changed_leaf_rejected_or_collision "a" "c" _ _ Hne Hv).
Defined.
(** ** Keys and signatures: signing, then verifying *)

Lemma hex_char_val (d : Z) :
  0 <= d < 16 -> Py.hex_digit_val (SHA256.hex_char d) = Some d.
Proof.
  intros Hd.
  assert (Hcases : d = 0 \/ d = 1 \/ d = 2 \/ d = 3 \/ d = 4 \/ d = 5 \/ d = 6 \/ d = 7 \/
                   d = 8 \/ d = 9 \/ d = 10 \/ d = 11 \/ d = 12 \/ d = 13 \/ d = 14 \/
                   d = 15) by lia.
  repeat (destruct Hcases as [-> | Hcases]; [reflexivity|]). rewrite Hcases. reflexivity.
Qed.

Lemma byte_nibbles (b : Z) :
  is_byte b ->
  0 <= Z.land (Z.shiftr b 4) 15 < 16 /\ 0 <= Z.land b 15 < 16 /\
  16 * Z.land (Z.shiftr b 4) 15 + Z.land b 15 = b.
Proof.
  unfold is_byte. intros Hb.
  change 15 with (Z.ones 4). rewrite !Z.land_ones by lia.
  rewrite Z.shiftr_div_pow2 by lia. change (2 ^ 4) with 16.
  assert (Hq : 0 <= b / 16 < 16).
  { split; [apply Z.div_pos; lia | apply Z.div_lt_upper_bound; lia]. }
  rewrite (Z.mod_small (b / 16)) by lia.
  pose proof (Z.mod_pos_bound b 16 ltac:(lia)).
  pose proof (Z.div_mod b 16 ltac:(lia)). lia.
Qed.

(** [unhexlify] reads back what [hexlify] writes. *)
Lemma unhexlify_hexlify (bs : list Z) :
  Forall is_byte bs -> Binascii.unhexlify (Binascii.hexlify bs) = Some bs.
Proof.
  intros Hbs. unfold Binascii.unhexlify, Binascii.hexlify.
  rewrite list_ascii_of_string_of_list_ascii.
  induction Hbs as [|b bs Hb _ IH]; [reflexivity|].
  destruct (byte_nibbles b Hb) as (Hh & Hl & Hv).
  cbn [flat_map Binascii.hex2 app Binascii.unhex].
  rewrite (hex_char_val _ Hh), (hex_char_val _ Hl), IH, Hv. reflexivity.
Qed.

Lemma hexlify_not_empty (bs : list Z) :
  bs <> [] -> String.eqb (Binascii.hexlify bs) "" = false.
Proof. destruct bs as [|b bs]; [congruence|]. reflexivity. Qed.

Lemma Forall_is_byte (bs : list Z) :
  forallb (fun b => (0 <=? b) && (b <? 256)) bs = true -> Forall is_byte bs.
Proof.
  rewrite forallb_forall, Forall_forall. intros Hb b Hin.
  specialize (Hb b Hin). unfold is_byte. lia.
Qed.

Section SignatureProofs.
Context `{Externals}.

(** X6. A transaction signed with the key pair of its sender is valid, whenever
    its amount is positive and its fee is not negative.  What is asked of
    the ECDSA library is stated for the key and the signature at hand: the
    encodings are non-empty byte strings, the public key is read back from
    its encoding, and the signature verifies. *)
Theorem signed_transaction_valid (tx : Transaction.t) (keypair : KeyPair.t) (k : Z) :
  let vk := KeyPair.public_key keypair in
  let digest := KeyPair.sha256_digest (Transaction.message tx) in
  let sig := sign_digest (KeyPair.private_key keypair) k digest in
  Transaction.sender tx = KeyPair.get_address keypair ->
  F.leb (Transaction.amount tx) F.zero = false ->
  F.ltb (Transaction.fee tx) F.zero = false ->
  vk_to_string vk <> [] -> Forall is_byte (vk_to_string vk) ->
  sig <> [] -> Forall is_byte sig ->
  vk_from_string (vk_to_string vk) = Some vk ->
  verify_digest vk sig digest = Some true ->
  Transaction.is_valid (Transaction.sign tx keypair k) = true.
Proof.
  intros vk digest sig Hs Ha Hf Hvk0 Hvkb Hsig0 Hsigb Hfrom Hver.
  unfold Transaction.is_valid, Transaction.sign.
  cbn [Transaction.amount Transaction.fee Transaction.sender].
  rewrite Ha, Hf.
  destruct (String.eqb (Transaction.sender tx) "COINBASE"); [reflexivity|].
  unfold Transaction.verify_signature.
  cbn [Transaction.signature Transaction.public_key Transaction.sender
       Transaction.to_dict Transaction.recipient Transaction.amount Transaction.fee
       Transaction.timestamp].
  change (Json.dumps_default (Json.JObj _)) with (Transaction.message tx).
  assert (Hsg : KeyPair.sign keypair k (Transaction.message tx) = Binascii.hexlify sig)
    by reflexivity.
  assert (Hpk : KeyPair.export_public_key keypair = Binascii.hexlify (vk_to_string vk))
    by reflexivity.
  rewrite Hsg, Hpk.
  rewrite (hexlify_not_empty _ Hvk0), (hexlify_not_empty _ Hsig0). cbn [orb].
  unfold KeyPair.verify. rewrite (unhexlify_hexlify _ Hvkb), Hfrom.
  change (KeyPair.address_of vk) with (KeyPair.get_address keypair).
  rewrite <- Hs, String.eqb_refl. cbn [negb].
  change (KeyPair.sha256_digest (Transaction.message tx)) with digest.
  rewrite (unhexlify_hexlify _ Hsigb), Hver. reflexivity.
Qed.

(** X7. A transaction whose sender is not the address of the signing key pair
    (and is not COINBASE) is not valid after [sign], whatever the
    signature: [verify] compares the address derived from the public key
    with the sender before it looks at the signature.  The library is
    asked only that a key read back from an encoding has that encoding. *)
Theorem foreign_signature_rejected (tx : Transaction.t) (keypair : KeyPair.t) (k : Z) :
  let vk := KeyPair.public_key keypair in
  Transaction.sender tx <> "COINBASE" ->
  Transaction.sender tx <> KeyPair.get_address keypair ->
  Forall is_byte (vk_to_string vk) ->
  (forall vk', vk_from_string (vk_to_string vk) = Some vk' ->
               vk_to_string vk' = vk_to_string vk) ->
  Transaction.is_valid (Transaction.sign tx keypair k) = false.
Proof.
  intros vk Hc Hs Hvkb Hfrom.
  unfold Transaction.is_valid, Transaction.sign.
  cbn [Transaction.amount Transaction.fee Transaction.sender].
  destruct (F.leb (Transaction.amount tx) F.zero); [reflexivity|].
  destruct (F.ltb (Transaction.fee tx) F.zero); [reflexivity|].
  apply String.eqb_neq in Hc. rewrite Hc.
  unfold Transaction.verify_signature.
  cbn [Transaction.signature Transaction.public_key Transaction.sender].
  match goal with |- (if ?c then _ else _) = _ => destruct c; [reflexivity|] end.
  assert (Hpk : KeyPair.export_public_key keypair = Binascii.hexlify (vk_to_string vk))
    by reflexivity.
  unfold KeyPair.verify. rewrite Hpk, (unhexlify_hexlify _ Hvkb).
  destruct (vk_from_string (vk_to_string vk)) as [vk'|] eqn:E; [|reflexivity].
  unfold KeyPair.address_of. rewrite (Hfrom vk' eq_refl).
  assert (Had : KeyPair.get_address keypair
                = Binascii.hexlify
                    (ripemd160 (flat_map (SHA256.be_bytes 4)
                                  (SHA256.digest_words (vk_to_string vk)))))
    by reflexivity.
  rewrite <- Had.
  assert (Hne : String.eqb (KeyPair.get_address keypair) (Transaction.sender tx) = false).
  { apply String.eqb_neq. congruence. }
  rewrite Hne. reflexivity.
Qed.

End SignatureProofs.

(** The theorem at the payment of the examples, signed by its sender. *)
Lemma signed_transaction_valid_witness :
  @Transaction.is_valid Sample.externals Sample.payment = true.
Proof.
  apply (@signed_transaction_valid Sample.externals
           (@Transaction.init Sample.externals Sample.alice "bob" Sample.ten F.one
              Block.genesis_time "" "" "")
           Sample.keypair 67890).
  - vm_compute. reflexivity.
  - vm_compute. reflexivity.
  - vm_compute. reflexivity.
  - vm_compute. discriminate.
  - apply Forall_is_byte. vm_compute. reflexivity.
  - vm_compute. discriminate.
  - apply Forall_is_byte. vm_compute. reflexivity.
  - vm_compute. reflexivity.
  - vm_compute. reflexivity.
Defined.

(** The theorem at a payment that names "mallory" as its sender and is
    signed with the key of the examples. *)
Lemma foreign_signature_rejected_witness :
  @Transaction.is_valid Sample.externals
    (@Transaction.sign Sample.externals
       (@Transaction.init Sample.externals "mallory" "bob" Sample.ten F.one
          Block.genesis_time "" "" "")
       Sample.keypair 67890) = false.
Proof.
  apply (@foreign_signature_rejected Sample.externals).
  - vm_compute. discriminate.
  - vm_compute. discriminate.
  - apply Forall_is_byte. vm_compute. reflexivity.
  - intros vk' E. vm_compute in E. injection E as <-. vm_compute. reflexivity.
Defined.

(** ** The mempool: what the balance check does not see *)

(** Whatever [x] is, [max(x, 0.00000001)] is not [<= 0]. *)
Lemma floor_not_le_zero (x : spec_float) :
  F.leb (F.max x F.lit_1em8) F.zero = false.
Proof.
  unfold F.max.
  destruct (F.ltb x F.lit_1em8) eqn:Hlt; [reflexivity|].
  destruct x as [[|] | [|] | | [|] m e]; try reflexivity;
    lazy in Hlt; discriminate Hlt.
Qed.

Section MempoolEdges.
Context `{Externals}.

(** X8. A transaction whose sender is COINBASE enters the mempool on the
    strength of its numbers alone: it is turned away exactly when
    [amount <= 0] holds, when [fee < 0] holds, or when a pending
    transaction has its [tx_hash], and is taken in otherwise; neither a
    signature nor a balance is looked at.  Both comparisons are false on a
    NaN, so a NaN amount or fee does not turn it away. *)
Theorem coinbase_sender_enters_mempool (bc : Blockchain.t) (tx : Transaction.t) :
  Transaction.sender tx = "COINBASE" ->
  let rejected :=
    F.leb (Transaction.amount tx) F.zero = true \/
    F.ltb (Transaction.fee tx) F.zero = true \/
    (exists p, In p (Blockchain.pending_transactions bc) /\
               Transaction.tx_hash p = Transaction.tx_hash tx) in
  (rejected -> Blockchain.add_transaction bc tx = (false, bc)) /\
  (~ rejected -> Blockchain.add_transaction bc tx = (true, with_pending bc tx)).
Proof.
  intros Hs rejected. subst rejected.
  unfold Blockchain.add_transaction, Transaction.is_valid. rewrite Hs.
  cbn [String.eqb Ascii.eqb Bool.eqb negb andb].
  destruct (F.leb (Transaction.amount tx) F.zero) eqn:Ha; cbn [negb].
  1:{ split; [reflexivity | intros Hn; exfalso; apply Hn; auto]. }
  destruct (F.ltb (Transaction.fee tx) F.zero) eqn:Hf; cbn [negb].
  1:{ split; [reflexivity | intros Hn; exfalso; apply Hn; auto]. }
  destruct (existsb _ (Blockchain.pending_transactions bc)) eqn:Hd.
  - split; [reflexivity | intros Hn; exfalso; apply Hn].
    right; right. apply existsb_tx_hash. exact Hd.
  - split; [| reflexivity].
    intros [Hc | [Hc | Hc]]; try discriminate.
    apply existsb_tx_hash in Hc. congruence.
Qed.

(** X9. A transaction whose amount or fee is NaN is never turned away for its
    balance: the comparison [sender_balance < required] is false on a NaN.
    Such a transaction with a valid signature is admitted whatever the
    sender holds, unless its [tx_hash] is pending. *)
Theorem nan_cost_skips_balance_check (bc : Blockchain.t) (tx : Transaction.t) :
  Transaction.amount tx = S754_nan \/ Transaction.fee tx = S754_nan ->
  Transaction.is_valid tx = true ->
  (forall p, In p (Blockchain.pending_transactions bc) ->
             Transaction.tx_hash p <> Transaction.tx_hash tx) ->
  Blockchain.add_transaction bc tx = (true, with_pending bc tx).
Proof.
  intros Hnan Hv Hd.
  unfold Blockchain.add_transaction. rewrite Hv. cbn [negb].
  assert (Hc : F.add (Transaction.amount tx) (Transaction.fee tx) = S754_nan).
  { destruct Hnan as [-> | ->]; [reflexivity|].
    destruct (Transaction.amount tx); reflexivity. }
  rewrite Hc.
  assert (Hlt : forall x, F.ltb x S754_nan = false).
  { intros x. destruct x; reflexivity. }
  rewrite Hlt, andb_false_r.
  destruct (existsb _ (Blockchain.pending_transactions bc)) eqn:E; [|reflexivity].
  apply existsb_tx_hash in E. destruct E as (p & Hin & Hp).
  exfalso. exact (Hd p Hin Hp).
Qed.

(** X10. Duplicates are told by the stored [tx_hash], which nothing compares
    with the contents: neither [is_valid] nor the balance check reads it.
    A valid transaction that the sender can pay for is admitted under any
    [tx_hash] that is not pending, also when the same transfer is pending
    under another hash. *)
Theorem stored_hash_decides_duplicates (bc : Blockchain.t) (tx : Transaction.t)
  (h : string) :
  Transaction.is_valid tx = true ->
  Transaction.sender tx = "COINBASE" \/
    F.ltb (Blockchain.get_balance bc (Transaction.sender tx)) (cost tx) = false ->
  (forall p, In p (Blockchain.pending_transactions bc) -> Transaction.tx_hash p <> h) ->
  Transaction.is_valid (with_tx_hash tx h) = true /\
  Blockchain.add_transaction bc (with_tx_hash tx h)
  = (true, with_pending bc (with_tx_hash tx h)).
Proof.
  intros Hv Hb Hd.
  assert (Hv' : Transaction.is_valid (with_tx_hash tx h) = true) by exact Hv.
  split; [exact Hv'|].
  unfold Blockchain.add_transaction. rewrite Hv'. cbn [negb].
  change (Transaction.sender (with_tx_hash tx h)) with (Transaction.sender tx).
  change (Transaction.amount (with_tx_hash tx h)) with (Transaction.amount tx).
  change (Transaction.fee (with_tx_hash tx h)) with (Transaction.fee tx).
  change (Transaction.tx_hash (with_tx_hash tx h)) with h.
  fold (cost tx).
  assert (Hc : negb (String.eqb (Transaction.sender tx) "COINBASE")
               && F.ltb (Blockchain.get_balance bc (Transaction.sender tx)) (cost tx)
               = false).
  { destruct Hb as [-> | ->]; [reflexivity | apply andb_false_r]. }
  rewrite Hc.
  destruct (existsb _ (Blockchain.pending_transactions bc)) eqn:E; [|reflexivity].
  apply existsb_tx_hash in E. destruct E as (p & Hin & Hp).
  exfalso. exact (Hd p Hin Hp).
Qed.

(** X11. The coinbase that pays the block reward is a valid transaction on every
    chain for which the reward is defined: the floor of the reward keeps
    the test [amount <= 0] from firing. *)
Theorem reward_coinbase_valid (bc : Blockchain.t) (reward : spec_float)
  (miner_address : string) (block_height : Z) (now : spec_float) :
  Blockchain.get_block_reward bc = Some reward ->
  F.leb reward F.zero = false /\
  Transaction.is_valid
    (Transaction.create_coinbase miner_address reward block_height now) = true.
Proof.
  unfold Blockchain.get_block_reward, Blockchain.block_reward_at.
  destruct (F.of_int _) as [d|]; [|discriminate].
  destruct (F.div F.fifty d) as [x|]; [|discriminate].
  intros E. injection E as <-.
  pose proof (floor_not_le_zero x) as Hn.
  split; [exact Hn|].
  unfold Transaction.create_coinbase, Transaction.init.
  change (String.eqb "" "") with true. cbv iota.
  unfold Transaction.is_valid.
  cbn [Transaction.amount Transaction.fee Transaction.sender].
  rewrite Hn.
  change (F.ltb F.zero F.zero) with false. cbv iota.
  change (String.eqb "COINBASE" "COINBASE") with true. cbv iota.
  reflexivity.
Qed.

End MempoolEdges.

Lemma coinbase_sender_enters_mempool_witness :
  Transaction.sender Sample.coinbase = "COINBASE" /\
  @Blockchain.add_transaction Sample.externals sample_chain Sample.coinbase
  = (true, with_pending sample_chain Sample.coinbase).
Proof.
  assert (Hs : Transaction.sender Sample.coinbase = "COINBASE") by reflexivity.
  split; [exact Hs|].
  apply (@coinbase_sender_enters_mempool Sample.externals sample_chain Sample.coinbase Hs).
  vm_compute. intros [Hc | [Hc | (p & [] & _)]]; discriminate Hc.
Defined.

(** The theorem at a signed payment of NaN from an address that holds
    nothing: it is admitted. *)
Lemma nan_cost_skips_balance_check_witness :
  @Blockchain.get_balance empty_handed_chain (Transaction.sender Sample.nan_payment)
  = F.zero /\
  @Blockchain.add_transaction Sample.externals empty_handed_chain Sample.nan_payment
  = (true, with_pending empty_handed_chain Sample.nan_payment).
Proof.
  split; [vm_compute; reflexivity|].
  apply (@nan_cost_skips_balance_check Sample.externals empty_handed_chain
           Sample.nan_payment).
  - left. vm_compute. reflexivity.
  - vm_compute. reflexivity.
  - intros p [].
Defined.

(** The theorem at the payment of the examples, pending already, and
    offered again under another hash. *)
Lemma stored_hash_decides_duplicates_witness :
  @Blockchain.add_transaction Sample.externals
    (with_pending sample_chain Sample.payment) (with_tx_hash Sample.payment "another")
  = (true, with_pending (with_pending sample_chain Sample.payment)
             (with_tx_hash Sample.payment "another")).
Proof.
  apply (@stored_hash_decides_duplicates Sample.externals
           (with_pending sample_chain Sample.payment) Sample.payment "another").
  - vm_compute. reflexivity.
  - right. vm_compute. reflexivity.
  - intros p [<- | []]. vm_compute. discriminate.
Defined.

Lemma reward_coinbase_valid_witness :
  @Blockchain.get_block_reward sample_chain = Some F.fifty /\
  @Transaction.is_valid Sample.externals
    (@Transaction.create_coinbase Sample.externals "miner" F.fifty 1 Block.genesis_time)
  = true.
Proof.
  assert (Hr : @Blockchain.get_block_reward sample_chain = Some F.fifty)
    by (vm_compute; reflexivity).
  split; [exact Hr|].
  apply (@reward_coinbase_valid Sample.externals sample_chain F.fifty "miner" 1
           Block.genesis_time Hr).
Defined.
(** ** Records written to dictionaries and read back *)

Section DictionaryProofs.
Context `{Externals}.

(** X12. [to_dict] leaves [tx_hash] out, and the constructor called by
    [from_dict] fills an empty [tx_hash] with the hash of the contents.  A
    transaction that goes through [to_dict] and [from_dict] comes back with
    its seven other fields as they were and with the hash of its contents
    as [tx_hash]; it comes back unchanged exactly when it held that hash. *)
Theorem transaction_dict_round_trip (tx : Transaction.t) :
  Transaction.from_dict (Json.dict (Transaction.to_dict tx true))
  = Json.Built (with_tx_hash tx (Transaction.calculate_hash tx)) /\
  (Transaction.from_dict (Json.dict (Transaction.to_dict tx true)) = Json.Built tx
   <-> Transaction.tx_hash tx = Transaction.calculate_hash tx).
Proof.
  assert (E : Transaction.from_dict (Json.dict (Transaction.to_dict tx true))
              = Json.Built (with_tx_hash tx (Transaction.calculate_hash tx))).
  { destruct tx as [s r a f t sg pk h].
    unfold Transaction.from_dict, Json.item, Json.get.
    set (d := Json.dict _).
    assert (H1 : d !! "sender" = Some (Json.JStr s)) by (vm_compute; reflexivity).
    assert (H2 : d !! "recipient" = Some (Json.JStr r)) by (vm_compute; reflexivity).
    assert (H3 : d !! "amount" = Some (Json.JFloat a)) by (vm_compute; reflexivity).
    assert (H4 : d !! "fee" = Some (Json.JFloat f)) by (vm_compute; reflexivity).
    assert (H5 : d !! "timestamp" = Some (Json.JFloat t)) by (vm_compute; reflexivity).
    assert (H6 : d !! "signature" = Some (Json.JStr sg)) by (vm_compute; reflexivity).
    assert (H7 : d !! "public_key" = Some (Json.JStr pk)) by (vm_compute; reflexivity).
    assert (H8 : d !! "tx_hash" = None) by (vm_compute; reflexivity).
    rewrite H1, H2, H3, H4, H5, H6, H7, H8.
    reflexivity. }
  split; [exact E|].
  rewrite E. split.
  - intros Hb. injection Hb as Hb. rewrite <- Hb at 1. reflexivity.
  - intros Hh. rewrite <- Hh. destruct tx; reflexivity.
Qed.

(** X13. [from_dict] raises [KeyError] for the first of the five required keys
    that the dictionary lacks, in the order sender, recipient, amount, fee,
    timestamp; the three other keys may be absent. *)
Theorem transaction_from_dict_missing_key (data : gmap string Json.value)
  (before after : list string) (key : string) :
  ["sender"; "recipient"; "amount"; "fee"; "timestamp"] = (before ++ key :: after)%list ->
  (forall k, In k before -> data !! k <> None) ->
  data !! key = None ->
  Transaction.from_dict data = Json.KeyError key.
Proof.
  intros Hk Hb Hm.
  unfold Transaction.from_dict, Json.item.
  repeat
    (destruct before as [|k0 before]; cbn [app] in Hk;
     [ injection Hk as <- _; rewrite Hm; reflexivity
     | injection Hk as <- Hk;
       match type of Hb with
       | forall k, In k (?k1 :: _) -> _ =>
           destruct (data !! k1) eqn:E0;
           [ cbn [Json.bind]
           | exfalso; apply (Hb k1); [left; reflexivity | exact E0] ]
       end;
       assert (Hb' : forall k, In k before -> data !! k <> None)
         by (intros k Hin; apply Hb; right; exact Hin);
       clear Hb; rename Hb' into Hb; clear E0 ]).
  destruct before; cbn in Hk; discriminate Hk.
Qed.

End DictionaryProofs.

(** X14. A proof of work goes through [to_dict] and [from_dict] unchanged. *)
Theorem fractal_proof_dict_round_trip (p : FractalProof.t) :
  FractalProof.from_dict (Json.dict (FractalProof.to_dict p)) = Json.Built p.
Proof.
  destruct p as [n s re im dm fh t].
  unfold FractalProof.from_dict, Json.item.
  set (d := Json.dict _).
  assert (H1 : d !! "nonce" = Some (Json.JInt n)) by (vm_compute; reflexivity).
  assert (H2 : d !! "fractal_seed" = Some (Json.JStr s)) by (vm_compute; reflexivity).
  assert (H3 : d !! "solution_point_real" = Some (Json.JFloat re)) by (vm_compute; reflexivity).
  assert (H4 : d !! "solution_point_imag" = Some (Json.JFloat im)) by (vm_compute; reflexivity).
  assert (H5 : d !! "fractal_dimension" = Some (Json.JFloat dm)) by (vm_compute; reflexivity).
  assert (H6 : d !! "fractal_data_hash" = Some (Json.JStr fh)) by (vm_compute; reflexivity).
  assert (H7 : d !! "timestamp" = Some (Json.JFloat t)) by (vm_compute; reflexivity).
  rewrite H1, H2, H3, H4, H5, H6, H7.
  reflexivity.
Qed.

(** The theorem at a dictionary that holds a sender and a recipient only. *)
Lemma transaction_from_dict_missing_key_witness :
  @Transaction.from_dict Sample.externals
    (Json.dict (Json.JObj [("sender", Json.JStr "a"); ("recipient", Json.JStr "b")]))
  = Json.KeyError "amount".
Proof.
  apply (@transaction_from_dict_missing_key Sample.externals _
           ["sender"; "recipient"] ["fee"; "timestamp"] "amount").
  - reflexivity.
  - intros k [<- | [<- | []]]; vm_compute; discriminate.
  - vm_compute. reflexivity.
Defined.
(** ** Blocks: what the hashes cover *)

Lemma substring_0_0 (s : string) : String.substring 0 0 s = "".
Proof. destruct s; reflexivity. Qed.

(** With fewer than 4 difficulty bits the pre-filter asks for no leading
    zero and accepts every hash of 64 hexadecimal digits. *)
Lemma prefilter_small_bits `{Externals} (s : string) (bits : Z) :
  Py.is_hex s = true -> Py.len s = 64 -> 0 <= bits < 4 ->
  FractalProofOfWork.verify_header_hash s bits = Some true.
Proof.
  intros Hhex Hlen Hbits.
  assert (Hne : s <> "") by (intros ->; discriminate Hlen).
  destruct (int16_hex s Hhex Hne) as (v & Hv & _).
  unfold FractalProofOfWork.verify_header_hash. rewrite Hv.
  assert (Hshl : Py.one_shl (256 - bits) = Some (Z.shiftl 1 (256 - bits))).
  { unfold Py.one_shl. destruct (Z.ltb_spec (256 - bits) 0); [lia | reflexivity]. }
  rewrite Hshl.
  assert (Hz : bits / 4 = 0) by (apply Z.div_small; lia).
  rewrite Hz.
  assert (Hs : Py.slice_to s 0 = "").
  { unfold Py.slice_to, Py.slice, Py.clip. rewrite Hlen. cbn. apply substring_0_0. }
  rewrite Hs.
  destruct (Py.bit_length v =? 256 - bits); reflexivity.
Qed.

Section BlockHashProofs.
Context `{Externals}.

(** X15. The header hash reads the index, the timestamp, the previous hash,
    the Merkle root, the miner address and, of the proof, the nonce alone.
    Two blocks that agree on these have the same header hash, whatever
    their transactions, block hash, difficulty fields and the rest of
    their proofs; with equal difficulty bits they fare alike in
    [quick_verify].  So the header hash that the miner tests with a
    provisional proof is the one of the finished block. *)
Theorem header_hash_covers (b b' : Block.t) :
  header_of b = header_of b' ->
  Block.calculate_header_hash b = Block.calculate_header_hash b' /\
  (Block.header_difficulty_bits b = Block.header_difficulty_bits b' ->
   BlockVerifier.quick_verify b = BlockVerifier.quick_verify b').
Proof.
  unfold header_of. intros E. injection E as Hi Ht Hp Hm Ha Hn.
  assert (Hh : Block.calculate_header_hash b = Block.calculate_header_hash b').
  { unfold Block.calculate_header_hash, Block.header_fields.
    rewrite Hi, Ht, Hp, Hm, Ha.
    destruct (Block.fractal_proof b), (Block.fractal_proof b'); cbn in Hn;
      try discriminate Hn; [|reflexivity].
    injection Hn as ->. reflexivity. }
  split; [exact Hh|].
  intros Hb. unfold BlockVerifier.quick_verify. rewrite Hi, Hh, Hb.
  destruct (Block.fractal_proof b), (Block.fractal_proof b'); cbn in Hn;
    try discriminate Hn; reflexivity.
Qed.

(** X16. No hash covers the two difficulty fields of a block, and [is_valid]
    does not read them: a block stays as valid as it was under any other
    values.  As the verifier takes the difficulty from the block under
    test, a block that carries a proof and declares fewer than 4 difficulty
    bits passes [quick_verify] whatever its header hash. *)
Theorem difficulty_self_declared (b : Block.t) (difficulty_target : spec_float)
  (bits : Z) (previous_block : option Block.t) :
  let b' := with_difficulty b difficulty_target bits in
  Block.calculate_hash b' = Block.calculate_hash b /\
  Block.calculate_header_hash b' = Block.calculate_header_hash b /\
  Block.is_valid b' previous_block = Block.is_valid b previous_block /\
  (Block.fractal_proof b <> None -> 0 <= bits < 4 ->
   BlockVerifier.quick_verify b' = Some true).
Proof.
  cbv zeta. split; [reflexivity|]. split; [reflexivity|]. split; [reflexivity|].
  intros Hp Hbits. unfold BlockVerifier.quick_verify.
  change (Block.index (with_difficulty b difficulty_target bits)) with (Block.index b).
  change (Block.fractal_proof (with_difficulty b difficulty_target bits))
    with (Block.fractal_proof b).
  change (Block.header_difficulty_bits (with_difficulty b difficulty_target bits))
    with bits.
  destruct (Block.index b =? 0); [reflexivity|].
  destruct (Block.fractal_proof b) as [p|]; [|congruence].
  apply prefilter_small_bits; [| | exact Hbits];
    unfold Block.calculate_header_hash, CryptoUtils.hash_object, CryptoUtils.sha256;
    apply hexdigest_hex.
Qed.

End BlockHashProofs.

(** The Merkle root at the edges.  [Block.calculate_merkle_root] is
    [compute_merkle_root] of the stored transaction hashes, also for a
    block without transactions, where both give the SHA-256 of the empty
    byte string, while the constructor of the tree refuses an empty list;
    over one hash the root is that hash itself, nothing is hashed. *)
Lemma merkle_root_edge_cases :
  (forall b : Block.t,
     Block.calculate_merkle_root b
     = compute_merkle_root (map Transaction.tx_hash (Block.transactions b))) /\
  compute_merkle_root []
  = Some "e3b0c44298fc1c149afbf4c8996fb92427ae41e4649b934ca495991b7852b855" /\
  MerkleTree.new [] = None /\
  (forall h : string, compute_merkle_root [h] = Some h).
Proof.
  split; [|split; [|split]].
  - intros b. unfold Block.calculate_merkle_root.
    destruct (Block.transactions b); reflexivity.
  - vm_compute. reflexivity.
  - reflexivity.
  - intros h. reflexivity.
Qed.

Section ConstructorProofs.
Context `{Externals}.

Lemma hexdigest_not_empty (s : string) : String.eqb "" (SHA256.hexdigest s) = false.
Proof.
  destruct (hexdigest_hex s) as [_ Hl].
  destruct (SHA256.hexdigest s); [discriminate Hl | reflexivity].
Qed.

(** X17. A block built by the constructor from empty [merkle_root] and
    [block_hash], at an index other than 0.  Its Merkle root is the one
    that [is_valid] recomputes.  When a proof is passed the block hash is
    set too, and the verdict of [is_valid] rests on the link, the
    transactions and the count of coinbases; without a proof the block hash
    stays empty and [is_valid] is false. *)
Theorem constructed_block (index : Z) (timestamp : spec_float)
  (transactions : list Transaction.t) (previous_hash miner_address : string)
  (fractal_proof : option FractalProof.t) (difficulty_target : spec_float)
  (header_difficulty_bits : Z) (previous_block : option Block.t) :
  index <> 0 ->
  exists b,
    Block.init index timestamp transactions previous_hash miner_address fractal_proof
               "" "" difficulty_target header_difficulty_bits = Some b /\
    Block.calculate_merkle_root b = Some (Block.merkle_root b) /\
    match fractal_proof with
    | Some _ =>
        Block.block_hash b = Block.calculate_hash b /\
        Block.is_valid b previous_block
        = Some (links_tob b previous_block
                && forallb Transaction.is_valid transactions
                && (List.length (Block.coinbase_txs b) =? 1)%nat)
    | None =>
        Block.block_hash b = "" /\ Block.is_valid b previous_block = Some false
    end.
Proof.
  intros Hi.
  set (b0 := Block.mk index timestamp transactions previous_hash miner_address
               fractal_proof "" "" difficulty_target header_difficulty_bits).
  destruct (calculate_merkle_root_total b0) as [mr Hmr].
  unfold Block.init. fold b0. cbn [String.eqb]. rewrite Hmr.
  eexists. split; [reflexivity|].
  match goal with |- Block.calculate_merkle_root ?b = _ /\ _ =>
    assert (Hmr' : Block.calculate_merkle_root b = Some mr) by exact Hmr;
    assert (Hidx : Block.index b <> 0) by exact Hi
  end.
  split; [exact Hmr'|].
  destruct fractal_proof as [p|].
  - cbn [andb]. split; [reflexivity|].
    rewrite (is_valid_unfold _ previous_block mr Hidx Hmr').
    cbn [Block.merkle_root Block.block_hash Block.transactions].
    rewrite !String.eqb_refl, !andb_true_r. reflexivity.
  - cbn [andb]. split; [reflexivity|].
    rewrite (is_valid_unfold _ previous_block mr Hidx Hmr').
    cbn [Block.block_hash].
    unfold Block.calculate_hash, CryptoUtils.hash_object, CryptoUtils.sha256.
    rewrite hexdigest_not_empty, andb_false_r. reflexivity.
Qed.

End ConstructorProofs.

(** The theorem at a candidate block with a provisional proof and at the
    block finished from it. *)
Lemma header_hash_covers_witness :
  let candidate :=
    Block.mk 1 Block.genesis_time [] "prev" "miner"
      (Some (FractalProof.mk 7 "seed" F.zero F.zero F.zero "" Block.genesis_time))
      "root" "" F.lit_1_5 16 in
  let finished :=
    Block.mk 1 Block.genesis_time [] "prev" "miner"
      (Some (FractalProof.mk 7 "seed" F.one F.one F.lit_1_5 "data" F.fifty))
      "root" "hash" F.lit_1_5 16 in
  @Block.calculate_header_hash Sample.externals candidate
  = @Block.calculate_header_hash Sample.externals finished.
Proof.
  cbv zeta. apply (@header_hash_covers Sample.externals). reflexivity.
Defined.

(** The theorem at a block of the examples with a proof added, declaring
    no difficulty bits. *)
Lemma difficulty_self_declared_witness :
  let b :=
    Block.mk 1 Block.genesis_time [] "prev" "miner"
      (Some (FractalProof.mk 7 "seed" F.zero F.zero F.zero "" Block.genesis_time))
      "root" "" F.lit_1_5 16 in
  @BlockVerifier.quick_verify Sample.externals (with_difficulty b F.two 0) = Some true.
Proof.
  cbv zeta.
  apply (@difficulty_self_declared Sample.externals _ F.two 0 None);
    [discriminate | lia].
Defined.

Lemma constructed_block_witness :
  exists b,
    @Block.init Sample.externals 1 Block.genesis_time [Sample.coinbase] "prev" "miner"
      None "" "" F.lit_1_5 16 = Some b /\
    Block.block_hash b = "" /\
    @Block.is_valid Sample.externals b None = Some false.
Proof.
  destruct (@constructed_block Sample.externals 1 Block.genesis_time [Sample.coinbase]
              "prev" "miner" None F.lit_1_5 16 None) as (b & Hb & _ & Hh & Hv);
    [discriminate|].
  exists b. auto.
Defined.
(** ** Balances after a block *)

(** The debit of [update_balance] as one insertion. *)
Lemma debit_insert (balances : gmap string spec_float) (a : string) (c : spec_float) :
  (let balances' :=
     match balances !! a with
     | None => <[a := F.zero]> balances
     | Some _ => balances
     end in
   <[a := F.sub (default F.zero (balances' !! a)) c]> balances')
  = <[a := F.sub (default F.zero (balances !! a)) c]> balances.
Proof.
  cbv zeta. destruct (balances !! a) as [v|] eqn:E.
  - rewrite E. reflexivity.
  - rewrite lookup_insert_eq, insert_insert_eq. reflexivity.
Qed.

Lemma credit_insert (balances : gmap string spec_float) (a : string) (c : spec_float) :
  (let balances' :=
     match balances !! a with
     | None => <[a := F.zero]> balances
     | Some _ => balances
     end in
   <[a := F.add (default F.zero (balances' !! a)) c]> balances')
  = <[a := F.add (default F.zero (balances !! a)) c]> balances.
Proof.
  cbv zeta. destruct (balances !! a) as [v|] eqn:E.
  - rewrite E. reflexivity.
  - rewrite lookup_insert_eq, insert_insert_eq. reflexivity.
Qed.

(** Whether the loop of [_update_balances] debits the sender. *)
Lemma update_balance_eq (balances : gmap string spec_float) (tx : Transaction.t) :
  Blockchain.update_balance balances tx =
  let debited :=
    if negb (String.eqb (Transaction.sender tx) "COINBASE")
       && negb (String.eqb (Transaction.sender tx) "GENESIS")
    then <[Transaction.sender tx :=
             F.sub (default F.zero (balances !! Transaction.sender tx)) (cost tx)]> balances
    else balances in
  <[Transaction.recipient tx :=
      F.add (default F.zero (debited !! Transaction.recipient tx))
            (Transaction.amount tx)]> debited.
Proof.
  unfold Blockchain.update_balance. cbv zeta.
  destruct (negb (String.eqb (Transaction.sender tx) "COINBASE")
            && negb (String.eqb (Transaction.sender tx) "GENESIS")).
  - pose proof (debit_insert balances (Transaction.sender tx) (cost tx)) as Hd.
    cbv zeta in Hd. unfold cost in Hd. rewrite Hd.
    apply (credit_insert _ (Transaction.recipient tx) (Transaction.amount tx)).
  - apply (credit_insert _ (Transaction.recipient tx) (Transaction.amount tx)).
Qed.

(** X18. The balances after the transactions of a block.  An address that is
    neither sender nor recipient of any of them keeps what it had (or stays
    absent); no address leaves the dictionary; every recipient is in it. *)
Theorem balances_after_block (txs : list Transaction.t)
  (balances : gmap string spec_float) :
  let balances' := fold_left Blockchain.update_balance txs balances in
  (forall a, (forall tx, In tx txs ->
                Transaction.sender tx <> a /\ Transaction.recipient tx <> a) ->
             balances' !! a = balances !! a) /\
  (forall a, is_Some (balances !! a) -> is_Some (balances' !! a)) /\
  (forall tx, In tx txs -> is_Some (balances' !! Transaction.recipient tx)).
Proof.
  cbv zeta.
  assert (Hframe1 : forall b tx a,
            Transaction.sender tx <> a -> Transaction.recipient tx <> a ->
            Blockchain.update_balance b tx !! a = b !! a).
  { intros b tx a Hs Hr. rewrite update_balance_eq. cbv zeta.
    rewrite lookup_insert_ne by exact Hr.
    destruct (_ && _); [|reflexivity].
    rewrite lookup_insert_ne by exact Hs. reflexivity. }
  assert (Hkeep1 : forall b tx a,
            is_Some (b !! a) -> is_Some (Blockchain.update_balance b tx !! a)).
  { intros b tx a Ha. rewrite update_balance_eq. cbv zeta.
    apply lookup_insert_is_Some.
    destruct (decide (Transaction.recipient tx = a)) as [|Hr]; [left; assumption|].
    right. split; [exact Hr|].
    destruct (_ && _); [|exact Ha].
    apply lookup_insert_is_Some.
    destruct (decide (Transaction.sender tx = a)) as [|Hs]; [left; assumption|].
    right. split; [exact Hs | exact Ha]. }
  assert (Hkeep : forall l b a,
            is_Some (b !! a) -> is_Some (fold_left Blockchain.update_balance l b !! a)).
  { induction l as [|tx l IH]; intros b a Ha; [exact Ha|].
    cbn [fold_left]. apply IH, Hkeep1, Ha. }
  split; [|split].
  - revert balances. induction txs as [|tx txs IH]; intros balances a Ha; [reflexivity|].
    cbn [fold_left]. rewrite IH.
    + destruct (Ha tx (or_introl eq_refl)) as [Hs Hr]. apply Hframe1; assumption.
    + intros tx' Hin. apply Ha. right. exact Hin.
  - intros a. apply Hkeep.
  - revert balances. induction txs as [|tx txs IH]; intros balances tx' Hin;
      [destruct Hin|].
    cbn [fold_left]. destruct Hin as [<- | Hin].
    + apply Hkeep. rewrite update_balance_eq. cbv zeta.
      rewrite lookup_insert_eq. eauto.
    + apply IH. exact Hin.
Qed.

(** X19. One payment between two different addresses.  The sender is debited
    [amount + fee], whatever it holds, and an absent sender counts as
    holding 0.0, so that the entry may turn negative; the recipient is
    credited [amount]; the fee is credited to nobody.  A sender called
    COINBASE or GENESIS is not debited. *)
Theorem payment_moves_balances (balances : gmap string spec_float)
  (tx : Transaction.t) :
  Transaction.sender tx <> Transaction.recipient tx ->
  let balances' := Blockchain.update_balance balances tx in
  balances' !! Transaction.recipient tx
  = Some (F.add (default F.zero (balances !! Transaction.recipient tx))
                (Transaction.amount tx)) /\
  (Transaction.sender tx <> "COINBASE" -> Transaction.sender tx <> "GENESIS" ->
   balances' !! Transaction.sender tx
   = Some (F.sub (default F.zero (balances !! Transaction.sender tx)) (cost tx))) /\
  (Transaction.sender tx = "COINBASE" \/ Transaction.sender tx = "GENESIS" ->
   balances' !! Transaction.sender tx = balances !! Transaction.sender tx).
Proof.
  intros Hne. cbv zeta. rewrite update_balance_eq. cbv zeta.
  split; [|split].
  - rewrite lookup_insert_eq. f_equal. f_equal.
    destruct (_ && _); [|reflexivity].
    rewrite lookup_insert_ne by exact Hne. reflexivity.
  - intros Hc Hg. apply String.eqb_neq in Hc, Hg. rewrite Hc, Hg. cbn [negb andb].
    rewrite lookup_insert_ne by congruence.
    apply lookup_insert_eq.
  - intros Hs.
    assert (Hd : negb (String.eqb (Transaction.sender tx) "COINBASE")
                 && negb (String.eqb (Transaction.sender tx) "GENESIS") = false).
    { destruct Hs as [-> | ->]; reflexivity. }
    rewrite Hd. rewrite lookup_insert_ne by congruence. reflexivity.
Qed.

Lemma balances_after_block_witness :
  fold_left Blockchain.update_balance [unsigned_grant] (<[Sample.alice := F.fifty]> ∅)
    !! Sample.alice
  = (<[Sample.alice := F.fifty]> ∅ : gmap string spec_float) !! Sample.alice.
Proof.
  apply (balances_after_block [unsigned_grant] (<[Sample.alice := F.fifty]> ∅)).
  intros tx [<- | []]. split; vm_compute; discriminate.
Defined.

(** The theorem at a payment from an address that holds nothing: its entry
    becomes 0.0 - 50.0. *)
Lemma payment_moves_balances_witness :
  Blockchain.update_balance ∅ unsigned_grant !! "mallory"
  = Some (F.add F.zero F.fifty) /\
  Blockchain.update_balance ∅ unsigned_grant !! "nobody"
  = Some (F.sub F.zero (cost unsigned_grant)).
Proof.
  assert (Hne : Transaction.sender unsigned_grant <> Transaction.recipient unsigned_grant)
    by discriminate.
  destruct (payment_moves_balances ∅ unsigned_grant Hne) as (Hr & Hs & _).
  split; [exact Hr|].
  apply Hs; discriminate.
Defined.

(** ** Blocks added to the chain *)

Section ChainProofs.
Context `{Externals} `{Blockchain.Database}.

Lemma get_latest_block_last (chain : list Block.t) (b : Block.t)
  (pending : list Transaction.t) (balances : gmap string spec_float) :
  Blockchain.get_latest_block (Blockchain.mk (chain ++ [b]) pending balances) = Some b.
Proof.
  unfold Blockchain.get_latest_block. cbn [Blockchain.chain].
  destruct (chain ++ [b])%list eqn:E; [destruct chain; discriminate E|].
  rewrite <- E, length_app. cbn [List.length].
  rewrite nth_error_app2 by lia.
  replace (List.length chain + 1 - 1 - List.length chain)%nat with O by lia.
  reflexivity.
Qed.

(** [add_block] in one piece: the previous block is the latest one, also
    on an empty chain, where there is none. *)
Lemma add_block_unfold (self : Blockchain.t) (d : Blockchain.db) (block : Block.t) :
  Blockchain.add_block self d block =
  match Block.is_valid block (Blockchain.get_latest_block self) with
  | None => Blockchain.Raised self
  | Some false => Blockchain.Returned false self d
  | Some true =>
      let chain' := (Blockchain.chain self ++ [block])%list in
      let balances' :=
        fold_left Blockchain.update_balance (Block.transactions block)
                  (Blockchain.balances self) in
      let self' := Blockchain.mk chain' (Blockchain.pending_transactions self) balances' in
      match Blockchain.save_balances balances' d with
      | None => Blockchain.Raised self'
      | Some d1 =>
          match Blockchain.save_block block d1 with
          | None => Blockchain.Raised self'
          | Some d2 =>
              Blockchain.Returned true
                (Blockchain.mk chain'
                   (filter (fun tx =>
                              bool_decide
                                (Transaction.tx_hash tx
                                 ∉ (list_to_set (map Transaction.tx_hash
                                                     (Block.transactions block))
                                    : gset string)))
                           (Blockchain.pending_transactions self))
                   balances')
                d2
          end
      end
  end.
Proof.
  unfold Blockchain.add_block.
  assert (Hp : (if (0 <? List.length (Blockchain.chain self))%nat
                then Blockchain.get_latest_block self else None)
               = Blockchain.get_latest_block self).
  { unfold Blockchain.get_latest_block.
    destruct (Blockchain.chain self); reflexivity. }
  rewrite Hp.
  destruct (Block.is_valid block (Blockchain.get_latest_block self)) as [[|]|];
    reflexivity.
Qed.

(** X20. When [add_block] returns true.  The block stands at the end of the
    chain, where [get_latest_block] and [get_block_by_index] find it and
    [get_difficulty] reads the difficulty that the block itself declares;
    the balances are those after its transactions; the mempool has lost
    exactly the transactions whose [tx_hash] is one of the block's. *)
Theorem add_block_accepted (self self' : Blockchain.t) (d d' : Blockchain.db)
  (block : Block.t) :
  Blockchain.add_block self d block = Blockchain.Returned true self' d' ->
  Block.is_valid block (Blockchain.get_latest_block self) = Some true /\
  Blockchain.chain self' = (Blockchain.chain self ++ [block])%list /\
  Blockchain.get_chain_length self' = Blockchain.get_chain_length self + 1 /\
  Blockchain.get_latest_block self' = Some block /\
  Blockchain.get_block_by_index self' (Blockchain.get_chain_length self) = Some block /\
  Blockchain.get_difficulty self'
  = (Block.difficulty_target block, Block.header_difficulty_bits block) /\
  Blockchain.balances self'
  = fold_left Blockchain.update_balance (Block.transactions block)
              (Blockchain.balances self) /\
  (forall tx, In tx (Blockchain.pending_transactions self') <->
              In tx (Blockchain.pending_transactions self) /\
              ~ In (Transaction.tx_hash tx)
                   (map Transaction.tx_hash (Block.transactions block))).
Proof.
  rewrite add_block_unfold.
  destruct (Block.is_valid block (Blockchain.get_latest_block self)) as [[|]|];
    try discriminate.
  cbv zeta.
  destruct (Blockchain.save_balances _ d) as [d1|]; [|discriminate].
  destruct (Blockchain.save_block block d1) as [d2|]; [|discriminate].
  intros E. injection E as <- <-.
  split; [reflexivity|].
  cbn [Blockchain.chain Blockchain.balances Blockchain.pending_transactions].
  split; [reflexivity|].
  split.
  { unfold Blockchain.get_chain_length. cbn [Blockchain.chain].
    rewrite length_app. cbn [List.length]. lia. }
  split; [apply get_latest_block_last|].
  split.
  { unfold Blockchain.get_block_by_index, Blockchain.get_chain_length.
    cbn [Blockchain.chain]. rewrite length_app. cbn [List.length].
    destruct (Z.leb_spec 0 (Z.of_nat (List.length (Blockchain.chain self)))); [|lia].
    destruct (Z.ltb_spec (Z.of_nat (List.length (Blockchain.chain self)))
                (Z.of_nat (List.length (Blockchain.chain self) + 1))); [|lia].
    cbn [andb]. rewrite Nat2Z.id, nth_error_app2 by lia.
    rewrite Nat.sub_diag. reflexivity. }
  split.
  { unfold Blockchain.get_difficulty. rewrite get_latest_block_last. reflexivity. }
  split; [reflexivity|].
  intros tx. rewrite filter_In, bool_decide_eq_true.
  rewrite elem_of_list_to_set, list_elem_of_In. reflexivity.
Qed.


Lemma last_cons {A : Type} (rest : list A) :
  forall c d : A, last (c :: rest) d = last rest c.
Proof.
  induction rest as [|a rest IH]; intros c d; [reflexivity|].
  change (last (c :: a :: rest) d) with (last (a :: rest) d).
  rewrite (IH a d), (IH a c). reflexivity.
Qed.

(** [valid_from] over a chain with one more block at its end. *)
Lemma valid_from_app (rest : list Block.t) :
  forall (first b : Block.t),
    Blockchain.valid_from first rest = Some true ->
    Blockchain.valid_from first (rest ++ [b])
    = Block.is_valid b (Some (last rest first)) \/
    (Block.is_valid b (Some (last rest first)) = None /\
     Blockchain.valid_from first (rest ++ [b]) = None).
Proof.
  induction rest as [|c rest IH]; intros first b Hv.
  - cbn [app Blockchain.valid_from last].
    destruct (Block.is_valid b (Some first)) as [[|]|]; auto.
  - cbn [app Blockchain.valid_from] in Hv |- *.
    destruct (Block.is_valid c (Some first)) as [[|]|]; try discriminate Hv.
    rewrite last_cons. apply IH. exact Hv.
Qed.

Lemma get_latest_block_cons (first : Block.t) (rest : list Block.t)
  (pending : list Transaction.t) (balances : gmap string spec_float) :
  Blockchain.get_latest_block (Blockchain.mk (first :: rest) pending balances)
  = Some (last rest first).
Proof.
  unfold Blockchain.get_latest_block. cbn [Blockchain.chain List.length].
  rewrite Nat.sub_succ, Nat.sub_0_r.
  revert first. induction rest as [|x rest IH]; intros first; [reflexivity|].
  cbn [List.length nth_error]. rewrite IH. rewrite (last_cons rest x first).
  reflexivity.
Qed.

(** X22. [add_block] keeps the chain valid: after a call on a chain that
    [is_valid_chain] accepts, the chain is again one that it accepts,
    whether the call returned true, returned false or raised. *)
Theorem add_block_keeps_chain_valid (self : Blockchain.t) (d : Blockchain.db)
  (block : Block.t) :
  Blockchain.is_valid_chain self = Some true ->
  Blockchain.is_valid_chain (state_after (Blockchain.add_block self d block)) = Some true.
Proof.
  intros Hv. rewrite add_block_unfold.
  destruct (Block.is_valid block (Blockchain.get_latest_block self)) as [[|]|] eqn:Hb;
    [| exact Hv | exact Hv].
  assert (Hc : Blockchain.is_valid_chain
                 (Blockchain.mk (Blockchain.chain self ++ [block])
                    (Blockchain.pending_transactions self)
                    (fold_left Blockchain.update_balance (Block.transactions block)
                       (Blockchain.balances self))) = Some true).
  { unfold Blockchain.is_valid_chain in Hv |- *. cbn [Blockchain.chain].
    destruct self as [chain pending balances]. cbn [Blockchain.chain] in *.
    destruct chain as [|first rest]; [reflexivity|].
    rewrite get_latest_block_cons in Hb.
    cbn [app]. destruct (valid_from_app rest first block Hv) as [E | [E _]].
    - rewrite E. exact Hb.
    - rewrite E in Hb. discriminate Hb. }
  cbv zeta.
  destruct (Blockchain.save_balances _ d) as [d1|]; [|exact Hc].
  destruct (Blockchain.save_block block d1) as [d2|]; exact Hc.
Qed.

(** X23. A block of index 0 with the previous hash of a genesis block is taken
    at any height.  [quick_verify] and [verify_block] pass it without
    looking at a proof of work, [is_valid] passes it against any latest
    block, and [add_block], unless a write to the database raises, returns
    true; either way the block is appended and its transactions, which
    nothing has validated, are applied to the balances. *)
Theorem index_zero_block_taken_anywhere (cfg : FractalConfig.t)
  (self : Blockchain.t) (d : Blockchain.db) (block : Block.t) :
  Block.index block = 0 ->
  Block.previous_hash block
  = "0000000000000000000000000000000000000000000000000000000000000000" ->
  BlockVerifier.quick_verify block = Some true /\
  (forall previous_block,
     BlockVerifier.verify_block cfg block previous_block
     = Some (true, "Genesis block verified")) /\
  (forall self' d', Blockchain.add_block self d block
                    <> Blockchain.Returned false self' d') /\
  Blockchain.chain (state_after (Blockchain.add_block self d block))
  = (Blockchain.chain self ++ [block])%list /\
  Blockchain.balances (state_after (Blockchain.add_block self d block))
  = fold_left Blockchain.update_balance (Block.transactions block)
              (Blockchain.balances self).
Proof.
  intros Hi Hp.
  assert (Hv : forall previous_block, Block.is_valid block previous_block = Some true).
  { intros pb. unfold Block.is_valid. rewrite Hi, Hp. reflexivity. }
  split; [|split; [|split]].
  - unfold BlockVerifier.quick_verify. rewrite Hi. reflexivity.
  - intros pb. unfold BlockVerifier.verify_block. rewrite Hv, Hi. reflexivity.
  - intros self' d'. rewrite add_block_unfold, Hv. cbv zeta.
    destruct (Blockchain.save_balances _ d) as [d1|]; [|discriminate].
    destruct (Blockchain.save_block block d1) as [d2|]; discriminate.
  - rewrite add_block_unfold, Hv. cbv zeta.
    destruct (Blockchain.save_balances _ d) as [d1|]; [|split; reflexivity].
    destruct (Blockchain.save_block block d1) as [d2|]; split; reflexivity.
Qed.

End ChainProofs.
(** ** The search and the verifier *)

Lemma sub_self_zero (d : spec_float) :
  F.is_finite d = true -> F.sub d d = S754_zero false.
Proof.
  destruct d as [[|] | [|] | | s m e]; try discriminate; try reflexivity.
  intros _. unfold F.sub, SFsub. rewrite Z.sub_diag. reflexivity.
Qed.

(** A distance below a tolerance is the distance of a finite number. *)
Lemma close_is_finite (d t e : spec_float) :
  F.ltb (F.abs (F.sub d t)) e = true -> F.is_finite d = true.
Proof.
  intros Hm.
  destruct d as [sd | sd | | sd md ed]; [reflexivity | | | reflexivity]; exfalso.
  - destruct t as [st | st | | st mt et], e as [se | se | | se me ee];
      try destruct sd; try destruct st; try destruct se;
      lazy in Hm; discriminate Hm.
  - destruct e; lazy in Hm; discriminate Hm.
Qed.

Section SearchProofs.
Context `{Externals}.

Lemma match_is_accurate (d t e : spec_float) :
  FractalProofOfWork.dimension_match d t e = true ->
  FractalProofOfWork.claim_accurate d d = true.
Proof.
  unfold FractalProofOfWork.dimension_match, FractalProofOfWork.claim_accurate.
  intros Hm. rewrite (sub_self_zero d (close_is_finite d t e Hm)). reflexivity.
Qed.

(** What the loop of [find_fractal_solution] returns is the first search
    point that passes its test. *)
Lemma first_solution_found (cfg : FractalConfig.t) (c : complex)
  (t e : spec_float) (points : list complex) :
  forall center d bitmap,
    FractalProofOfWork.first_solution cfg c t e points = Some (Some (center, d, bitmap)) ->
    In center points /\
    bitmap = JuliaSetGenerator.generate_fractal_bitmap cfg c center /\
    exists r2 pts,
      BoxCountingDimension.calculate_dimension cfg bitmap = Some (d, r2, pts) /\
      FractalProofOfWork.dimension_match d t e = true /\
      FractalProofOfWork.quality_check r2 = true.
Proof.
  induction points as [|p points IH]; intros center d bitmap Hf; [discriminate Hf|].
  cbn [FractalProofOfWork.first_solution] in Hf.
  destruct (BoxCountingDimension.calculate_dimension cfg
              (JuliaSetGenerator.generate_fractal_bitmap cfg c p))
    as [[[d0 r0] pts0]|] eqn:Ec; [|discriminate Hf].
  destruct (FractalProofOfWork.dimension_match d0 t e
            && FractalProofOfWork.quality_check r0) eqn:Et.
  - injection Hf as <- <- <-.
    apply andb_true_iff in Et. destruct Et as [Hd Hq].
    split; [left; reflexivity|]. split; [reflexivity|].
    exists r0, pts0. auto.
  - destruct (IH _ _ _ Hf) as (Hin & Hb & Hr). split; [right; exact Hin | auto].
Qed.

(** X24. The verifier accepts what the search returns.  When
    [find_fractal_solution] returns a point with its dimension, the point
    is one of the search points of the seed, the bitmap is the one
    generated around it, and [verify_solution], called with the same
    target and tolerance and with the returned dimension as the claim,
    returns true. *)
Theorem found_solution_verifies (cfg : FractalConfig.t) (seed : string)
  (target_dimension epsilon : option spec_float) (max_attempts : Z)
  (center : complex) (dimension : spec_float) (bitmap : list (list Z)) :
  FractalProofOfWork.find_fractal_solution cfg seed target_dimension epsilon max_attempts
  = Some (Some (center, dimension, bitmap)) ->
  FractalProofOfWork.verify_solution cfg seed center dimension target_dimension epsilon
  = Some true /\
  exists c points,
    JuliaSetGenerator.generate_c_from_seed seed = Some c /\
    FractalProofOfWork._generate_search_points seed max_attempts = Some points /\
    In center points /\
    bitmap = JuliaSetGenerator.generate_fractal_bitmap cfg c center.
Proof.
  unfold FractalProofOfWork.find_fractal_solution, FractalProofOfWork.verify_solution.
  destruct (JuliaSetGenerator.generate_c_from_seed seed) as [c|]; [|discriminate].
  destruct (FractalProofOfWork._generate_search_points seed max_attempts)
    as [points|]; [|discriminate].
  intros Hf. destruct (first_solution_found _ _ _ _ _ _ _ _ Hf)
    as (Hin & -> & r2 & pts & Hc & Hd & Hq).
  split.
  - rewrite Hc, Hd, Hq, (match_is_accurate _ _ _ Hd). reflexivity.
  - exists c, points. auto.
Qed.

(** X25. What an accepted block has passed.  When [verify_block] returns true,
    [is_valid] and [quick_verify] return true on the block; either the
    index is 0, and nothing else was looked at, or the block carries a
    proof whose seed is the hash of the previous hash, the miner address
    and the nonce, and whose solution [verify_solution] accepts for the
    target that the block itself declares. *)
Theorem verify_block_sound (cfg : FractalConfig.t) (block : Block.t)
  (previous_block : option Block.t) (message : string) :
  BlockVerifier.verify_block cfg block previous_block = Some (true, message) ->
  Block.is_valid block previous_block = Some true /\
  BlockVerifier.quick_verify block = Some true /\
  ((Block.index block = 0 /\ message = "Genesis block verified") \/
   (Block.index block <> 0 /\ message = "Block verified" /\
    exists proof,
      Block.fractal_proof block = Some proof /\
      FractalProof.fractal_seed proof
      = FractalProofOfWork.generate_fractal_seed (Block.previous_hash block)
          (Block.miner_address block) (FractalProof.nonce proof) /\
      FractalProofOfWork.verify_solution cfg (FractalProof.fractal_seed proof)
        (FractalProof.get_solution_point proof) (FractalProof.fractal_dimension proof)
        (Some (Block.difficulty_target block)) (Some (FractalConfig.epsilon cfg))
      = Some true)).
Proof.
  unfold BlockVerifier.verify_block, BlockVerifier.quick_verify.
  destruct (Block.is_valid block previous_block) as [[|]|]; try discriminate.
  destruct (Z.eqb_spec (Block.index block) 0) as [Hi | Hi].
  - intros E. injection E as <-. auto.
  - destruct (Block.fractal_proof block) as [proof|]; [|discriminate].
    destruct (FractalProofOfWork.verify_header_hash _ _) as [[|]|]; try discriminate.
    destruct (String.eqb_spec
                (FractalProofOfWork.generate_fractal_seed (Block.previous_hash block)
                   (Block.miner_address block) (FractalProof.nonce proof))
                (FractalProof.fractal_seed proof)) as [Hs | Hs];
      cbn [negb]; [|discriminate].
    destruct (FractalProofOfWork.verify_solution _ _ _ _ _ _) as [[|]|] eqn:Hv;
      try discriminate.
    intros E. injection E as <-.
    split; [reflexivity|]. split; [reflexivity|].
    right. split; [exact Hi|]. split; [reflexivity|].
    exists proof. auto.
Qed.

(** X26. Above 256 difficulty bits the pre-filter raises on every hash: the
    shift count [256 - difficulty_bits] is negative.  The verifier takes
    the bits from the block, so [quick_verify] raises on every block of
    non-zero index that carries a proof and declares more than 256 bits. *)
Theorem prefilter_raises_above_256 (header_hash : string) (difficulty_bits : Z)
  (block : Block.t) :
  256 < difficulty_bits ->
  FractalProofOfWork.verify_header_hash header_hash difficulty_bits = None /\
  (Block.index block <> 0 -> Block.fractal_proof block <> None ->
   Block.header_difficulty_bits block = difficulty_bits ->
   BlockVerifier.quick_verify block = None).
Proof.
  intros Hb.
  assert (Hr : forall h, FractalProofOfWork.verify_header_hash h difficulty_bits = None).
  { intros h. unfold FractalProofOfWork.verify_header_hash.
    destruct (Py.int16 h) as [v|]; [|reflexivity].
    assert (Hl : 0 <= Py.bit_length v).
    { unfold Py.bit_length. destruct (v =? 0); [lia|].
      pose proof (Z.log2_nonneg (Z.abs v)). lia. }
    destruct (Z.eqb_spec (Py.bit_length v) (256 - difficulty_bits)); [lia|].
    unfold Py.one_shl.
    destruct (Z.ltb_spec (256 - difficulty_bits) 0); [reflexivity | lia]. }
  split; [apply Hr|].
  intros Hi Hp Hd. unfold BlockVerifier.quick_verify.
  destruct (Z.eqb_spec (Block.index block) 0); [congruence|].
  destruct (Block.fractal_proof block); [|congruence].
  rewrite Hd. apply Hr.
Qed.

End SearchProofs.

(** ** The parameter of the Julia set *)

Lemma firstn_skipn_app {A : Type} (l t : list A) (a n : nat) :
  (a + n <= List.length l)%nat ->
  firstn n (skipn a (l ++ t)) = firstn n (skipn a l).
Proof.
  intros Hl. rewrite skipn_app, firstn_app.
  replace (n - List.length (skipn a l))%nat with O by (rewrite length_skipn; lia).
  cbn [firstn]. apply app_nil_r.
Qed.

(** A slice inside a string is the same slice of any extension of it. *)
Lemma slice_app (s t : string) (a b : Z) :
  0 <= a <= b -> b <= Py.len s ->
  Py.slice (s ++ t) a b = Py.slice s a b.
Proof.
  intros Hab Hb.
  assert (Hlen : Py.len s <= Py.len (s ++ t)).
  { unfold Py.len. rewrite append_length. lia. }
  rewrite <- (string_of_list_ascii_of_string (Py.slice (s ++ t) a b)).
  rewrite <- (string_of_list_ascii_of_string (Py.slice s a b)).
  rewrite !slice_chars by lia.
  rewrite list_ascii_app, firstn_skipn_app; [reflexivity|].
  rewrite list_ascii_length. unfold Py.len in Hb. lia.
Qed.

(** X27. Only the first 32 characters of a seed are read: a seed of 32
    characters or more and any extension of it give the same parameter (or
    fail alike).  Of the 64 hexadecimal digits of a SHA-256 seed, the last
    32 play no part in [c]. *)
Theorem c_reads_first_32_characters (seed rest : string) :
  32 <= Py.len seed ->
  JuliaSetGenerator.generate_c_from_seed (seed ++ rest)
  = JuliaSetGenerator.generate_c_from_seed seed.
Proof.
  intros Hl.
  assert (Hl' : 32 <= Py.len (seed ++ rest)).
  { unfold Py.len in *. rewrite append_length. lia. }
  unfold JuliaSetGenerator.generate_c_from_seed.
  destruct (Z.ltb_spec (Py.len seed) 32); [lia|].
  destruct (Z.ltb_spec (Py.len (seed ++ rest)) 32); [lia|].
  rewrite !slice_app by lia. reflexivity.
Qed.


Lemma c_reads_first_32_characters_witness :
  JuliaSetGenerator.generate_c_from_seed
    ("80000000000000008000000000000000" ++ "ffffffffffffffffffffffffffffffff")
  = JuliaSetGenerator.generate_c_from_seed "80000000000000008000000000000000".
Proof.
  apply (c_reads_first_32_characters "80000000000000008000000000000000"
           "ffffffffffffffffffffffffffffffff").
  vm_compute. discriminate.
Defined.
(** ** Box counting at the edges *)

Section BoxCountingProofs.
Context `{Externals}.

(** [collect] fills its three lists in step. *)
Lemma collect_lengths (cfg : FractalConfig.t) (bitmap : list (list Z))
  (sizes : list spec_float) :
  forall ls lc dp,
    BoxCountingDimension.collect cfg bitmap sizes = Some (ls, lc, dp) ->
    List.length ls = List.length dp /\ List.length lc = List.length dp.
Proof.
  induction sizes as [|s sizes IH]; intros ls lc dp Hc.
  - injection Hc as <- <- <-. auto.
  - cbn [BoxCountingDimension.collect] in Hc.
    destruct (BoxCountingDimension.count_boxes cfg bitmap s) as [count|];
      [|discriminate Hc].
    destruct (BoxCountingDimension.collect cfg bitmap sizes) as [[[lss lcs] dps]|].
    2:{ destruct (0 <? count); [|discriminate Hc].
        destruct (F.div F.one s); [|discriminate Hc].
        destruct (F.of_int count); discriminate Hc. }
    destruct (IH _ _ _ eq_refl) as [H1 H2].
    destruct (0 <? count).
    + destruct (F.div F.one s); [|discriminate Hc].
      destruct (F.of_int count); [|discriminate Hc].
      injection Hc as <- <- <-. cbn [List.length]. auto.
    + injection Hc as <- <- <-. auto.
Qed.

(** X29. With fewer than two box sizes that count a box, [calculate_dimension]
    returns the dimension 0.0 and the R-squared 0.0 without a regression,
    and [verify_solution] is false whatever the target, the tolerance and
    the claimed dimension. *)
Theorem too_few_scales_rejected (cfg : FractalConfig.t) (seed : string)
  (solution_point c : complex) (claimed_dimension : spec_float)
  (target_dimension epsilon : option spec_float)
  (dimension r_squared : spec_float) (data_points : list (spec_float * Z)) :
  JuliaSetGenerator.generate_c_from_seed seed = Some c ->
  BoxCountingDimension.calculate_dimension cfg
    (JuliaSetGenerator.generate_fractal_bitmap cfg c solution_point)
  = Some (dimension, r_squared, data_points) ->
  (List.length data_points < 2)%nat ->
  dimension = F.zero /\ r_squared = F.zero /\
  FractalProofOfWork.verify_solution cfg seed solution_point claimed_dimension
    target_dimension epsilon = Some false.
Proof.
  intros Hc Hd Hl.
  assert (Hz : dimension = F.zero /\ r_squared = F.zero).
  { unfold BoxCountingDimension.calculate_dimension in Hd.
    destruct (BoxCountingDimension.collect cfg _ (FractalConfig.box_sizes cfg))
      as [[[ls lc] dp]|] eqn:Ec; [|discriminate Hd].
    destruct (collect_lengths _ _ _ _ _ _ Ec) as [H1 _].
    destruct (Nat.ltb_spec (List.length ls) 2) as [Hlt | Hge].
    - injection Hd as <- <- _. auto.
    - destruct (linregress ls lc). injection Hd as _ _ <-. lia. }
  destruct Hz as [-> ->]. split; [reflexivity|]. split; [reflexivity|].
  unfold FractalProofOfWork.verify_solution. rewrite Hc, Hd.
  change (FractalProofOfWork.quality_check F.zero) with false.
  rewrite andb_false_r. reflexivity.
Qed.

End BoxCountingProofs.

(** X30. With the default configuration, a region of side 2.0 on a grid of
    128 rows, the box sizes 1/64 and 1/128 give the same count on every
    bitmap: 2.0 / (1/128) is 256 boxes a side, more than the grid has
    pixels, so the boxes are single pixels as they are for 1/64. *)
Theorem finest_box_sizes_coincide (bitmap : list (list Z)) :
  List.length bitmap = 128%nat ->
  BoxCountingDimension.count_boxes FractalConfig.default bitmap (FractalConfig.pow2 (-7))
  = BoxCountingDimension.count_boxes FractalConfig.default bitmap (FractalConfig.pow2 (-6)).
Proof.
  intros Hl. unfold BoxCountingDimension.count_boxes. rewrite Hl.
  assert (E7 : F.div (FractalConfig.region_size FractalConfig.default)
                     (FractalConfig.pow2 (-7))
               = Some (S754_finite false 4503599627370496 (-44)))
    by (vm_compute; reflexivity).
  assert (E6 : F.div (FractalConfig.region_size FractalConfig.default)
                     (FractalConfig.pow2 (-6))
               = Some (S754_finite false 4503599627370496 (-45)))
    by (vm_compute; reflexivity).
  rewrite E7, E6.
  replace (F.to_int (S754_finite false 4503599627370496 (-44))) with (Some 256)
    by reflexivity.
  replace (F.to_int (S754_finite false 4503599627370496 (-45))) with (Some 128)
    by reflexivity.
  cbv beta iota.
  replace ((256 <=? 0) || (Z.of_nat 128 <? 256)) with true by reflexivity.
  replace ((128 <=? 0) || (Z.of_nat 128 <? 128)) with false by reflexivity.
  cbv iota. change (Z.of_nat 128) with 128.
  reflexivity.
Qed.

Lemma finest_box_sizes_coincide_witness :
  BoxCountingDimension.count_boxes FractalConfig.default
    (List.repeat (List.repeat 1 128) 128) (FractalConfig.pow2 (-7))
  = BoxCountingDimension.count_boxes FractalConfig.default
      (List.repeat (List.repeat 1 128) 128) (FractalConfig.pow2 (-6)).
Proof.
  apply (finest_box_sizes_coincide (List.repeat (List.repeat 1 128) 128)).
  apply repeat_length.
Defined.

(** The theorem at a point so far from the origin that no grid point
    stays: no box is counted at any size. *)
Lemma too_few_scales_rejected_witness :
  @BoxCountingDimension.calculate_dimension Sample.externals small_config
    (@JuliaSetGenerator.generate_fractal_bitmap Sample.externals small_config
       (F.zero, F.zero) far_point)
  = Some (F.zero, F.zero, []) /\
  @FractalProofOfWork.verify_solution Sample.externals small_config
    "80000000000000008000000000000000" far_point F.zero None None = Some false.
Proof.
  assert (Hd : @BoxCountingDimension.calculate_dimension Sample.externals small_config
                 (@JuliaSetGenerator.generate_fractal_bitmap Sample.externals small_config
                    (F.zero, F.zero) far_point)
               = Some (F.zero, F.zero, [])) by (vm_compute; reflexivity).
  split; [exact Hd|].
  apply (@too_few_scales_rejected Sample.externals small_config
           "80000000000000008000000000000000" far_point (F.zero, F.zero) F.zero
           None None F.zero F.zero []).
  - vm_compute. reflexivity.
  - exact Hd.
  - cbn. lia.
Defined.

(** ** The examples run through the chain *)

(** The theorem at the seed of the mined block of the examples. *)
Lemma found_solution_verifies_witness :
  @FractalProofOfWork.verify_solution Sample.externals small_config mined_seed
    (FractalProof.get_solution_point mined_proof)
    (FractalProof.fractal_dimension mined_proof)
    (Some F.lit_1_5) (Some (FractalConfig.epsilon small_config)) = Some true.
Proof.
  apply (@found_solution_verifies Sample.externals small_config mined_seed
           (Some F.lit_1_5) (Some (FractalConfig.epsilon small_config)) 3
           (FractalProof.get_solution_point mined_proof)
           (FractalProof.fractal_dimension mined_proof)
           (@JuliaSetGenerator.generate_fractal_bitmap Sample.externals small_config
              (default (F.zero, F.zero) (JuliaSetGenerator.generate_c_from_seed mined_seed))
              (FractalProof.get_solution_point mined_proof))).
  vm_compute. reflexivity.
Defined.

(** The theorem at the mined block of the examples, verified against the
    genesis block. *)
Lemma verify_block_sound_witness :
  @BlockVerifier.verify_block Sample.externals small_config mined_block
    (Some Sample.genesis) = Some (true, "Block verified") /\
  @BlockVerifier.quick_verify Sample.externals mined_block = Some true.
Proof.
  assert (Hv : @BlockVerifier.verify_block Sample.externals small_config mined_block
                 (Some Sample.genesis) = Some (true, "Block verified"))
    by (vm_compute; reflexivity).
  split; [exact Hv|].
  apply (@verify_block_sound Sample.externals small_config mined_block
           (Some Sample.genesis) "Block verified" Hv).
Defined.

Lemma prefilter_raises_above_256_witness :
  @FractalProofOfWork.verify_header_hash "00ff" 257 = None.
Proof.
  exact (proj1 (@prefilter_raises_above_256 Sample.externals "00ff" 257 mined_block
                  ltac:(lia))).
Defined.

(** The theorem at the mined block added to a chain that holds the genesis
    block. *)
Lemma add_block_accepted_witness :
  @Blockchain.add_block Sample.externals recording_database sample_chain
    ([] : list Block.t) mined_block
  = @Blockchain.Returned recording_database true
      (Blockchain.mk [Sample.genesis; mined_block] []
         (fold_left Blockchain.update_balance (Block.transactions mined_block)
            (Blockchain.balances sample_chain)))
      ([mined_block] : list Block.t) /\
  Blockchain.get_latest_block
    (Blockchain.mk [Sample.genesis; mined_block] []
       (fold_left Blockchain.update_balance (Block.transactions mined_block)
          (Blockchain.balances sample_chain)))
  = Some mined_block.
Proof.
  assert (E : @Blockchain.add_block Sample.externals recording_database sample_chain
                ([] : list Block.t) mined_block
              = @Blockchain.Returned recording_database true
                  (Blockchain.mk [Sample.genesis; mined_block] []
                     (fold_left Blockchain.update_balance (Block.transactions mined_block)
                        (Blockchain.balances sample_chain)))
                  ([mined_block] : list Block.t)) by (vm_compute; reflexivity).
  split; [exact E|].
  apply (@add_block_accepted Sample.externals recording_database _ _ _ _ _ E).
Defined.

(** The theorem at a chain of two blocks, to which a second block of index
    0 is added: [is_valid_chain] accepts the three. *)
Lemma add_block_keeps_chain_valid_witness :
  @Blockchain.is_valid_chain Sample.externals
    (@state_after recording_database
       (@Blockchain.add_block Sample.externals recording_database
          (Blockchain.mk [Sample.genesis; mined_block] [] ∅) ([] : list Block.t)
          second_genesis))
  = Some true.
Proof.
  apply (@add_block_keeps_chain_valid Sample.externals recording_database).
  vm_compute. reflexivity.
Defined.

(** The theorem at a second block of index 0 offered to a chain that holds
    a genesis block, with a database that fails: the block is in the chain
    and "mallory" holds the 50.0 that its unsigned transaction grants. *)
Lemma index_zero_block_taken_anywhere_witness :
  Blockchain.chain
    (@state_after failing_database
       (@Blockchain.add_block Sample.externals failing_database
          sample_chain tt second_genesis))
  = [Sample.genesis; second_genesis] /\
  Blockchain.balances
    (@state_after failing_database
       (@Blockchain.add_block Sample.externals failing_database
          sample_chain tt second_genesis)) !! "mallory"
  = Some (F.add F.zero F.fifty).
Proof.
  destruct (@index_zero_block_taken_anywhere Sample.externals failing_database
              small_config sample_chain tt second_genesis eq_refl eq_refl)
    as (_ & _ & _ & Hc & Hb).
  split; [exact Hc|].
  rewrite Hb. vm_compute. reflexivity.
Defined.
